(** * trader-agent: risk scoring, buy/sell triggers, swap execution

    A shallow embedding of [src/main.py].  The module scores newly listed
    tokens, applies five buy gates, executes swaps through a routing
    service and keeps one row per token in a SQLite table.

    Conventions of the embedding
    - Python [float] values are read as exact rationals ([Q]); Python
      [int] values as [Z].  Comparisons are the boolean tests of the
      source ([>=], [<], [==]) on those numbers.  The one accumulation
      whose rounding could matter for a bound, the risk score, is also
      given in binary64 ([scam_risk_binary64]), and so is the profit
      multiplier of the sell phase ([profit_multiplier_binary64]).
    - The process-wide globals ([API_KEY_RUGCHECK], [cache]) and the
      SQLite table are fields of an explicit state [St].
    - Every external service (HTTP endpoints, the RPC node, the clock,
      SQLite) is an oracle in [Env], indexed by the number of external
      interactions made so far, so that the same request may be answered
      differently the next time it is made.
    - Exceptions are values of [Exn]; coroutines are functions in the
      state-and-exception monad [M], which also collects the calls a
      run makes ([Event]). *)

From Stdlib Require Import ZArith QArith String Ascii List Bool.
From Stdlib Require Import PrimFloat.
From stdpp Require Import gmap strings list.

Set Default Proof Using "Type".

(** ** Numbers *)

Definition Qleb (x y : Q) : bool := Qle_bool x y.
Definition Qltb (x y : Q) : bool := negb (Qle_bool y x).
Definition Qeqb (x y : Q) : bool := Qeq_bool x y.

(** [int(x)] on a float: truncation towards zero. *)
Definition py_int (x : Q) : Z := Z.quot (Qnum x) (Zpos (Qden x)).

(** [10 ** d]: an integer for [d >= 0], a float reciprocal otherwise. *)
Definition pow10 (d : Z) : Q :=
  if (0 <=? d)%Z then inject_Z (10 ^ d) else (/ inject_Z (10 ^ (- d)))%Q.

(** ** Configuration ([Settings]) *)

Record Settings := {
  SOL_ADDRESS : string;
  CHECK_INTERVAL : Z;
  VOLUME_THRESHOLD : Q;
  LIQUIDITY_THRESHOLD : Q;
  TX_COUNT_THRESHOLD : Z;
  TREND_SCORE_MIN : Q;
  SCAM_RISK_MAX : Q;
  PROFIT_MULTIPLIER_MIN : Q;
  PROFIT_MULTIPLIER_MAX : Q;
  SELL_PERCENTAGE : Q;
  BUY_AMOUNT_SOL : Q;
  CACHE_EXPIRY : Z;
  SLIPPAGE : Q
}.

Definition default_settings : Settings := {|
  SOL_ADDRESS := "So11111111111111111111111111111111111111112";
  CHECK_INTERVAL := 60;
  VOLUME_THRESHOLD := 1000;
  LIQUIDITY_THRESHOLD := 500;
  TX_COUNT_THRESHOLD := 100;
  TREND_SCORE_MIN := 0.5;
  SCAM_RISK_MAX := 0.5;
  PROFIT_MULTIPLIER_MIN := 2.0;
  PROFIT_MULTIPLIER_MAX := 3.0;
  SELL_PERCENTAGE := 0.5;
  BUY_AMOUNT_SOL := 1;
  CACHE_EXPIRY := 300;
  SLIPPAGE := 0.5
|}.

(** ** In-memory cache *)

Record CacheEntry (A : Type) := mkEntry { data : A; timestamp : Q }.
Arguments mkEntry {A} _ _.
Arguments data {A} _.
Arguments timestamp {A} _.

Section Cache.
Context {A : Type}.
Variable cfg : Settings.

(** [get_cached_data]: [now] is the reading of [time.time()], the global
    dictionary is passed in.  [None] is the miss. *)
Definition get_cached_data (now : Q) (key : string)
    (cache : gmap string (CacheEntry A)) : option A :=
  match cache !! key with
  | Some e =>
      if Qltb (now - timestamp e) (inject_Z (CACHE_EXPIRY cfg))
      then Some (data e) else None
  | None => None
  end.

Definition set_cached_data (now : Q) (key : string) (d : A)
    (cache : gmap string (CacheEntry A)) : gmap string (CacheEntry A) :=
  <[key := mkEntry d now]> cache.
End Cache.

(** ** Token state *)

Record TokenState := mkTokenState {
  token_address : string;
  name : string;
  decimals : Z;
  volume : Q;
  liquidity : Q;
  tx_count : Z;
  trend_score : Q;
  scam_risk : Q;
  buy_price : Q;
  holdings : Q;
  sniper_activity : Q;
  insider_trades : Z
}.

(** [TokenState.__init__] *)
Definition TokenState_init (addr nm : string) (dec : Z) : TokenState :=
  mkTokenState addr nm dec 0 0 0 0 0 0 0 0 0.

Definition set_trend_score (x : Q) (ts : TokenState) : TokenState :=
  mkTokenState (token_address ts) (name ts) (decimals ts) (volume ts)
    (liquidity ts) (tx_count ts) x (scam_risk ts) (buy_price ts)
    (holdings ts) (sniper_activity ts) (insider_trades ts).

Definition set_scam_risk (x : Q) (ts : TokenState) : TokenState :=
  mkTokenState (token_address ts) (name ts) (decimals ts) (volume ts)
    (liquidity ts) (tx_count ts) (trend_score ts) x (buy_price ts)
    (holdings ts) (sniper_activity ts) (insider_trades ts).

(** The validated analytics payload ([TokenAnalytics]). *)
Record TokenAnalytics := mkAnalytics {
  a_volume_24h : Q;
  a_liquidity : Q;
  a_tx_count_24h : Z;
  a_sniper_activity : Q;
  a_insider_trades : Z
}.

Definition update_analytics (a : TokenAnalytics) (ts : TokenState) : TokenState :=
  mkTokenState (token_address ts) (name ts) (decimals ts) (a_volume_24h a)
    (a_liquidity a) (a_tx_count_24h a) (trend_score ts) (scam_risk ts)
    (buy_price ts) (holdings ts) (a_sniper_activity a) (a_insider_trades a).

Definition update_trend_score (x : Q) (ts : TokenState) : TokenState :=
  set_trend_score x ts.

Definition update_holdings (price qty : Q) (ts : TokenState) : TokenState :=
  mkTokenState (token_address ts) (name ts) (decimals ts) (volume ts)
    (liquidity ts) (tx_count ts) (trend_score ts) (scam_risk ts) price
    qty (sniper_activity ts) (insider_trades ts).

(** ** Risk scorer *)

Section Risk.
Variable cfg : Settings.

(** The [risk_factors] dictionary, in insertion order:
    factor name, then (value, threshold, weight). *)
Definition risk_factors (ts : TokenState) : list (string * (Q * Q * Q)) :=
  [ ("sniper_activity", (sniper_activity ts, 50, 0.3));
    ("insider_trades", (inject_Z (insider_trades ts), 10, 0.2));
    ("liquidity", (liquidity ts, LIQUIDITY_THRESHOLD cfg / 2, 0.4));
    ("tx_count", (inject_Z (tx_count ts),
                  inject_Z (TX_COUNT_THRESHOLD cfg) / 2, 0.1)) ]%Q.

(** One turn of the loop over [risk_factors.items()]. *)
Definition risk_step (risk : Q) (f : string * (Q * Q * Q)) : Q :=
  let '(factor, (value, threshold, weight)) := f in
  if bool_decide (factor ∈ ["sniper_activity"; "insider_trades"]) then
    if Qltb threshold value then (risk + weight)%Q else risk
  else
    if Qltb value threshold then (risk + weight)%Q else risk.

Definition update_scam_risk (ts : TokenState) : TokenState :=
  set_scam_risk (fold_left risk_step (risk_factors ts) 0%Q) ts.

(** A penalty that counts only when its trigger fired. *)
Definition penalty (triggered : bool) (weight : Q) : Q :=
  if triggered then weight else 0%Q.

Definition triggered_penalties (ts : TokenState) : Q :=
  (penalty (Qltb 50 (sniper_activity ts)) 0.3
   + penalty (Qltb 10 (inject_Z (insider_trades ts))) 0.2
   + penalty (Qltb (liquidity ts) (LIQUIDITY_THRESHOLD cfg / 2)) 0.4
   + penalty (Qltb (inject_Z (tx_count ts))
                   (inject_Z (TX_COUNT_THRESHOLD cfg) / 2)) 0.1)%Q.
End Risk.

(** The accumulation [risk += weight] in binary64.  The weights are the
    doubles the literals 0.3, 0.2, 0.4 and 0.1 denote; [triggered] tells,
    in the order of [risk_factors], which factors fired. *)
Definition binary64_weights : list float :=
  [0x1.3333333333333p-2; 0x1.999999999999ap-3;
   0x1.999999999999ap-2; 0x1.999999999999ap-4]%float.

Definition binary64_step (risk : float) (f : bool * float) : float :=
  if f.1 then (risk + f.2)%float else risk.

Definition scam_risk_binary64 (triggered : list bool) : float :=
  fold_left binary64_step (zip triggered binary64_weights) 0%float.


(** ** Exceptions, events and the coroutine monad *)

Inductive Exn :=
| ClientError        (* aiohttp.ClientError and its subclasses *)
| RetryError         (* tenacity: the attempts are used up *)
| KeyError
| TypeError
| ValueError
| ZeroDivisionError
| DatabaseError      (* sqlite3.Error *)
| OtherError.        (* any other exception of a collaborator *)

Inductive Res (A : Type) :=
| Ok (a : A)
| Raise (e : Exn).
Arguments Ok {A} _.
Arguments Raise {A} _.

(** The calls a run makes, in order.  [CallBuy] and [CallSell] mark the
    entry into [Trader.execute_buy] and [Trader.execute_sell]. *)
Inductive Event :=
| CallLogin
| CallRugcheck (addr key : string)
| CallSwapRoute (token_in token_out : string) (amount : Z)
| CallSubmit (signed_tx : string)
| CallConfirm (tx_hash : string)
| CallBuy (addr : string) (amount_in_sol : Q)
| CallSell (addr : string) (amount_to_sell : Q).

(** ** Payloads of the external services *)

(** What an HTTP request comes to: a decoded JSON body, an
    [aiohttp.ClientError] (connection failure, [raise_for_status]), or
    another exception (time-out, undecodable body). *)
Inductive Http (A : Type) :=
| Response (body : A)
| HttpClientError
| HttpOtherError.
Arguments Response {A} _.
Arguments HttpClientError {A}.
Arguments HttpOtherError {A}.

(** A discovered candidate: [token.get("address")], [token.get("name")]. *)
Record Candidate := mkCandidate {
  c_address : string;
  c_name : option string
}.

(** The JSON value found under ["trend_score"], by what [float()]
    makes of it: a finite number (a JSON number or boolean, or text
    that [float()] reads as one), an integer too large for a float,
    text that [float()] does not read, or a value that is neither
    number nor text (null, a list, an object). *)
Inductive JScore :=
| JNumber (q : Q)
| JTooLarge
| JBadText
| JNonNumeric.

(** An element of [trending_tokens]: each key may be missing. *)
Record TrendItem := mkTrendItem {
  tr_address : option string;
  tr_trend_score : option JScore
}.

(** The JSON value found under ["out_amount"]:
    a number, a string holding an integer, or anything else. *)
Inductive JAmount :=
| JInt (z : Z)
| JFloat (q : Q)
| JIntStr (z : Z)
| JOther.

(** [route["data"]["raw_tx"]] with its optional ["swapTransaction"]. *)
Inductive RawTx := RawTxObj (swapTransaction : option string).

(** [route["data"]]. *)
Record RouteData := mkRouteData {
  raw_tx : option RawTx;
  out_amount : option JAmount
}.

(** A swap route: [None] when the body is falsy or has no ["data"]. *)
Definition Route := option RouteData.

(** The answer of [solana_client.get_transaction]. *)
Inductive TxStatus :=
| RpcFailure                         (* the call raises *)
| TxAbsent                           (* no 'result' *)
| TxFound (err : option string).     (* 'result' present, with meta.err *)

(** A row of table [tokens]. *)
Record Row := mkRow {
  r_token_address : string;
  r_name : string;
  r_volume : Q;
  r_liquidity : Q;
  r_tx_count : Z;
  r_trend_score : Q;
  r_scam_risk : Q;
  r_buy_price : Q;
  r_holdings : Q;
  r_decimals : Z;
  r_timestamp : Q
}.

(** The environment: every oracle takes the number of external
    interactions made so far. *)
Record Env := mkEnv {
  time_time : nat -> Q;
  tokens_endpoint : nat -> Http (list Candidate);
  analytics_endpoint : nat -> string -> Http (option TokenAnalytics);
  trends_endpoint : nat -> Http (option (list TrendItem));
  rugcheck_endpoint : nat -> string -> string -> Http (option string);
  login_endpoint : nat -> Http (option string);
  swap_route_endpoint : nat -> string -> string -> Z -> Http Route;
  submit_endpoint : nat -> string -> Http (option string);
  get_transaction : nat -> string -> TxStatus;
  get_mint_info : nat -> string -> option Z;
  sign_transaction : string -> option string;
  sqlite_ok : nat -> bool
}.

(** The mutable state of the process: the two globals and the table.
    The cache dictionary is kept as its two key spaces, the
    ["analytics_<address>"] entries and the ["trends"] entry, which hold
    payloads of different types and never share a key. *)
Record St := mkSt {
  API_KEY_RUGCHECK : option string;
  cache_analytics : gmap string (CacheEntry TokenAnalytics);
  cache_trends : gmap string (CacheEntry (gmap string Q));
  tokens_table : list Row;
  tick : nat
}.

Definition M (A : Type) : Type := St -> Res A * St * list Event.

Definition ret {A} (a : A) : M A := fun st => (Ok a, st, []).

Definition raise {A} (e : Exn) : M A := fun st => (Raise e, st, []).

Definition bind {A B} (m : M A) (f : A -> M B) : M B :=
  fun st =>
    match m st with
    | (Ok a, st1, ev1) =>
        let '(r, st2, ev2) := f a st1 in (r, st2, ev1 ++ ev2)
    | (Raise e, st1, ev1) => (Raise e, st1, ev1)
    end.

Notation "x <- m ;; k" := (bind m (fun x => k))
  (at level 100, m at next level, right associativity).
Notation "m ;;; k" := (bind m (fun _ => k))
  (at level 100, right associativity).

(** [try: m except Exception: h] *)
Definition try_except {A} (m : M A) (h : Exn -> M A) : M A :=
  fun st =>
    match m st with
    | (Raise e, st1, ev1) =>
        let '(r, st2, ev2) := h e st1 in (r, st2, ev1 ++ ev2)
    | ok => ok
    end.

(** A computation without effects that may raise. *)
Definition lift {A} (r : Res A) : M A := fun st => (r, st, []).

Definition emit (e : Event) : M unit := fun st => (Ok tt, st, [e]).

Definition gets {A} (f : St -> A) : M A := fun st => (Ok (f st), st, []).

Definition modify (f : St -> St) : M unit := fun st => (Ok tt, f st, []).

Definition next_tick (st : St) : St :=
  mkSt (API_KEY_RUGCHECK st) (cache_analytics st) (cache_trends st)
       (tokens_table st) (S (tick st)).

(** One external interaction: consult an oracle, advance the counter. *)
Definition ask {A} (oracle : nat -> A) : M A :=
  fun st => (Ok (oracle (tick st)), next_tick st, []).

(** [@retry(retry_if_exception_type(aiohttp.ClientError),
            stop_after_attempt(n), ...)]:
    the body is run again after a [ClientError]; when the last attempt
    fails that way, tenacity raises [RetryError]; any other exception
    passes through at once. *)
Fixpoint retry {A} (attempts : nat) (m : M A) : M A :=
  match attempts with
  | O => raise RetryError
  | S n =>
      fun st =>
        match m st with
        | (Raise ClientError, st1, ev1) =>
            let '(r, st2, ev2) := retry n m st1 in (r, st2, ev1 ++ ev2)
        | other => other
        end
  end.

Definition with_retry {A} (m : M A) : M A := retry 3 m.

(** The body of an HTTP call after [raise_for_status] and [json()]. *)
Definition http {A} (resp : Http A) : M A :=
  match resp with
  | Response body => ret body
  | HttpClientError => raise ClientError
  | HttpOtherError => raise OtherError
  end.

Fixpoint for_each {A} (f : A -> M unit) (l : list A) : M unit :=
  match l with
  | [] => ret tt
  | x :: l' => f x ;;; for_each f l'
  end.

(** ** State updates *)

Definition set_api_key (k : option string) (st : St) : St :=
  mkSt k (cache_analytics st) (cache_trends st) (tokens_table st) (tick st).

Definition set_cache_analytics (c : gmap string (CacheEntry TokenAnalytics))
    (st : St) : St :=
  mkSt (API_KEY_RUGCHECK st) c (cache_trends st) (tokens_table st) (tick st).

Definition set_cache_trends (c : gmap string (CacheEntry (gmap string Q)))
    (st : St) : St :=
  mkSt (API_KEY_RUGCHECK st) (cache_analytics st) c (tokens_table st) (tick st).

Definition set_tokens_table (t : list Row) (st : St) : St :=
  mkSt (API_KEY_RUGCHECK st) (cache_analytics st) (cache_trends st) t (tick st).

(** [not API_KEY_RUGCHECK] is true for [None] and for the empty string. *)
Definition truthy (k : option string) : bool :=
  match k with
  | Some s => negb (String.eqb s "")
  | None => false
  end.

(** ** The table [tokens] *)

(** [INSERT OR REPLACE]: a row with the same primary key is deleted, the
    new row is appended. *)
Definition insert_or_replace (r : Row) (table : list Row) : list Row :=
  List.filter
    (fun r' => negb (String.eqb (r_token_address r') (r_token_address r)))
    table ++ [r].

(** [SELECT ... FROM tokens WHERE holdings > 0] *)
Definition select_held (table : list Row) : list Row :=
  List.filter (fun r => Qltb 0 (r_holdings r)) table.

Definition set_r_holdings (h : Q) (r : Row) : Row :=
  mkRow (r_token_address r) (r_name r) (r_volume r) (r_liquidity r)
        (r_tx_count r) (r_trend_score r) (r_scam_risk r) (r_buy_price r)
        h (r_decimals r) (r_timestamp r).

(** [UPDATE tokens SET holdings = ? WHERE token_address = ?] *)
Definition update_holdings_where (h : Q) (addr : string) (table : list Row)
    : list Row :=
  map (fun r => if String.eqb (r_token_address r) addr
                then set_r_holdings h r else r) table.

(** The rows stored under a key ([SELECT * ... WHERE token_address = ?]). *)
Definition rows_of (addr : string) (table : list Row) : list Row :=
  List.filter (fun r => String.eqb (r_token_address r) addr) table.

(** The row stored under a primary key. *)
Definition row_of (addr : string) (table : list Row) : option Row :=
  List.find (fun r => String.eqb (r_token_address r) addr) table.

(** The amounts passed to [execute_sell] for a token, in order. *)
Fixpoint sells_of (addr : string) (evs : list Event) : list Q :=
  match evs with
  | [] => []
  | CallSell a amt :: evs' =>
      if String.eqb a addr then amt :: sells_of addr evs' else sells_of addr evs'
  | _ :: evs' => sells_of addr evs'
  end.

(** The tokens [execute_buy] was entered for, in order. *)
Fixpoint buys_of (evs : list Event) : list string :=
  match evs with
  | [] => []
  | CallBuy a _ :: evs' => a :: buys_of evs'
  | _ :: evs' => buys_of evs'
  end.

(** The number of [get_rugcheck_api_token] calls. *)
Fixpoint logins_of (evs : list Event) : nat :=
  match evs with
  | [] => O
  | CallLogin :: evs' => S (logins_of evs')
  | _ :: evs' => logins_of evs'
  end.

(** ** Strings *)

Definition ascii_upper (c : ascii) : ascii :=
  let n := nat_of_ascii c in
  if (97 <=? n)%nat && (n <=? 122)%nat then ascii_of_nat (n - 32) else c.

(** [str.upper] on ASCII text. *)
Fixpoint upper (s : string) : string :=
  match s with
  | EmptyString => EmptyString
  | String c s' => String (ascii_upper c) (upper s')
  end.

(** ** The program *)

Section Program.
Variable env : Env.
Variable cfg : Settings.

(** *** Cache access of the coroutines *)

(** The clock is read only when the key is present ([and]
    short-circuits). *)
Definition get_cached_analytics (key : string) : M (option TokenAnalytics) :=
  c <- gets cache_analytics ;;
  match c !! key with
  | Some _ =>
      now <- ask (time_time env) ;;
      ret (get_cached_data cfg now key c)
  | None => ret None
  end.

Definition set_cached_analytics (key : string) (d : TokenAnalytics) : M unit :=
  now <- ask (time_time env) ;;
  modify (fun st => set_cache_analytics
                      (set_cached_data now key d (cache_analytics st)) st).

Definition get_cached_trends (key : string) : M (option (gmap string Q)) :=
  c <- gets cache_trends ;;
  match c !! key with
  | Some _ =>
      now <- ask (time_time env) ;;
      ret (get_cached_data cfg now key c)
  | None => ret None
  end.

(** [if cached:] on a dictionary: an empty one is falsy. *)
Definition nonempty_dict (cached : option (gmap string Q))
    : option (gmap string Q) :=
  match cached with
  | Some m => if bool_decide (m = ∅) then None else Some m
  | None => None
  end.

Definition set_cached_trends (key : string) (d : gmap string Q) : M unit :=
  now <- ask (time_time env) ;;
  modify (fun st => set_cache_trends
                      (set_cached_data now key d (cache_trends st)) st).

(** *** API functions *)

Definition fetch_new_tokens : M (list Candidate) :=
  with_retry (
    resp <- ask (tokens_endpoint env) ;;
    http resp).

(** Returns [None] for the empty dictionary. *)
Definition fetch_token_analytics (token_address : string)
    : M (option TokenAnalytics) :=
  with_retry (
    cached <- get_cached_analytics ("analytics_" ++ token_address) ;;
    match cached with
    | Some a => ret (Some a)
    | None =>
        resp <- ask (fun t => analytics_endpoint env t token_address) ;;
        data <- http resp ;;
        match data with
        | Some validated =>
            set_cached_analytics ("analytics_" ++ token_address) validated ;;;
            ret (Some validated)
        | None => ret None          (* ValidationError: return {} *)
        end
    end).

(** [float(v)]: [OverflowError] counts among the other errors. *)
Definition py_float (v : JScore) : Res Q :=
  match v with
  | JNumber q => Ok q
  | JTooLarge => Raise OtherError
  | JBadText => Raise ValueError
  | JNonNumeric => Raise TypeError
  end.

(** [float(token.get("trend_score", 0))] *)
Definition item_score (it : TrendItem) : Res Q :=
  py_float (default (JNumber 0) (tr_trend_score it)).

(** The dictionary comprehension over [trending_tokens]: a later item
    replaces an earlier one with the same address.  The key of an
    item is evaluated before its value: an item without ["address"]
    raises [KeyError], then a score that [float()] refuses raises
    what [float()] raises. *)
Fixpoint trend_scores (items : list TrendItem) (acc : gmap string Q)
    : Res (gmap string Q) :=
  match items with
  | [] => Ok acc
  | it :: items' =>
      match tr_address it with
      | Some a =>
          match item_score it with
          | Ok score => trend_scores items' (<[a := score]> acc)
          | Raise e => Raise e
          end
      | None => Raise KeyError
      end
  end.

Definition fetch_market_trends : M (gmap string Q) :=
  with_retry (
    cached <- get_cached_trends "trends" ;;
    match nonempty_dict cached with
    | Some m => ret m
    | None =>
        resp <- ask (trends_endpoint env) ;;
        data <- http resp ;;
        match data with
        | Some items =>
            trend_scores <- lift (trend_scores items ∅) ;;
            set_cached_trends "trends" trend_scores ;;;
            ret trend_scores
        | None => ret ∅          (* ValidationError: return {} *)
        end
    end).

(** Never raises: every exception becomes the empty string. *)
Definition get_rugcheck_api_token : M string :=
  emit CallLogin ;;;
  resp <- ask (login_endpoint env) ;;
  match resp with
  | Response token_val => ret (default "" token_val)
  | HttpClientError | HttpOtherError => ret ""
  end.

(** One run of the body of [validate_token_rugcheck]. *)
Definition validate_token_rugcheck_once (token_address : string) : M bool :=
  key <- gets API_KEY_RUGCHECK ;;
  have_key <-
    (if truthy key then ret true
     else
       tok <- get_rugcheck_api_token ;;
       modify (set_api_key (Some tok)) ;;;
       ret (truthy (Some tok))) ;;
  if have_key then
    key <- gets API_KEY_RUGCHECK ;;
    emit (CallRugcheck token_address (default "" key)) ;;;
    resp <- ask (fun t => rugcheck_endpoint env t token_address
                            (default "" key)) ;;
    data <- http resp ;;
    ret (bool_decide (upper (default "UNKNOWN" data) = "GOOD"))
  else ret false.      (* Unable to obtain RugCheck API token *)

Definition validate_token_rugcheck (token_address : string) : M bool :=
  with_retry (validate_token_rugcheck_once token_address).

Definition get_token_decimals (token_address : string) : M Z :=
  info <- ask (fun t => get_mint_info env t token_address) ;;
  ret (default 6%Z info).

Definition get_swap_route (token_in_address token_out_address : string)
    (amount : Z) : M Route :=
  with_retry (
    emit (CallSwapRoute token_in_address token_out_address amount) ;;;
    resp <- ask (fun t => swap_route_endpoint env t token_in_address
                            token_out_address amount) ;;
    http resp).

(** Returns the transaction hash when
    [result and "data" in result and "hash" in result["data"]]. *)
Definition submit_transaction (signed_tx : string) : M (option string) :=
  with_retry (
    emit (CallSubmit signed_tx) ;;;
    resp <- ask (fun t => submit_endpoint env t signed_tx) ;;
    http resp).

Definition confirm_transaction (tx_hash : string) : M bool :=
  emit (CallConfirm tx_hash) ;;;
  status <- ask (fun t => get_transaction env t tx_hash) ;;
  match status with
  | TxFound None => ret true
  | TxFound (Some _) | TxAbsent | RpcFailure => ret false
  end.

(** *** Persistence *)

Definition row_of_state (ts : TokenState) (now : Q) : Row :=
  mkRow (token_address ts) (name ts) (volume ts) (liquidity ts)
        (tx_count ts) (trend_score ts) (scam_risk ts) (buy_price ts)
        (holdings ts) (decimals ts) now.

(** A database error is logged and swallowed. *)
Definition save_token_to_db (ts : TokenState) : M unit :=
  ok <- ask (sqlite_ok env) ;;
  if ok then
    now <- ask (time_time env) ;;
    modify (fun st =>
      set_tokens_table
        (insert_or_replace (row_of_state ts now) (tokens_table st)) st)
  else ret tt.

(** *** Trader *)

(** [base64.b64decode(raw_tx["swapTransaction"])], [from_bytes], [sign],
    [serialize], [b64encode]. *)
Definition sign_swap (rt : RawTx) : Res string :=
  match rt with
  | RawTxObj (Some payload) =>
      match sign_transaction env payload with
      | Some signed_tx => Ok signed_tx
      | None => Raise ValueError
      end
  | RawTxObj None => Raise KeyError
  end.

(** [int(route["data"].get("out_amount", 0))] *)
Definition int_out_amount (d : RouteData) : Res Z :=
  match out_amount d with
  | None => Ok 0%Z
  | Some (JInt z) => Ok z
  | Some (JFloat q) => Ok (py_int q)
  | Some (JIntStr z) => Ok z
  | Some JOther => Raise ValueError
  end.

(** [route["data"].get("out_amount", 0) / 10**9] *)
Definition out_amount_in_sol (d : RouteData) : Res Q :=
  match out_amount d with
  | None => Ok (0 / inject_Z (10 ^ 9))%Q
  | Some (JInt z) => Ok (inject_Z z / inject_Z (10 ^ 9))%Q
  | Some (JFloat q) => Ok (q / inject_Z (10 ^ 9))%Q
  | Some (JIntStr _) | Some JOther => Raise TypeError
  end.

Definition execute_buy (token_state : TokenState) (amount_in_sol : Q)
    : M bool :=
  emit (CallBuy (token_address token_state) amount_in_sol) ;;;
  try_except (
    let amount_in_units := py_int (amount_in_sol * inject_Z (10 ^ 9)) in
    route <- get_swap_route (SOL_ADDRESS cfg) (token_address token_state)
               amount_in_units ;;
    match route with
    | Some d =>
        match raw_tx d with
        | Some rt =>
            signed_tx <- lift (sign_swap rt) ;;
            result <- submit_transaction signed_tx ;;
            match result with
            | Some tx_hash =>
                confirmed <- confirm_transaction tx_hash ;;
                if confirmed then
                  out <- lift (int_out_amount d) ;;
                  if (out =? 0)%Z then ret false
                  else
                    let buy_price :=
                      (amount_in_sol
                       / (inject_Z out / pow10 (decimals token_state)))%Q in
                    let holdings :=
                      (inject_Z out / pow10 (decimals token_state))%Q in
                    save_token_to_db
                      (update_holdings buy_price holdings token_state) ;;;
                    ret true
                else ret false
            | None => ret false
            end
        | None => ret false
        end
    | None => ret false
    end)
    (fun _ => ret false).

Definition execute_sell (token_state : TokenState) (amount_to_sell : Q)
    : M bool :=
  emit (CallSell (token_address token_state) amount_to_sell) ;;;
  try_except (
    let amount_units :=
      py_int (amount_to_sell * pow10 (decimals token_state)) in
    route <- get_swap_route (token_address token_state) (SOL_ADDRESS cfg)
               amount_units ;;
    match route with
    | Some d =>
        match raw_tx d with
        | Some rt =>
            signed_tx <- lift (sign_swap rt) ;;
            result <- submit_transaction signed_tx ;;
            match result with
            | Some tx_hash =>
                confirmed <- confirm_transaction tx_hash ;;
                if confirmed then
                  proceeds <- lift (out_amount_in_sol d) ;;
                  ret true
                else ret false
            | None => ret false
            end
        | None => ret false
        end
    | None => ret false
    end)
    (fun _ => ret false).

(** *** Token analyzer *)

Definition analyze_token (token_address name : string)
    : M (option TokenState) :=
  analytics <- fetch_token_analytics token_address ;;
  match analytics with
  | None => ret None
  | Some a =>
      decimals <- get_token_decimals token_address ;;
      let token_state :=
        update_scam_risk cfg
          (update_analytics a (TokenState_init token_address name decimals)) in
      good <- validate_token_rugcheck token_address ;;
      if good then ret (Some token_state) else ret None
  end.

(** *** Main loop: one iteration *)

(** The five buy gates. *)
Definition buy_gates (ts : TokenState) : bool :=
  Qleb (VOLUME_THRESHOLD cfg) (volume ts)
  && Qleb (LIQUIDITY_THRESHOLD cfg) (liquidity ts)
  && (TX_COUNT_THRESHOLD cfg <=? tx_count ts)%Z
  && Qleb (TREND_SCORE_MIN cfg) (trend_score ts)
  && Qltb (scam_risk ts) (SCAM_RISK_MAX cfg).

(** The body of [for token in tokens]. *)
Definition consider_token (trends : gmap string Q) (token : Candidate)
    : M unit :=
  let token_address := c_address token in
  let name := default "Unknown" (c_name token) in
  analyzed <- analyze_token token_address name ;;
  match analyzed with
  | Some token_state =>
      let token_state :=
        set_trend_score (default 0%Q (trends !! token_address)) token_state in
      if buy_gates token_state
      then execute_buy token_state (BUY_AMOUNT_SOL cfg) ;;; ret tt
      else ret tt
  | None => ret tt
  end.

(** The [TokenState] rebuilt from a selected row. *)
Definition state_of_row (row : Row) : TokenState :=
  update_holdings (r_buy_price row) (r_holdings row)
    (TokenState_init (r_token_address row) (r_name row) (r_decimals row)).

(** The price probe of a held position: the test swap of 0.001 tokens
    and the profit multiplier derived from it.  [None] stands for
    [continue] (no route data, or nothing received). *)
Definition price_probe (row : Row) : M (option Q) :=
  route <- get_swap_route (r_token_address row) (SOL_ADDRESS cfg)
             (py_int (0.001 * pow10 (r_decimals row))) ;;
  match route with
  | Some d =>
      sol_received <- lift (out_amount_in_sol d) ;;
      if Qeqb sol_received 0 then ret None
      else
        let current_price := (sol_received / 0.001)%Q in
        if Qeqb (r_buy_price row) 0 then raise ZeroDivisionError
        else ret (Some (current_price / r_buy_price row)%Q)
  | None => ret None
  end.

(** A statement on the open connection; [conn] is the table as the
    connection sees it, uncommitted changes included. *)
Definition sql_execute (conn : list Row) : M (list Row) :=
  ok <- ask (sqlite_ok env) ;;
  if ok then ret conn else raise DatabaseError.

(** The banding of one position. *)
Definition sell_by_band (row : Row) (profit_multiplier : Q)
    (conn : list Row) : M (list Row) :=
  let token_state := state_of_row row in
  if Qleb (PROFIT_MULTIPLIER_MAX cfg) profit_multiplier then
    execute_sell token_state (holdings token_state) ;;;
    sql_execute (update_holdings_where 0 (r_token_address row) conn)
  else if Qleb (PROFIT_MULTIPLIER_MIN cfg) profit_multiplier then
    let amount_to_sell := (holdings token_state * SELL_PERCENTAGE cfg)%Q in
    execute_sell token_state amount_to_sell ;;;
    sql_execute (update_holdings_where
                   (holdings token_state - amount_to_sell)
                   (r_token_address row) conn)
  else ret conn.

(** The body of [for row in rows]. *)
Definition sell_row (row : Row) (conn : list Row) : M (list Row) :=
  probe <- price_probe row ;;
  match probe with
  | Some profit_multiplier => sell_by_band row profit_multiplier conn
  | None => ret conn
  end.

Fixpoint sell_rows (rows : list Row) (conn : list Row) : M (list Row) :=
  match rows with
  | [] => ret conn
  | row :: rows' => conn' <- sell_row row conn ;; sell_rows rows' conn'
  end.

(** The sell phase: one connection, one commit after the last row.  An
    exception leaves the block before the commit, and the connection is
    closed with its changes discarded. *)
Definition sell_phase : M unit :=
  table <- gets tokens_table ;;
  rows <- sql_execute (select_held table) ;;
  conn <- sell_rows rows table ;;
  committed <- sql_execute conn ;;
  modify (set_tokens_table committed).

(** The body of [while not shutdown_event.is_set()], up to the sleep. *)
Definition iteration : M unit :=
  try_except (
    tokens <- fetch_new_tokens ;;
    trends <- fetch_market_trends ;;
    for_each (consider_token trends) tokens ;;;
    sell_phase)
    (fun _ => ret tt).

(** The credential check made before the loop is entered; [false]
    makes [monitor_and_trade] return. *)
Definition obtain_credential_at_startup : M bool :=
  key <- gets API_KEY_RUGCHECK ;;
  if truthy key then ret true
  else
    tok <- get_rugcheck_api_token ;;
    modify (set_api_key (Some tok)) ;;;
    ret (truthy (Some tok)).
End Program.

(** ** Vocabulary of the statements *)

(** [frames I R Q m]: started in a state satisfying [I], the run of [m]
    relates its initial and final state by [R] and emits only events
    satisfying [Q], whether it returns or raises. *)
Definition frames {A} (I : St -> Prop) (R : St -> St -> Prop)
    (Q : Event -> Prop) (m : M A) : Prop :=
  forall st r st' evs,
    I st -> m st = (r, st', evs) -> R st st' /\ Forall Q evs.

(** The relations [frames] is used with: a preorder on states that
    keeps the invariant and does not look at the interaction counter. *)
Class Frame (I : St -> Prop) (R : St -> St -> Prop) : Prop := {
  frame_refl : forall st, R st st;
  frame_trans : forall st1 st2 st3, R st1 st2 -> R st2 st3 -> R st1 st3;
  frame_stable : forall st st', I st -> R st st' -> I st';
  frame_tick : forall st, R st (next_tick st)
}.

Definition any_state (st : St) : Prop := True.

Definition same_table (st st' : St) : Prop :=
  tokens_table st' = tokens_table st.

Definition same_key (st st' : St) : Prop :=
  API_KEY_RUGCHECK st' = API_KEY_RUGCHECK st.

(** Globals and table as before; the cache may differ. *)
Definition same_store (st st' : St) : Prop :=
  tokens_table st' = tokens_table st
  /\ API_KEY_RUGCHECK st' = API_KEY_RUGCHECK st.

Definition has_key (st : St) : Prop :=
  truthy (API_KEY_RUGCHECK st) = true.

(** Neither executor is entered. *)
Definition no_trade (e : Event) : Prop :=
  match e with
  | CallBuy _ _ | CallSell _ _ => False
  | _ => True
  end.

Definition no_login (e : Event) : Prop :=
  match e with
  | CallLogin => False
  | _ => True
  end.

(** A call to a collaborator other than the credential login. *)
Definition plain (e : Event) : Prop := no_trade e /\ no_login e.

(** No login, no buy, and no sell of a token other than [addr]. *)
Definition trades_only (addr : string) (e : Event) : Prop :=
  match e with
  | CallLogin | CallBuy _ _ => False
  | CallSell a _ => a = addr
  | _ => True
  end.

(** No login, no buy, and sells of the listed tokens only. *)
Definition sells_within (addrs : list string) (e : Event) : Prop :=
  match e with
  | CallLogin | CallBuy _ _ => False
  | CallSell a _ => In a addrs
  | _ => True
  end.

Definition keys (table : list Row) : list string :=
  List.map r_token_address table.

(** The quantity persisted for a token. *)
Definition persisted_holdings (addr : string) (st : St) : option Q :=
  option_map r_holdings (row_of addr (tokens_table st)).

Section Statements.
Variable env : Env.
Variable cfg : Settings.

(** A buy attempt that reaches Confirmed: the route is quoted with
    route data [d], the transaction is signed, submitted and found
    confirmed; [st3] is the state at that point. *)
Definition buy_reaches_confirmed (ts : TokenState) (amount_in_sol : Q)
    (st : St) (d : RouteData) (st3 : St) : Prop :=
  exists st1 ev1 rt signed_tx st2 ev2 tx_hash ev3,
    get_swap_route env (SOL_ADDRESS cfg) (token_address ts)
      (py_int (amount_in_sol * inject_Z (10 ^ 9))) st = (Ok (Some d), st1, ev1)
    /\ raw_tx d = Some rt
    /\ sign_swap env rt = Ok signed_tx
    /\ submit_transaction env signed_tx st1 = (Ok (Some tx_hash), st2, ev2)
    /\ confirm_transaction env tx_hash st2 = (Ok true, st3, ev3).

(** The sell phase started in [st] comes to the held position [row]:
    the rows selected before it have been processed without an
    exception, leaving the connection with table [conn] and the
    process in state [st1]. *)
Definition sell_phase_reaches (st : St) (row : Row) (conn : list Row)
    (st1 : St) : Prop :=
  exists pre post ev1,
    select_held (tokens_table st) = pre ++ row :: post
    /\ sell_rows env cfg pre (tokens_table st) (next_tick st)
       = (Ok conn, st1, ev1).
End Statements.

(** The replacement of a position as the claim words it: every
    successful buy of a token that already has a row leaves the row
    with the effective price and the output quantity of this trade. *)
Definition buy_replaces_row_as_stated : Prop :=
  forall (env : Env) (cfg : Settings) (ts : TokenState) (amount_in_sol : Q)
         (st : St) (d : RouteData) (st3 : St) (out : Z) (old : Row)
         (st' : St) (evs : list Event),
    buy_reaches_confirmed env cfg ts amount_in_sol st d st3 ->
    int_out_amount d = Ok out ->
    out <> 0%Z ->
    row_of (token_address ts) (tokens_table st) = Some old ->
    execute_buy env cfg ts amount_in_sol st = (Ok true, st', evs) ->
    let quantity := (inject_Z out / pow10 (decimals ts))%Q in
    let price := (amount_in_sol / quantity)%Q in
    exists row,
      row_of (token_address ts) (tokens_table st') = Some row
      /\ r_buy_price row = price
      /\ r_holdings row = quantity.

(** The credential policy as the specification words it.  The middle
    part promises a refresh when a request made with the credential
    fails: a new credential is fetched then, or the failed one is at
    least dropped so that the next check fetches one. *)
Definition credential_policy_as_stated : Prop :=
  forall (env : Env) (addr : string) (st : St) (r : Res bool) (st' : St)
         (evs : list Event),
    validate_token_rugcheck env addr st = (r, st', evs) ->
    (truthy (API_KEY_RUGCHECK st) = false -> logins_of evs = 1%nat)
    /\ (truthy (API_KEY_RUGCHECK st) = true ->
        (exists e, r = Raise e) ->
        logins_of evs <> 0%nat \/ truthy (API_KEY_RUGCHECK st') = false)
    /\ (truthy (API_KEY_RUGCHECK st) = true ->
        (exists b, r = Ok b) ->
        API_KEY_RUGCHECK st' = API_KEY_RUGCHECK st /\ logins_of evs = 0%nat).

(** ** Scenarios *)

(** A held position of a six-decimal token. *)
Definition position (addr : string) (price qty : Q) : Row :=
  mkRow addr addr 0 0 0 0 0 price qty 6 0.

Definition position_A : Row := position "A" 1 100.
Definition position_B : Row := position "B" 1 5.

Definition route_paying (lamports : Z) : Route :=
  Some (mkRouteData (Some (RawTxObj (Some "tx"))) (Some (JInt lamports))).

(** Every swap of token "A" is quoted, signed, submitted and confirmed;
    the route request for token "B" times out. *)
Definition env_B_times_out : Env := {|
  time_time := fun _ => 0%Q;
  tokens_endpoint := fun _ => Response [];
  analytics_endpoint := fun _ _ => Response None;
  trends_endpoint := fun _ => Response None;
  rugcheck_endpoint := fun _ _ _ => Response None;
  login_endpoint := fun _ => Response None;
  swap_route_endpoint := fun _ token_in _ _ =>
    if String.eqb token_in "B" then HttpOtherError
    else Response (route_paying 3000000);
  submit_endpoint := fun _ _ => Response (Some "hash");
  get_transaction := fun _ _ => TxFound None;
  get_mint_info := fun _ _ => None;
  sign_transaction := fun _ => Some "signed";
  sqlite_ok := fun _ => true
|}.

(** The probe of 1000 raw units is quoted at three times the cost
    basis; no route is offered for any other amount. *)
Definition env_no_sell_route : Env := {|
  time_time := fun _ => 0%Q;
  tokens_endpoint := fun _ => Response [];
  analytics_endpoint := fun _ _ => Response None;
  trends_endpoint := fun _ => Response None;
  rugcheck_endpoint := fun _ _ _ => Response None;
  login_endpoint := fun _ => Response None;
  swap_route_endpoint := fun _ _ _ amount =>
    if (amount =? 1000)%Z then Response (route_paying 3000000)
    else Response None;
  submit_endpoint := fun _ _ => Response None;
  get_transaction := fun _ _ => TxAbsent;
  get_mint_info := fun _ _ => None;
  sign_transaction := fun _ => None;
  sqlite_ok := fun _ => true
|}.

Definition holding (table : list Row) : St :=
  mkSt (Some "key") ∅ ∅ table 0.

(** The reputation service rejects every request. *)
Definition env_rugcheck_rejects : Env := {|
  time_time := fun _ => 0%Q;
  tokens_endpoint := fun _ => Response [];
  analytics_endpoint := fun _ _ => Response None;
  trends_endpoint := fun _ => Response None;
  rugcheck_endpoint := fun _ _ _ => HttpClientError;
  login_endpoint := fun _ => Response (Some "fresh");
  swap_route_endpoint := fun _ _ _ _ => Response None;
  submit_endpoint := fun _ _ => Response None;
  get_transaction := fun _ _ => TxAbsent;
  get_mint_info := fun _ _ => None;
  sign_transaction := fun _ => None;
  sqlite_ok := fun _ => true
|}.

(** The scenario of the specification: analytics that trigger no risk
    factor, the reputation service answering "good", every swap quoted,
    submitted and confirmed. *)
Definition analytics_A : TokenAnalytics := mkAnalytics 5000 1000 200 10 0.

Definition env_good_token (lamports_out : Z) : Env := {|
  time_time := fun t => inject_Z (Z.of_nat t);
  tokens_endpoint := fun _ => Response [mkCandidate "A" (Some "Token A")];
  analytics_endpoint := fun _ _ => Response (Some analytics_A);
  trends_endpoint := fun _ =>
    Response (Some [mkTrendItem (Some "A") (Some (JNumber 0.8))]);
  rugcheck_endpoint := fun _ _ _ => Response (Some "Good");
  login_endpoint := fun _ => Response (Some "fresh");
  swap_route_endpoint := fun _ _ _ _ => Response (route_paying lamports_out);
  submit_endpoint := fun _ _ => Response (Some "hash");
  get_transaction := fun _ _ => TxFound None;
  get_mint_info := fun _ _ => Some 6%Z;
  sign_transaction := fun _ => Some "signed";
  sqlite_ok := fun _ => true
|}.

Definition candidate_A : Candidate := mkCandidate "A" (Some "Token A").

Definition trends_A : gmap string Q := {[ "A" := 0.8%Q ]}.

Definition token_A : TokenState := TokenState_init "A" "Token A" 6.

(** No credential yet. *)
Definition starting (table : list Row) : St := mkSt None ∅ ∅ table 0.

(** The analytics of the scenario with other sniper and insider figures. *)
Definition analytics_with (sniper : Q) (insider : Z) : TokenAnalytics :=
  mkAnalytics 5000 1000 200 sniper insider.

Definition scored (a : TokenAnalytics) (trend : Q) : TokenState :=
  set_trend_score trend
    (update_scam_risk default_settings (update_analytics a token_A)).

(** ** The rest of [monitor_and_trade] *)

Section MainLoop.
Variable env : Env.
Variable cfg : Settings.

(** [CREATE TABLE IF NOT EXISTS tokens ...]: the table of the state is
    the table once it exists; the statement can only fail. *)
Definition setup_database : M unit :=
  ok <- ask (sqlite_ok env) ;;
  if ok then ret tt else raise DatabaseError.

(** [while not shutdown_event.is_set(): ...; await asyncio.sleep(...)].
    [shutdown t] tells whether a signal has set the event by
    interaction [t].  [rounds] bounds the iterations that are followed:
    the result is [true] when the loop was left because the event was
    set and [false] when the bound was reached first. *)
Fixpoint trading_loop (shutdown : nat -> bool) (rounds : nat) : M bool :=
  match rounds with
  | O => ret false
  | S n =>
      stop <- ask shutdown ;;
      if stop then ret true
      else iteration env cfg ;;; trading_loop shutdown n
  end.

(** [monitor_and_trade]: [None] when it returns before the loop
    because no credential could be obtained. *)
Definition monitor_and_trade (shutdown : nat -> bool) (rounds : nat)
    : M (option bool) :=
  setup_database ;;;
  ready <- obtain_credential_at_startup env ;;
  if ready then
    left_by_shutdown <- trading_loop shutdown rounds ;;
    ret (Some left_by_shutdown)
  else ret None.
End MainLoop.

(** ** More vocabulary *)

(** The part of an iteration that comes before the sell phase:
    discovery, trends and the loop over the candidates. *)
Definition buy_phase (env : Env) (cfg : Settings) : M unit :=
  tokens <- fetch_new_tokens env ;;
  trends <- fetch_market_trends env cfg ;;
  for_each (consider_token env cfg trends) tokens.

(** The analytics entries of the cache are as before. *)
Definition same_analytics_cache (st st' : St) : Prop :=
  cache_analytics st' = cache_analytics st.

(** No constraint between two states. *)
Definition unrelated (st st' : St) : Prop := True.

(** Not an entry into the sell executor. *)
Definition no_sell (e : Event) : Prop :=
  match e with
  | CallSell _ _ => False
  | _ => True
  end.

Section MoreStatements.
Variable env : Env.
Variable cfg : Settings.

(** A sell attempt that reaches Confirmed, as [buy_reaches_confirmed]
    for the other direction. *)
Definition sell_reaches_confirmed (ts : TokenState) (amount_to_sell : Q)
    (st : St) (d : RouteData) (st3 : St) : Prop :=
  exists st1 ev1 rt signed_tx st2 ev2 tx_hash ev3,
    get_swap_route env (token_address ts) (SOL_ADDRESS cfg)
      (py_int (amount_to_sell * pow10 (decimals ts))) st
    = (Ok (Some d), st1, ev1)
    /\ raw_tx d = Some rt
    /\ sign_swap env rt = Ok signed_tx
    /\ submit_transaction env signed_tx st1 = (Ok (Some tx_hash), st2, ev2)
    /\ confirm_transaction env tx_hash st2 = (Ok true, st3, ev3).
End MoreStatements.

(** A request to swap out of token [a], or a sell of it. *)
Definition swaps_from (a : string) (e : Event) : Prop :=
  match e with
  | CallSwapRoute token_in _ _ => token_in = a
  | CallSell x _ => x = a
  | _ => False
  end.

(** The table keeps one row per key. *)
Definition keeps_keys_unique (st st' : St) : Prop :=
  List.NoDup (keys (tokens_table st)) -> List.NoDup (keys (tokens_table st')).

(** No cache entry is dropped. *)
Definition keeps_cache_keys (st st' : St) : Prop :=
  dom (cache_analytics st) ⊆ dom (cache_analytics st')
  /\ dom (cache_trends st) ⊆ dom (cache_trends st').

(** The columns of a row other than [holdings]. *)
Definition without_holdings (table : list Row) : list Row :=
  List.map (set_r_holdings 0) table.

(** A position with a zero cost basis. *)
Definition position_Z : Row := position "Z" 0 10.

(** Nothing is ever signalled. *)
Definition never_shutdown (t : nat) : bool := false.

(** The login service hands out no token. *)
Definition env_no_credential : Env := {|
  time_time := fun t => inject_Z (Z.of_nat t);
  tokens_endpoint := fun _ => Response [mkCandidate "A" (Some "Token A")];
  analytics_endpoint := fun _ _ => Response (Some analytics_A);
  trends_endpoint := fun _ =>
    Response (Some [mkTrendItem (Some "A") (Some (JNumber 0.8))]);
  rugcheck_endpoint := fun _ _ _ => Response (Some "Good");
  login_endpoint := fun _ => Response None;
  swap_route_endpoint := fun _ _ _ _ => Response (route_paying 2000000);
  submit_endpoint := fun _ _ => Response (Some "hash");
  get_transaction := fun _ _ => TxFound None;
  get_mint_info := fun _ _ => Some 6%Z;
  sign_transaction := fun _ => Some "signed";
  sqlite_ok := fun _ => true
|}.

(** As [env_good_token], with every database statement failing. *)
Definition env_database_down (lamports_out : Z) : Env := {|
  time_time := fun t => inject_Z (Z.of_nat t);
  tokens_endpoint := fun _ => Response [mkCandidate "A" (Some "Token A")];
  analytics_endpoint := fun _ _ => Response (Some analytics_A);
  trends_endpoint := fun _ =>
    Response (Some [mkTrendItem (Some "A") (Some (JNumber 0.8))]);
  rugcheck_endpoint := fun _ _ _ => Response (Some "Good");
  login_endpoint := fun _ => Response (Some "fresh");
  swap_route_endpoint := fun _ _ _ _ => Response (route_paying lamports_out);
  submit_endpoint := fun _ _ => Response (Some "hash");
  get_transaction := fun _ _ => TxFound None;
  get_mint_info := fun _ _ => Some 6%Z;
  sign_transaction := fun _ => Some "signed";
  sqlite_ok := fun _ => false
|}.

(** The route data of [route_paying]. *)
Definition route_data_paying (lamports : Z) : RouteData :=
  mkRouteData (Some (RawTxObj (Some "tx"))) (Some (JInt lamports)).

(** A state whose cache holds trends stored at time 0. *)
Definition with_cached_trends (m : gmap string Q) : St :=
  mkSt (Some "key") ∅ {[ "trends" := mkEntry m 0%Q ]} [] 0.

(** Three trending items: token "A" twice, token "B" without a score. *)
Definition trending_items : list TrendItem :=
  [ mkTrendItem (Some "A") (Some (JNumber 0.1));
    mkTrendItem (Some "B") None;
    mkTrendItem (Some "A") (Some (JNumber 0.8)) ].

(** A payload whose second item has a null score. *)
Definition trending_items_null_score : list TrendItem :=
  [ mkTrendItem (Some "A") (Some (JNumber 0.1));
    mkTrendItem (Some "B") (Some JNonNumeric);
    mkTrendItem None None ].

(** A route whose output amount is the JSON text ["0"]. *)
Definition route_data_text_zero : RouteData :=
  mkRouteData (Some (RawTxObj (Some "tx"))) (Some (JIntStr 0)).

(** Every swap-route request is answered with [route_data_text_zero];
    everything else succeeds. *)
Definition env_probe_text_zero : Env := {|
  time_time := fun _ => 0%Q;
  tokens_endpoint := fun _ => Response [];
  analytics_endpoint := fun _ _ => Response None;
  trends_endpoint := fun _ => Response None;
  rugcheck_endpoint := fun _ _ _ => Response None;
  login_endpoint := fun _ => Response None;
  swap_route_endpoint := fun _ _ _ _ => Response (Some route_data_text_zero);
  submit_endpoint := fun _ _ => Response (Some "hash");
  get_transaction := fun _ _ => TxFound None;
  get_mint_info := fun _ _ => None;
  sign_transaction := fun _ => Some "signed";
  sqlite_ok := fun _ => true
|}.

(** The profit multiplier of the sell phase in binary64:
    [out_amount / 10**9 / 0.001 / buy_price], for an integer
    [out_amount] below 2^53, given as the double it converts to without
    rounding.  The third operand is the double the literal 0.001
    denotes. *)
Definition profit_multiplier_binary64 (out_amount buy_price : float)
    : float :=
  (out_amount / 1000000000 / 0x1.0624dd2f1a9fcp-10 / buy_price)%float.

(** * Theorems *)

(** ** Comparisons *)

Lemma Qleb_le x y : Qleb x y = true <-> (x <= y)%Q.
Proof. apply Qle_bool_iff. Qed.

Lemma Qltb_lt x y : Qltb x y = true <-> (x < y)%Q.
Proof.
  unfold Qltb. rewrite negb_true_iff. split; intros H.
  - apply Qnot_le_lt. intros Hle. apply Qle_bool_iff in Hle. congruence.
  - destruct (Qle_bool y x) eqn:E; [|reflexivity].
    apply Qle_bool_iff in E. exfalso. exact (Qlt_not_le _ _ H E).
Qed.

Lemma Qltb_ge x y : Qltb x y = false <-> (y <= x)%Q.
Proof.
  unfold Qltb. rewrite negb_false_iff. apply Qle_bool_iff.
Qed.

Lemma Qleb_gt x y : Qleb x y = false <-> (y < x)%Q.
Proof.
  rewrite <- Qltb_lt. unfold Qltb, Qleb. destruct (Qle_bool x y); simpl; intuition congruence.
Qed.



(** C4: for all analytics inputs the scam-risk score written by
    [update_scam_risk] equals the sum of exactly the triggered penalties
    (0.3 when sniper activity > 50, 0.2 when insider trades > 10, 0.4 when
    liquidity < liquidity threshold / 2, 0.1 when tx count < tx-count
    threshold / 2), nothing is normalised or clamped, and the score lies
    in [0, 1]. *)
Theorem scam_risk_is_sum_of_triggered_penalties (cfg : Settings) (ts : TokenState) :
  (scam_risk (update_scam_risk cfg ts) == triggered_penalties cfg ts
   /\ 0 <= scam_risk (update_scam_risk cfg ts) <= 1)%Q.
Proof.
  unfold update_scam_risk, triggered_penalties, risk_factors. cbn.
  destruct (Qltb 50 (sniper_activity ts)),
           (Qltb 10 (inject_Z (insider_trades ts))),
           (Qltb (liquidity ts) (LIQUIDITY_THRESHOLD cfg / 2)),
           (Qltb (inject_Z (tx_count ts)) (inject_Z (TX_COUNT_THRESHOLD cfg) / 2));
    cbn; repeat split; try reflexivity; try (vm_compute; congruence).
Qed.

(** In binary64 the score stays within [0, 1] as well, whichever
    factors fire: no sum of the four weights rounds above 1. *)
Lemma scam_risk_binary64_bounded (sniper insider liq tx : bool) :
  let risk := scam_risk_binary64 [sniper; insider; liq; tx] in
  (0 <=? risk)%float && (risk <=? 1)%float = true.
Proof. destruct sniper, insider, liq, tx; vm_compute; reflexivity. Qed.

Section CacheFacts.
Context {A : Type}.
Variable cfg : Settings.

Lemma get_cached_data_absent now key (cache : gmap string (CacheEntry A)) :
  cache !! key = None -> get_cached_data cfg now key cache = None.
Proof. intros H. unfold get_cached_data. by rewrite H. Qed.

Lemma get_cached_data_other now t0 key key' (d : A) cache :
  key <> key' ->
  get_cached_data cfg now key' (set_cached_data t0 key d cache)
  = get_cached_data cfg now key' cache.
Proof.
  intros Hne. unfold get_cached_data, set_cached_data.
  by rewrite lookup_insert_ne.
Qed.

(** C6: after [set(K, V)] at time [t0], a [get(K)] at a time [t] with
    [t - t0 < TTL] returns [V]; at a time with [t - t0 >= TTL] it
    returns a miss while the entry is still stored unchanged (a read
    never writes); a key that is absent is a miss as well. *)
Theorem cache_round_trip (K : string) (V : A) (t0 t : Q)
    (cache : gmap string (CacheEntry A)) :
  let cache' := set_cached_data t0 K V cache in
  ((t - t0 < inject_Z (CACHE_EXPIRY cfg))%Q ->
     get_cached_data cfg t K cache' = Some V)
  /\ ((inject_Z (CACHE_EXPIRY cfg) <= t - t0)%Q ->
     get_cached_data cfg t K cache' = None
     /\ cache' !! K = Some (mkEntry V t0))
  /\ (forall (c : gmap string (CacheEntry A)) (K' : string),
       c !! K' = None -> get_cached_data cfg t K' c = None).
Proof.
  cbn. unfold get_cached_data, set_cached_data.
  rewrite lookup_insert_eq. cbn. repeat split.
  - intros H. apply Qltb_lt in H. by rewrite H.
  - apply Qltb_ge in H. by rewrite H.
  - intros c K' H. by rewrite H.
Qed.
End CacheFacts.

(** ** Running the monad *)

Section MonadFacts.
Context {A B : Type}.

Lemma bind_ok (m : M A) (f : A -> M B) st a st1 ev1 :
  m st = (Ok a, st1, ev1) ->
  bind m f st = (let '(r, st2, ev2) := f a st1 in (r, st2, ev1 ++ ev2)).
Proof. intros H. unfold bind. by rewrite H. Qed.

Lemma bind_raise (m : M A) (f : A -> M B) st e st1 ev1 :
  m st = (Raise e, st1, ev1) ->
  bind m f st = (Raise e, st1, ev1).
Proof. intros H. unfold bind. by rewrite H. Qed.

Lemma bind_inv (m : M A) (f : A -> M B) st r st' evs :
  bind m f st = (r, st', evs) ->
  (exists e, m st = (Raise e, st', evs) /\ r = Raise e)
  \/ (exists a st1 ev1 ev2,
        m st = (Ok a, st1, ev1) /\ f a st1 = (r, st', ev2)
        /\ evs = ev1 ++ ev2).
Proof.
  unfold bind. destruct (m st) as [[[a|e] st1] ev1].
  - destruct (f a st1) as [[r2 st2] ev2] eqn:E. intros [= <- <- <-].
    right. by exists a, st1, ev1, ev2.
  - intros [= <- <- <-]. left. by exists e.
Qed.

Lemma retry_S n (m : M A) st :
  retry (S n) m st =
  match m st with
  | (Raise ClientError, st1, ev1) =>
      let '(r, st2, ev2) := retry n m st1 in (r, st2, ev1 ++ ev2)
  | other => other
  end.
Proof. reflexivity. Qed.
End MonadFacts.

(** ** Frame conditions *)

Section Frames.
Context (I : St -> Prop) (R : St -> St -> Prop) `{!Frame I R}.
Variable Q : Event -> Prop.

Lemma frames_ret {A} (a : A) : frames I R Q (ret a).
Proof using Frame0. intros st r st' evs _ [= <- <- <-]. split; [apply frame_refl | constructor]. Qed.

Lemma frames_raise {A} e : frames I R Q (@raise A e).
Proof using Frame0. intros st r st' evs _ [= <- <- <-]. split; [apply frame_refl | constructor]. Qed.

Lemma frames_lift {A} (x : Res A) : frames I R Q (lift x).
Proof using Frame0. intros st r st' evs _ [= <- <- <-]. split; [apply frame_refl | constructor]. Qed.

Lemma frames_gets {A} (f : St -> A) : frames I R Q (gets f).
Proof using Frame0. intros st r st' evs _ [= <- <- <-]. split; [apply frame_refl | constructor]. Qed.

Lemma frames_emit e : Q e -> frames I R Q (emit e).
Proof using Frame0.
  intros He st r st' evs _ [= <- <- <-]. split; [apply frame_refl | by repeat constructor].
Qed.

Lemma frames_modify f :
  (forall st, I st -> R st (f st)) -> frames I R Q (modify f).
Proof. intros Hf st r st' evs Hi [= <- <- <-]. split; [auto | constructor]. Qed.

Lemma frames_ask {A} (oracle : nat -> A) : frames I R Q (ask oracle).
Proof using Frame0.
  intros st r st' evs _ [= <- <- <-]. split; [apply frame_tick | constructor].
Qed.

Lemma frames_http {A} (resp : Http A) : frames I R Q (http resp).
Proof using Frame0.
  destruct resp; [apply frames_ret | apply frames_raise ..].
Qed.

Lemma frames_bind {A B} (m : M A) (f : A -> M B) :
  frames I R Q m -> (forall a, frames I R Q (f a)) ->
  frames I R Q (bind m f).
Proof using Frame0.
  intros Hm Hf st r st' evs Hi H.
  apply bind_inv in H as [(e & H & ->)|(a & st1 & ev1 & ev2 & H1 & H2 & ->)].
  - eauto.
  - destruct (Hm _ _ _ _ Hi H1) as [HR1 HQ1].
    destruct (Hf a _ _ _ _ (frame_stable _ _ Hi HR1) H2) as [HR2 HQ2].
    split; [eapply frame_trans; eauto | by apply Forall_app].
Qed.

(** Reading the state: the continuation may rely on what the
    invariant says about the value read. *)
Lemma frames_gets_bind {A B} (g : St -> A) (f : A -> M B) (P : A -> Prop) :
  (forall st, I st -> P (g st)) ->
  (forall a, P a -> frames I R Q (f a)) ->
  frames I R Q (bind (gets g) f).
Proof using Frame0.
  intros Hg Hf st r st' evs Hi. unfold bind, gets.
  destruct (f (g st) st) as [[r2 st2] ev2] eqn:E. intros [= <- <- <-].
  cbn. eapply Hf; eauto.
Qed.

Lemma frames_try_except {A} (m : M A) h :
  frames I R Q m -> (forall e, frames I R Q (h e)) ->
  frames I R Q (try_except m h).
Proof using Frame0.
  intros Hm Hh st r st' evs Hi. unfold try_except.
  destruct (m st) as [[[a|e] st1] ev1] eqn:E.
  - intros [= <- <- <-]. eauto.
  - destruct (h e st1) as [[r2 st2] ev2] eqn:E2. intros [= <- <- <-].
    destruct (Hm _ _ _ _ Hi E) as [HR1 HQ1].
    destruct (Hh e _ _ _ _ (frame_stable _ _ Hi HR1) E2) as [HR2 HQ2].
    split; [eapply frame_trans; eauto | by apply Forall_app].
Qed.

Lemma frames_retry {A} n (m : M A) :
  frames I R Q m -> frames I R Q (retry n m).
Proof using Frame0.
  intros Hm. induction n as [|n IH]; [apply frames_raise|].
  intros st r st' evs Hi. cbn.
  destruct (m st) as [[[a|e] st1] ev1] eqn:E.
  - intros [= <- <- <-]. eauto.
  - destruct (Hm _ _ _ _ Hi E) as [HR1 HQ1].
    destruct e; try (intros [= <- <- <-]; by eauto).
    destruct (retry n m st1) as [[r2 st2] ev2] eqn:E2. intros [= <- <- <-].
    destruct (IH _ _ _ _ (frame_stable _ _ Hi HR1) E2) as [HR2 HQ2].
    split; [eapply frame_trans; eauto | by apply Forall_app].
Qed.

Lemma frames_for_each {A} (f : A -> M unit) l :
  (forall x, frames I R Q (f x)) -> frames I R Q (for_each f l).
Proof using Frame0.
  intros Hf. induction l as [|x l IH]; cbn.
  - apply frames_ret.
  - apply frames_bind; auto.
Qed.
End Frames.

#[export] Instance frame_same_table : Frame any_state same_table.
Proof. split; unfold same_table, any_state; intros; cbn; congruence || done. Qed.

#[export] Instance frame_same_key : Frame has_key same_key.
Proof.
  split; unfold same_key, has_key; intros; cbn; try congruence || done.
Qed.

#[export] Instance frame_same_key_any : Frame any_state same_key.
Proof. split; unfold same_key, any_state; intros; cbn; congruence || done. Qed.

Lemma frames_weaken {A} (I I' : St -> Prop) (R R' : St -> St -> Prop)
    (Q Q' : Event -> Prop) (m : M A) :
  (forall st, I' st -> I st) ->
  (forall st st', R st st' -> R' st st') ->
  (forall e, Q e -> Q' e) ->
  frames I R Q m -> frames I' R' Q' m.
Proof.
  intros HI HR HQ Hm st r st' evs Hi H.
  destruct (Hm _ _ _ _ (HI _ Hi) H) as [H1 H2]. split; [auto|].
  eapply Forall_impl; eauto.
Qed.

#[export] Instance frame_same_store : Frame any_state same_store.
Proof.
  split; unfold same_store, any_state; intros; cbn; intuition congruence.
Qed.

#[export] Instance frame_same_store_key : Frame has_key same_store.
Proof.
  split; unfold same_store, has_key; intros; cbn; intuition congruence.
Qed.

Ltac frame_side :=
  unfold same_store, same_table, same_key, any_state, has_key,
    plain, no_trade, no_login, trades_only, sells_within in *;
  cbn in *; intros;
  repeat match goal with
         | e : Event |- _ => destruct e
         | H : _ /\ _ |- _ => destruct H
         end;
  intuition (congruence || done).

Ltac frame_step :=
  lazymatch goal with
  | |- Frame _ _ => exact _
  | |- frames _ _ _ (ret _) => apply frames_ret
  | |- frames _ _ _ (raise _) => apply frames_raise
  | |- frames _ _ _ (lift _) => apply frames_lift
  | |- frames _ _ _ (gets _) => apply frames_gets
  | |- frames _ _ _ (ask _) => apply frames_ask
  | |- frames _ _ _ (http _) => apply frames_http
  | |- frames _ _ _ (emit _) => apply frames_emit; [|frame_side]
  | |- frames _ _ _ (modify _) => apply frames_modify; frame_side
  | |- frames _ _ _ (bind _ _) => apply frames_bind; [| |intros ?]
  | |- frames _ _ _ (try_except _ _) => apply frames_try_except; [| |intros ?]
  | |- frames _ _ _ (retry _ _) => apply frames_retry
  | |- frames _ _ _ (with_retry _) => apply frames_retry
  | |- frames _ _ _ (for_each _ _) => apply frames_for_each; [|intros ?]
  | |- frames _ _ _ (match ?x with _ => _ end) => destruct x
  end.

(** Close a goal with an established frame, weakened as needed. *)
Ltac frame_from H :=
  eapply frames_weaken; [ | | | apply H]; frame_side.

(** ** Frames of the API functions *)

Section ApiFrames.
Variable env : Env.
Variable cfg : Settings.

Lemma fetch_new_tokens_frame :
  frames any_state same_store plain (fetch_new_tokens env).
Proof. unfold fetch_new_tokens. repeat frame_step. Qed.

Lemma fetch_token_analytics_frame addr :
  frames any_state same_store plain (fetch_token_analytics env cfg addr).
Proof.
  unfold fetch_token_analytics, get_cached_analytics, set_cached_analytics.
  repeat frame_step.
Qed.

Lemma fetch_market_trends_frame :
  frames any_state same_store plain (fetch_market_trends env cfg).
Proof.
  unfold fetch_market_trends, get_cached_trends, set_cached_trends.
  repeat frame_step.
Qed.

Lemma get_token_decimals_frame addr :
  frames any_state same_store plain (get_token_decimals env addr).
Proof. unfold get_token_decimals. repeat frame_step. Qed.

Lemma get_swap_route_frame tin tout amount :
  frames any_state same_store plain (get_swap_route env tin tout amount).
Proof. unfold get_swap_route. repeat frame_step. Qed.

Lemma submit_transaction_frame signed_tx :
  frames any_state same_store plain (submit_transaction env signed_tx).
Proof. unfold submit_transaction. repeat frame_step. Qed.

Lemma confirm_transaction_frame tx_hash :
  frames any_state same_store plain (confirm_transaction env tx_hash).
Proof. unfold confirm_transaction. repeat frame_step. Qed.

Lemma get_rugcheck_api_token_frame :
  frames any_state same_store no_trade (get_rugcheck_api_token env).
Proof. unfold get_rugcheck_api_token. repeat frame_step. Qed.

(** The reputation check leaves the table alone and enters no executor. *)
Lemma validate_token_rugcheck_frame addr :
  frames any_state same_table no_trade (validate_token_rugcheck env addr).
Proof.
  unfold validate_token_rugcheck, validate_token_rugcheck_once.
  repeat frame_step.
  frame_from get_rugcheck_api_token_frame.
Qed.

(** With a credential in place it neither logs in nor touches it. *)
Lemma validate_token_rugcheck_once_keeps_key addr :
  frames has_key same_store plain (validate_token_rugcheck_once env addr).
Proof.
  unfold validate_token_rugcheck_once.
  apply frames_gets_bind with (P := fun key => truthy key = true).
  - exact _.
  - auto.
  - intros key Hkey. rewrite Hkey. repeat frame_step.
Qed.

Lemma validate_token_rugcheck_keeps_key addr :
  frames has_key same_store plain (validate_token_rugcheck env addr).
Proof.
  apply frames_retry; [exact _|]. apply validate_token_rugcheck_once_keeps_key.
Qed.
End ApiFrames.

(** ** Counting executor calls *)

Lemma buys_of_app ev1 ev2 : buys_of (ev1 ++ ev2) = buys_of ev1 ++ buys_of ev2.
Proof.
  induction ev1 as [|e ev1 IH]; [done|]. destruct e; cbn; by rewrite ?IH.
Qed.

Lemma sells_of_app a ev1 ev2 :
  sells_of a (ev1 ++ ev2) = sells_of a ev1 ++ sells_of a ev2.
Proof.
  induction ev1 as [|e ev1 IH]; [done|].
  destruct e; cbn; rewrite ?IH; try done. by destruct (String.eqb _ _).
Qed.

Lemma logins_of_app ev1 ev2 :
  logins_of (ev1 ++ ev2) = (logins_of ev1 + logins_of ev2)%nat.
Proof.
  induction ev1 as [|e ev1 IH]; [done|]. destruct e; cbn; by rewrite ?IH.
Qed.

Lemma buys_of_no_trade evs : Forall no_trade evs -> buys_of evs = [].
Proof. induction 1 as [|e evs He _ IH]; [done|]. by destruct e. Qed.

Lemma sells_of_no_trade a evs : Forall no_trade evs -> sells_of a evs = [].
Proof. induction 1 as [|e evs He _ IH]; [done|]. by destruct e. Qed.

Lemma logins_of_no_login evs : Forall no_login evs -> logins_of evs = O.
Proof. induction 1 as [|e evs He _ IH]; [done|]. by destruct e. Qed.

Lemma plain_no_trade evs : Forall plain evs -> Forall no_trade evs.
Proof. intros H. eapply Forall_impl; [exact H|]. by intros e [? _]. Qed.

Lemma plain_no_login evs : Forall plain evs -> Forall no_login evs.
Proof. intros H. eapply Forall_impl; [exact H|]. by intros e [_ ?]. Qed.

(** ** Frames of the trader, the analyzer and the loop body *)

Section ProgramFrames.
Variable env : Env.
Variable cfg : Settings.

Lemma save_token_to_db_frame ts :
  frames any_state same_key plain (save_token_to_db env ts).
Proof. unfold save_token_to_db. repeat frame_step. Qed.

Lemma analyze_token_frame addr nm :
  frames any_state same_table no_trade (analyze_token env cfg addr nm).
Proof.
  unfold analyze_token. repeat frame_step.
  - frame_from (fetch_token_analytics_frame env cfg addr).
  - frame_from (get_token_decimals_frame env addr).
  - apply validate_token_rugcheck_frame.
Qed.

Lemma execute_buy_entry ts amount st :
  exists r st' evs,
    execute_buy env cfg ts amount st
    = (r, st', CallBuy (token_address ts) amount :: evs)
    /\ Forall plain evs
    /\ API_KEY_RUGCHECK st' = API_KEY_RUGCHECK st.
Proof.
  unfold execute_buy. unfold bind at 1. unfold emit at 1.
  match goal with |- context [try_except ?m ?h st] =>
    assert (Hf : frames any_state same_key plain (try_except m h)) end.
  { repeat frame_step;
      first [ frame_from (get_swap_route_frame env)
            | frame_from (submit_transaction_frame env)
            | frame_from (confirm_transaction_frame env)
            | apply save_token_to_db_frame ]. }
  match goal with |- context [try_except ?m ?h st] =>
    destruct (try_except m h st) as [[r st'] evs] eqn:E end.
  destruct (Hf _ _ _ _ Logic.I E) as [Hk Hq].
  by exists r, st', evs.
Qed.

Lemma execute_buy_never_raises ts amount st :
  exists b, (execute_buy env cfg ts amount st).1.1 = Ok b.
Proof.
  unfold execute_buy. unfold bind at 1. unfold emit at 1.
  match goal with |- context [try_except ?m ?h st] =>
    unfold try_except; destruct (m st) as [[[b|e] st1] ev1] end; cbn; eauto.
Qed.

Lemma execute_sell_frame ts amount :
  frames any_state same_store (trades_only (token_address ts))
    (execute_sell env cfg ts amount).
Proof.
  unfold execute_sell. repeat frame_step;
    first [ frame_from (get_swap_route_frame env)
          | frame_from (submit_transaction_frame env)
          | frame_from (confirm_transaction_frame env) ].
Qed.

Lemma execute_sell_entry ts amount st :
  exists r st' evs,
    execute_sell env cfg ts amount st
    = (r, st', CallSell (token_address ts) amount :: evs)
    /\ Forall plain evs.
Proof.
  unfold execute_sell. unfold bind at 1. unfold emit at 1.
  match goal with |- context [try_except ?m ?h st] =>
    assert (Hf : frames any_state same_store plain (try_except m h)) end.
  { repeat frame_step;
      first [ frame_from (get_swap_route_frame env)
            | frame_from (submit_transaction_frame env)
            | frame_from (confirm_transaction_frame env) ]. }
  match goal with |- context [try_except ?m ?h st] =>
    destruct (try_except m h st) as [[r st'] evs] eqn:E end.
  destruct (Hf _ _ _ _ Logic.I E) as [Hk Hq].
  by exists r, st', evs.
Qed.

Lemma execute_sell_never_raises ts amount st :
  exists b, (execute_sell env cfg ts amount st).1.1 = Ok b.
Proof.
  unfold execute_sell. unfold bind at 1. unfold emit at 1.
  match goal with |- context [try_except ?m ?h st] =>
    unfold try_except; destruct (m st) as [[[b|e] st1] ev1] end; cbn; eauto.
Qed.

Lemma price_probe_frame row :
  frames any_state same_store plain (price_probe env cfg row).
Proof.
  unfold price_probe. repeat frame_step.
  frame_from (get_swap_route_frame env).
Qed.
End ProgramFrames.

(** ** Buy gates *)

Section BuyGates.
Variable env : Env.
Variable cfg : Settings.

Lemma buy_gates_spec ts :
  buy_gates cfg ts = true <->
  (VOLUME_THRESHOLD cfg <= volume ts)%Q
  /\ (LIQUIDITY_THRESHOLD cfg <= liquidity ts)%Q
  /\ (TX_COUNT_THRESHOLD cfg <= tx_count ts)%Z
  /\ (TREND_SCORE_MIN cfg <= trend_score ts)%Q
  /\ (scam_risk ts < SCAM_RISK_MAX cfg)%Q.
Proof.
  unfold buy_gates. rewrite !andb_true_iff, !Qleb_le, Qltb_lt, Z.leb_le.
  tauto.
Qed.

Lemma analyze_token_address addr nm st ts st1 ev1 :
  analyze_token env cfg addr nm st = (Ok (Some ts), st1, ev1) ->
  token_address ts = addr.
Proof.
  unfold analyze_token. intros H.
  apply bind_inv in H as [(e & _ & [=])|(a & s1 & e1 & e2 & _ & H & _)].
  destruct a as [a|]; [|by inversion H].
  apply bind_inv in H as [(e & _ & [=])|(dec & s2 & e3 & e4 & _ & H & _)].
  apply bind_inv in H as [(e & _ & [=])|(good & s3 & e5 & e6 & _ & H & _)].
  destruct good; inversion H. done.
Qed.

(** The loop body enters [execute_buy] exactly when the analysis
    yields a state whose gates hold, and then once, for that token. *)
Lemma consider_token_buys trends token st r st' evs :
  consider_token env cfg trends token st = (r, st', evs) ->
  buys_of evs =
    match (analyze_token env cfg (c_address token)
             (default "Unknown" (c_name token)) st).1.1 with
    | Ok (Some ts) =>
        if buy_gates cfg
             (set_trend_score (default 0%Q (trends !! c_address token)) ts)
        then [c_address token] else []
    | _ => []
    end.
Proof.
  unfold consider_token. intros H.
  destruct (analyze_token env cfg (c_address token)
              (default "Unknown" (c_name token)) st)
    as [[ra st1] ev1] eqn:Ea.
  destruct (analyze_token_frame env cfg _ _ _ _ _ _ Logic.I Ea) as [_ Hq1].
  apply buys_of_no_trade in Hq1. cbn.
  destruct ra as [[ts|]|e].
  - rewrite (bind_ok _ _ _ _ _ _ Ea) in H.
    destruct (buy_gates cfg _) eqn:Eg.
    + destruct (execute_buy_entry env cfg
                  (set_trend_score (default 0%Q (trends !! c_address token)) ts)
                  (BUY_AMOUNT_SOL cfg) st1) as (rb & stb & evb & Eb & Hqb & _).
      unfold bind in H. rewrite Eb in H.
      apply plain_no_trade, buys_of_no_trade in Hqb.
      destruct rb; inversion H; subst; clear H;
        rewrite buys_of_app; cbn; rewrite ?buys_of_app, ?Hq1, ?Hqb;
        by rewrite (analyze_token_address _ _ _ _ _ _ Ea).
    + inversion H; subst. by rewrite buys_of_app, Hq1.
  - rewrite (bind_ok _ _ _ _ _ _ Ea) in H.
    inversion H; subst. by rewrite buys_of_app, Hq1.
  - rewrite (bind_raise _ _ _ _ _ _ Ea) in H. by inversion H; subst.
Qed.

(** C3: for a candidate that survives analytics validation and the
    reputation check ([analyze_token] returns a state [ts]), the loop
    body enters the buy executor if and only if all five gates hold at
    once: volume >= threshold, liquidity >= threshold, tx count >=
    threshold, trend score >= minimum, and scam risk strictly below the
    maximum (a score equal to the maximum excludes the token). *)
Theorem buy_invoked_iff_all_gates (trends : gmap string Q) (token : Candidate)
    (st st1 : St) (ev1 : list Event) (ts : TokenState)
    (r : Res unit) (st' : St) (evs : list Event) :
  analyze_token env cfg (c_address token)
    (default "Unknown" (c_name token)) st = (Ok (Some ts), st1, ev1) ->
  consider_token env cfg trends token st = (r, st', evs) ->
  let trend := default 0%Q (trends !! c_address token) in
  let gates :=
    (VOLUME_THRESHOLD cfg <= volume ts)%Q
    /\ (LIQUIDITY_THRESHOLD cfg <= liquidity ts)%Q
    /\ (TX_COUNT_THRESHOLD cfg <= tx_count ts)%Z
    /\ (TREND_SCORE_MIN cfg <= trend)%Q
    /\ (scam_risk ts < SCAM_RISK_MAX cfg)%Q in
  (buys_of evs = [c_address token] <-> gates)
  /\ (buys_of evs = [] <-> ~ gates).
Proof.
  intros Ha Hc trend gates.
  apply consider_token_buys in Hc. rewrite Ha in Hc. cbn in Hc.
  pose proof (buy_gates_spec (set_trend_score trend ts)) as Hg.
  cbn in Hg. fold trend in Hc. fold gates in Hg.
  destruct (buy_gates cfg (set_trend_score trend ts)); rewrite Hc.
  - split; split; try done.
    + intros _. by apply Hg.
    + intros Hn. exfalso. apply Hn. by apply Hg.
  - assert (~ gates) by (intros Hgt; apply Hg in Hgt; done).
    split; split; done.
Qed.

(** C9: when the candidate's address is absent from the trend mapping
    its trend score is taken as 0, so with a trend-score minimum above 0
    the gates fail for whatever state the analysis produced, and the
    loop body never enters the buy executor for it. *)
Theorem absent_trend_never_buys (trends : gmap string Q) (token : Candidate)
    (st : St) (r : Res unit) (st' : St) (evs : list Event) :
  trends !! c_address token = None ->
  (0 < TREND_SCORE_MIN cfg)%Q ->
  consider_token env cfg trends token st = (r, st', evs) ->
  (forall ts,
     let tested :=
       set_trend_score (default 0%Q (trends !! c_address token)) ts in
     trend_score tested = 0%Q
     /\ Qleb (TREND_SCORE_MIN cfg) (trend_score tested) = false
     /\ buy_gates cfg tested = false)
  /\ buys_of evs = [].
Proof.
  intros Hnone Hmin Hc.
  assert (Hts : forall ts,
     let tested :=
       set_trend_score (default 0%Q (trends !! c_address token)) ts in
     trend_score tested = 0%Q
     /\ Qleb (TREND_SCORE_MIN cfg) (trend_score tested) = false
     /\ buy_gates cfg tested = false).
  { intros ts. rewrite Hnone. cbn. split; [done|].
    assert (Hgate : Qleb (TREND_SCORE_MIN cfg) 0 = false)
      by by apply Qleb_gt.
    split; [exact Hgate|].
    unfold buy_gates. cbn. rewrite Hgate.
    by rewrite andb_false_r. }
  split; [exact Hts|].
  apply consider_token_buys in Hc. rewrite Hc.
  destruct (analyze_token _ _ _ _ _).1.1 as [[ts|]|]; try done.
  by destruct (Hts ts) as (_ & _ & ->).
Qed.
End BuyGates.

(** ** The table *)

Lemma rows_of_insert_or_replace r table :
  rows_of (r_token_address r) (insert_or_replace r table) = [r].
Proof.
  unfold rows_of, insert_or_replace. rewrite List.filter_app. cbn.
  rewrite String.eqb_refl.
  induction table as [|r' table IH]; [done|]. cbn.
  destruct (String.eqb_spec (r_token_address r') (r_token_address r)) as [E|E];
    cbn; [exact IH|].
  destruct (String.eqb_spec (r_token_address r') (r_token_address r)); done.
Qed.

Lemma row_of_insert_or_replace r table :
  row_of (r_token_address r) (insert_or_replace r table) = Some r.
Proof.
  unfold row_of, insert_or_replace.
  induction table as [|r' table IH]; cbn.
  - by rewrite String.eqb_refl.
  - destruct (String.eqb_spec (r_token_address r') (r_token_address r)) as [E|E];
      cbn; [exact IH|].
    destruct (String.eqb_spec (r_token_address r') (r_token_address r)); done.
Qed.

Lemma row_of_insert_or_replace_ne addr r table :
  r_token_address r <> addr ->
  row_of addr (insert_or_replace r table) = row_of addr table.
Proof.
  intros Hne. unfold row_of, insert_or_replace.
  induction table as [|r' table IH]; cbn.
  - by destruct (String.eqb_spec (r_token_address r) addr).
  - destruct (String.eqb_spec (r_token_address r') (r_token_address r)) as [E|E];
      cbn.
    + destruct (String.eqb_spec (r_token_address r') addr); [congruence|done].
    + by destruct (String.eqb_spec (r_token_address r') addr).
Qed.

(** ** Buy execution *)

Section Buy.
Variable env : Env.
Variable cfg : Settings.

Lemma buy_reaches_confirmed_table ts amount st d st3 :
  buy_reaches_confirmed env cfg ts amount st d st3 ->
  tokens_table st3 = tokens_table st.
Proof.
  intros (st1 & ev1 & rt & signed & st2 & ev2 & h & ev3 & E1 & _ & _ & E2 & E3).
  destruct (get_swap_route_frame env _ _ _ _ _ _ _ Logic.I E1) as [[H1 _] _].
  destruct (submit_transaction_frame env _ _ _ _ _ Logic.I E2) as [[H2 _] _].
  destruct (confirm_transaction_frame env _ _ _ _ _ Logic.I E3) as [[H3 _] _].
  congruence.
Qed.

(** C5: a buy whose transaction is confirmed but whose route reports an
    output amount of zero returns failure, and the position store is
    left as it was: no cost basis and no holdings are recorded. *)
Theorem buy_with_zero_output_fails (ts : TokenState) (amount_in_sol : Q)
    (st : St) (d : RouteData) (st3 : St) :
  buy_reaches_confirmed env cfg ts amount_in_sol st d st3 ->
  int_out_amount d = Ok 0%Z ->
  exists evs,
    execute_buy env cfg ts amount_in_sol st = (Ok false, st3, evs)
    /\ tokens_table st3 = tokens_table st.
Proof.
  intros Hc Hout.
  pose proof (buy_reaches_confirmed_table _ _ _ _ _ Hc) as Ht.
  destruct Hc as (st1 & ev1 & rt & signed & st2 & ev2 & h & ev3
                  & E1 & Hraw & Hsign & E2 & E3).
  eexists. split; [|exact Ht].
  unfold execute_buy, try_except, bind, emit, lift.
  rewrite E1, Hraw, Hsign, E2, E3, Hout. cbn. reflexivity.
Qed.

(** C10: a successful buy of a token that already has a row, whose
    database write goes through, replaces the row wholesale.  The
    stored cost basis is the effective price of this trade alone, the
    stored holdings are its output quantity alone; the quantity held
    before and the earlier cost basis are discarded, and the key
    still has exactly one row. *)
Theorem buy_replaces_existing_row (ts : TokenState) (amount_in_sol : Q)
    (st : St) (d : RouteData) (st3 : St) (out : Z) (old : Row) :
  buy_reaches_confirmed env cfg ts amount_in_sol st d st3 ->
  int_out_amount d = Ok out ->
  out <> 0%Z ->
  sqlite_ok env (tick st3) = true ->
  row_of (token_address ts) (tokens_table st) = Some old ->
  let quantity := (inject_Z out / pow10 (decimals ts))%Q in
  let price := (amount_in_sol / quantity)%Q in
  let new_row :=
    row_of_state (update_holdings price quantity ts)
      (time_time env (S (tick st3))) in
  exists st' evs,
    execute_buy env cfg ts amount_in_sol st = (Ok true, st', evs)
    /\ tokens_table st' = insert_or_replace new_row (tokens_table st)
    /\ row_of (token_address ts) (tokens_table st') = Some new_row
    /\ rows_of (token_address ts) (tokens_table st') = [new_row]
    /\ r_buy_price new_row = price
    /\ r_holdings new_row = quantity.
Proof.
  intros Hc Hout Hnz Hdb Hold quantity price new_row.
  pose proof (buy_reaches_confirmed_table _ _ _ _ _ Hc) as Ht.
  destruct Hc as (st1 & ev1 & rt & signed & st2 & ev2 & h & ev3
                  & E1 & Hraw & Hsign & E2 & E3).
  apply Z.eqb_neq in Hnz.
  eexists _, _. split.
  - unfold execute_buy, try_except, bind, emit, lift.
    rewrite E1, Hraw, Hsign, E2, E3, Hout. cbn. rewrite Hnz.
    unfold save_token_to_db, bind, ask, modify. rewrite Hdb. cbn.
    reflexivity.
  - cbn. rewrite Ht. fold quantity price new_row.
    repeat split.
    + apply (row_of_insert_or_replace new_row).
    + apply (rows_of_insert_or_replace new_row).
Qed.
End Buy.

Section BuyOnlyWhenConfirmed.
Variable env : Env.
Variable cfg : Settings.

(** The buy side of "no partial application": [execute_buy] changes the
    table only on the path through Confirmed with a non-zero output. *)
Lemma execute_buy_writes_only_when_confirmed ts amount st r st' evs :
  execute_buy env cfg ts amount st = (r, st', evs) ->
  tokens_table st' <> tokens_table st ->
  exists d st3 out,
    buy_reaches_confirmed env cfg ts amount st d st3
    /\ int_out_amount d = Ok out /\ out <> 0%Z /\ r = Ok true.
Proof.
  unfold execute_buy, try_except, bind, emit, lift.
  destruct (get_swap_route env _ _ _ st) as [[[route|e1] st1] ev1] eqn:E1;
    destruct (get_swap_route_frame env _ _ _ _ _ _ _ Logic.I E1) as [[H1 _] _];
    [|intros [= <- <- <-] Hne; congruence].
  destruct route as [d|]; [|intros [= <- <- <-] Hne; congruence].
  destruct (raw_tx d) as [rt|] eqn:Hraw; [|intros [= <- <- <-] Hne; congruence].
  destruct (sign_swap env rt) as [signed|e2] eqn:Hsign;
    [|intros [= <- <- <-] Hne; congruence].
  destruct (submit_transaction env signed st1) as [[[res|e3] st2] ev2] eqn:E2;
    destruct (submit_transaction_frame env _ _ _ _ _ Logic.I E2) as [[H2 _] _];
    [|intros [= <- <- <-] Hne; congruence].
  destruct res as [h|]; [|intros [= <- <- <-] Hne; congruence].
  destruct (confirm_transaction env h st2) as [[[ok|e4] st3] ev3] eqn:E3;
    destruct (confirm_transaction_frame env _ _ _ _ _ Logic.I E3) as [[H3 _] _];
    [|intros [= <- <- <-] Hne; congruence].
  destruct ok; [|intros [= <- <- <-] Hne; congruence].
  destruct (int_out_amount d) as [out|e5] eqn:Hout;
    [|intros [= <- <- <-] Hne; congruence].
  destruct (out =? 0)%Z eqn:Hz; [intros [= <- <- <-] Hne; congruence|].
  apply Z.eqb_neq in Hz.
  destruct (save_token_to_db env _ st3) as [[[[]|e6] st4] ev4] eqn:E4.
  - intros [= <- <- <-] _. exists d, st3, out. repeat split; try done.
    by exists st1, ev1, rt, signed, st2, ev2, h, ev3.
  - exfalso. revert E4. unfold save_token_to_db, bind, ask, modify.
    by destruct (sqlite_ok env (tick st3)).
Qed.
End BuyOnlyWhenConfirmed.

(** ** The sell phase *)

Lemma row_of_update_holdings_where h a conn :
  row_of a (update_holdings_where h a conn)
  = option_map (set_r_holdings h) (row_of a conn).
Proof.
  unfold row_of, update_holdings_where.
  induction conn as [|r conn IH]; [done|]. cbn.
  destruct (String.eqb_spec (r_token_address r) a) as [E|E]; cbn.
  - by rewrite E, String.eqb_refl.
  - destruct (String.eqb_spec (r_token_address r) a); done.
Qed.

Lemma row_of_update_holdings_where_ne h a b conn :
  a <> b -> row_of b (update_holdings_where h a conn) = row_of b conn.
Proof.
  intros Hne. unfold row_of, update_holdings_where.
  induction conn as [|r conn IH]; [done|]. cbn.
  destruct (String.eqb_spec (r_token_address r) a) as [E|E]; cbn.
  - destruct (String.eqb_spec (r_token_address r) b); [congruence|done].
  - by destruct (String.eqb_spec (r_token_address r) b).
Qed.

Lemma row_of_unique table r :
  List.NoDup (keys table) -> In r table -> row_of (r_token_address r) table = Some r.
Proof.
  unfold row_of, keys. induction table as [|r' table IH]; [done|].
  cbn. intros Hnd [->|Hin].
  - by rewrite String.eqb_refl.
  - inversion Hnd as [|? ? Hnotin Hnd']; subst.
    destruct (String.eqb_spec (r_token_address r') (r_token_address r)) as [E|E];
      [|auto].
    exfalso. apply Hnotin. rewrite E. by apply List.in_map.
Qed.

Lemma keys_filter_incl f table a :
  In a (keys (List.filter f table)) -> In a (keys table).
Proof.
  unfold keys. rewrite !List.in_map_iff. intros (r & <- & Hin).
  apply List.filter_In in Hin as [Hin _]. eauto.
Qed.

Lemma NoDup_keys_filter f table :
  List.NoDup (keys table) -> List.NoDup (keys (List.filter f table)).
Proof.
  induction table as [|r table IH]; [done|]. cbn.
  intros Hnd. inversion Hnd as [|? ? Hnotin Hnd']; subst.
  destruct (f r); cbn; [|auto].
  constructor; [|auto]. intros Hin. apply Hnotin.
  by apply keys_filter_incl in Hin.
Qed.

Lemma held_row_is_unique table pre row post :
  List.NoDup (keys table) ->
  select_held table = pre ++ row :: post ->
  ~ In (r_token_address row) (keys pre)
  /\ ~ In (r_token_address row) (keys post)
  /\ row_of (r_token_address row) table = Some row
  /\ (0 < r_holdings row)%Q.
Proof.
  intros Hnd Hsel.
  pose proof (NoDup_keys_filter (fun r => Qltb 0 (r_holdings r)) _ Hnd) as Hnd'.
  fold (select_held table) in Hnd'. rewrite Hsel in Hnd'.
  unfold keys in Hnd'. rewrite List.map_app in Hnd'. cbn in Hnd'.
  apply List.NoDup_remove_2 in Hnd'.
  assert (Hin : In row (select_held table))
    by (rewrite Hsel; apply List.in_or_app; right; by left).
  apply List.filter_In in Hin as [Hin Hpos].
  repeat split.
  - intros H. apply Hnd'. apply List.in_or_app. by left.
  - intros H. apply Hnd'. apply List.in_or_app. by right.
  - by apply row_of_unique.
  - by apply Qltb_lt.
Qed.

Section SellPhase.
Variable env : Env.
Variable cfg : Settings.

Lemma sell_row_frame row conn :
  frames any_state same_store (trades_only (r_token_address row))
    (sell_row env cfg row conn).
Proof.
  unfold sell_row, sell_by_band, sql_execute. repeat frame_step;
    first [ frame_from (price_probe_frame env cfg row)
          | apply (execute_sell_frame env cfg (state_of_row row)) ].
Qed.

Lemma sell_rows_frame rows conn :
  frames any_state same_store (sells_within (keys rows))
    (sell_rows env cfg rows conn).
Proof.
  revert conn. induction rows as [|row rows IH]; intros conn; cbn.
  - repeat frame_step.
  - apply frames_bind; [exact _| |intros conn'].
    + frame_from (sell_row_frame row conn).
    + eapply frames_weaken; [ | | |apply IH]; frame_side.
Qed.

Lemma sells_of_sells_within a addrs evs :
  ~ In a addrs -> Forall (sells_within addrs) evs -> sells_of a evs = [].
Proof.
  intros Hnot. induction 1 as [|e evs He _ IH]; [done|].
  destruct e; cbn in *; try done.
  destruct (String.eqb_spec addr a); [congruence|auto].
Qed.

(** What a row's turn can do to the connection. *)
Lemma sell_row_conn row conn st conn' st' evs :
  sell_row env cfg row conn st = (Ok conn', st', evs) ->
  conn' = conn
  \/ exists h, conn' = update_holdings_where h (r_token_address row) conn.
Proof.
  unfold sell_row. intros H.
  apply bind_inv in H as [(e & _ & [=])|(pr & s1 & e1 & e2 & _ & H & _)].
  destruct pr as [pm|]; [|inversion H; by left].
  unfold sell_by_band, sql_execute in H.
  destruct (Qleb (PROFIT_MULTIPLIER_MAX cfg) pm);
    [|destruct (Qleb (PROFIT_MULTIPLIER_MIN cfg) pm)];
    [| |inversion H; by left].
  all: apply bind_inv in H as [(e & _ & [=])|(b & s2 & e3 & e4 & _ & H & _)];
    apply bind_inv in H as [(e & _ & [=])|(ok & s3 & e5 & e6 & _ & H & _)];
    destruct ok; inversion H; right; eauto.
Qed.

(** Rows of other tokens leave a token's row alone. *)
Lemma sell_rows_other rows a conn st conn' st' evs :
  ~ In a (keys rows) ->
  sell_rows env cfg rows conn st = (Ok conn', st', evs) ->
  row_of a conn' = row_of a conn.
Proof.
  revert conn st evs. induction rows as [|row rows IH]; intros conn st evs Hnot H.
  - by inversion H.
  - cbn in H, Hnot.
    apply bind_inv in H as [(e & _ & [=])|(c1 & s1 & e1 & e2 & H1 & H2 & _)].
    apply IH in H2; [|tauto]. rewrite H2.
    apply sell_row_conn in H1 as [->|[h ->]]; [done|].
    apply row_of_update_holdings_where_ne. tauto.
Qed.

Lemma sell_rows_app pre post conn st :
  sell_rows env cfg (pre ++ post) conn st
  = (conn1 <- sell_rows env cfg pre conn ;; sell_rows env cfg post conn1) st.
Proof.
  revert conn st. induction pre as [|row pre IH]; intros conn st; cbn.
  - unfold bind, ret. by destruct (sell_rows env cfg post conn st) as [[? ?] ?].
  - unfold bind. destruct (sell_row env cfg row conn st) as [[[c1|e] s1] e1]; [|done].
    rewrite IH. unfold bind.
    destruct (sell_rows env cfg pre c1 s1) as [[[c2|e] s2] e2]; [|done].
    destruct (sell_rows env cfg post c2 s2) as [[r3 s3] e3].
    by rewrite app_assoc.
Qed.

(** The banding of one position, by band. *)
Lemma sell_by_band_spec row pm conn st r st' evs :
  sell_by_band env cfg row pm conn st = (r, st', evs) ->
  let a := r_token_address row in
  let h := r_holdings row in
  ((PROFIT_MULTIPLIER_MAX cfg <= pm)%Q ->
     sells_of a evs = [h]
     /\ forall c, r = Ok c -> c = update_holdings_where 0 a conn)
  /\ ((pm < PROFIT_MULTIPLIER_MAX cfg)%Q ->
      (PROFIT_MULTIPLIER_MIN cfg <= pm)%Q ->
     sells_of a evs = [(h * SELL_PERCENTAGE cfg)%Q]
     /\ forall c, r = Ok c ->
          c = update_holdings_where (h - h * SELL_PERCENTAGE cfg)%Q a conn)
  /\ ((pm < PROFIT_MULTIPLIER_MAX cfg)%Q ->
      (pm < PROFIT_MULTIPLIER_MIN cfg)%Q ->
     evs = [] /\ r = Ok conn).
Proof.
  intros H a h. unfold sell_by_band, sql_execute in H. cbn in H.
  fold a h in H.
  destruct (Qleb (PROFIT_MULTIPLIER_MAX cfg) pm) eqn:Emax;
    [|destruct (Qleb (PROFIT_MULTIPLIER_MIN cfg) pm) eqn:Emin].
  - apply Qleb_le in Emax.
    split; [|split; intros Hlt; exfalso; exact (Qlt_not_le _ _ Hlt Emax)].
    intros _.
    destruct (execute_sell_entry env cfg (state_of_row row) h st)
      as (rs & s1 & es & Es & Hq).
    destruct (execute_sell_never_raises env cfg (state_of_row row) h st) as [b Hb].
    rewrite Es in Hb. cbn in Hb. subst rs.
    unfold bind in H. rewrite Es in H. unfold ask in H.
    apply plain_no_trade in Hq. apply (sells_of_no_trade a) in Hq.
    destruct (sqlite_ok env (tick s1)); inversion H; subst; cbn;
      fold a; rewrite String.eqb_refl, sells_of_app, Hq; split; try done.
    by intros c [= <-].
  - apply Qleb_gt in Emax. apply Qleb_le in Emin.
    split; [intros Hle; exfalso; exact (Qlt_not_le _ _ Emax Hle)|].
    split; [|intros _ Hlt; exfalso; exact (Qlt_not_le _ _ Hlt Emin)].
    intros _ _.
    destruct (execute_sell_entry env cfg (state_of_row row)
                (h * SELL_PERCENTAGE cfg)%Q st) as (rs & s1 & es & Es & Hq).
    destruct (execute_sell_never_raises env cfg (state_of_row row)
                (h * SELL_PERCENTAGE cfg)%Q st) as [b Hb].
    rewrite Es in Hb. cbn in Hb. subst rs.
    unfold bind in H. rewrite Es in H. unfold ask in H.
    apply plain_no_trade in Hq. apply (sells_of_no_trade a) in Hq.
    destruct (sqlite_ok env (tick s1)); inversion H; subst; cbn;
      fold a; rewrite String.eqb_refl, sells_of_app, Hq; split; try done.
    by intros c [= <-].
  - apply Qleb_gt in Emax. apply Qleb_gt in Emin.
    split; [intros Hle; exfalso; exact (Qlt_not_le _ _ Emax Hle)|].
    split; [intros _ Hle; exfalso; exact (Qlt_not_le _ _ Emin Hle)|].
    intros _ _. by inversion H.
Qed.

(** A sell phase that returns has run every selected row and committed
    the connection's table. *)
Lemma sell_phase_returns st st' evs :
  sell_phase env cfg st = (Ok tt, st', evs) ->
  exists st2,
    sell_rows env cfg (select_held (tokens_table st)) (tokens_table st)
      (next_tick st) = (Ok (tokens_table st'), st2, evs).
Proof.
  unfold sell_phase, sql_execute. intros H.
  apply bind_inv in H as [(e & _ & [=])|(t & s1 & e1 & e2 & H1 & H & ->)].
  inversion H1; subst; clear H1.
  apply bind_inv in H as [(e & _ & [=])|(rows & s2 & e3 & e4 & H1 & H & ->)].
  unfold bind, ask in H1.
  destruct (sqlite_ok env (tick s1)); inversion H1; subst; clear H1.
  apply bind_inv in H as [(e & _ & [=])|(conn & s3 & e5 & e6 & H1 & H & ->)].
  apply bind_inv in H as [(e & _ & [=])|(c & s4 & e7 & e8 & H2 & H & ->)].
  unfold bind, ask in H2.
  destruct (sqlite_ok env (tick s3)); inversion H2; subst; clear H2.
  inversion H; subst; clear H. cbn.
  exists s3. by rewrite !app_nil_r.
Qed.

(** A sell phase that raises leaves the table as it was. *)
Lemma sell_phase_raises st e st' evs :
  sell_phase env cfg st = (Raise e, st', evs) ->
  tokens_table st' = tokens_table st.
Proof.
  unfold sell_phase, sql_execute. intros H.
  apply bind_inv in H as [(e0 & H & _)|(t & s1 & e1 & e2 & H1 & H & ->)];
    [by inversion H|].
  inversion H1; subst; clear H1.
  apply bind_inv in H as [(e0 & H & _)|(rows & s2 & e3 & e4 & H1 & H & ->)].
  { unfold bind, ask in H. by destruct (sqlite_ok env (tick s1)); inversion H. }
  unfold bind, ask in H1.
  destruct (sqlite_ok env (tick s1)); inversion H1; subst; clear H1.
  apply bind_inv in H as [(e0 & H & _)|(conn & s3 & e5 & e6 & H1 & H & ->)].
  { by destruct (sell_rows_frame _ _ _ _ _ _ Logic.I H) as [[-> _] _]. }
  destruct (sell_rows_frame _ _ _ _ _ _ Logic.I H1) as [[Ht _] _].
  apply bind_inv in H as [(e0 & H & _)|(c & s4 & e7 & e8 & H2 & H & ->)].
  { unfold bind, ask in H.
    by destruct (sqlite_ok env (tick s3)); inversion H; subst. }
  inversion H.
Qed.
End SellPhase.

Section SellBanding.
Variable env : Env.
Variable cfg : Settings.

(** A probe that comes back with route data whose output amount is
    absent or is a number, and zero: the loop body for that position
    returns at once, with no exception, the connection and the table
    as before, and no executor entered. *)
Theorem zero_probe_skips_position (row : Row) (conn : list Row) (st : St)
    (d : RouteData) (st1 : St) (ev1 : list Event) (sol_received : Q) :
  get_swap_route env (r_token_address row) (SOL_ADDRESS cfg)
    (py_int (0.001 * pow10 (r_decimals row))) st = (Ok (Some d), st1, ev1) ->
  out_amount_in_sol d = Ok sol_received ->
  (sol_received == 0)%Q ->
  sell_row env cfg row conn st = (Ok conn, st1, ev1)
  /\ tokens_table st1 = tokens_table st
  /\ Forall no_trade ev1
  /\ sells_of (r_token_address row) ev1 = [].
Proof.
  intros Hroute Hout Hzero.
  destruct (get_swap_route_frame env _ _ _ _ _ _ _ Logic.I Hroute)
    as [[Ht _] Hq].
  apply plain_no_trade in Hq.
  repeat split; [|done|done|by apply sells_of_no_trade].
  unfold sell_row, price_probe, bind, lift.
  rewrite Hroute, Hout.
  assert (Qeqb sol_received 0 = true) as -> by by apply Qeq_bool_iff.
  cbn. by rewrite !app_nil_r.
Qed.

(** The banding in a phase that reaches its commit, amounts read as
    rationals.  With the bands ordered, a persisted position with
    quantity > 0 whose price probe succeeds with profit multiplier
    [pm] ends as follows.
    [pm >= upper band]: all holdings are passed to the sell executor
    and the persisted quantity is 0.
    [lower band <= pm < upper band]: holdings times the sell fraction
    are passed to it and the persisted quantity is the old one minus
    that amount.
    [pm < lower band]: the sell executor is not entered for the token
    and the persisted quantity is unchanged. *)
Theorem sell_banding_when_phase_commits (st : St) (row : Row)
    (conn : list Row) (st1 : St) (pm : Q) (st2 : St) (ev2 : list Event)
    (st' : St) (evs : list Event) :
  (PROFIT_MULTIPLIER_MIN cfg <= PROFIT_MULTIPLIER_MAX cfg)%Q ->
  List.NoDup (keys (tokens_table st)) ->
  sell_phase_reaches env cfg st row conn st1 ->
  price_probe env cfg row st1 = (Ok (Some pm), st2, ev2) ->
  sell_phase env cfg st = (Ok tt, st', evs) ->
  let a := r_token_address row in
  let h := r_holdings row in
  (0 < h)%Q
  /\ persisted_holdings a st = Some h
  /\ ((PROFIT_MULTIPLIER_MAX cfg <= pm)%Q ->
       sells_of a evs = [h] /\ persisted_holdings a st' = Some 0%Q)
  /\ ((PROFIT_MULTIPLIER_MIN cfg <= pm)%Q ->
      (pm < PROFIT_MULTIPLIER_MAX cfg)%Q ->
       sells_of a evs = [(h * SELL_PERCENTAGE cfg)%Q]
       /\ persisted_holdings a st' = Some (h - h * SELL_PERCENTAGE cfg)%Q)
  /\ ((pm < PROFIT_MULTIPLIER_MIN cfg)%Q ->
       sells_of a evs = [] /\ persisted_holdings a st' = Some h).
Proof.
  intros Hbands Hnd (pre & post & ev1 & Hsel & Hpre) Hprobe Hphase a h.
  destruct (held_row_is_unique _ _ _ _ Hnd Hsel)
    as (Hnpre & Hnpost & Hrow & Hpos).
  fold a in Hnpre, Hnpost, Hrow.
  apply sell_phase_returns in Hphase as [s2 Hrows].
  rewrite Hsel, sell_rows_app in Hrows.
  rewrite (bind_ok _ _ _ _ _ _ Hpre) in Hrows. cbn in Hrows.
  destruct (sell_row env cfg row conn st1) as [[rr sC] eC] eqn:Hrowrun.
  assert (Hrowrun' := Hrowrun).
  unfold sell_row in Hrowrun'. rewrite (bind_ok _ _ _ _ _ _ Hprobe) in Hrowrun'.
  destruct (sell_by_band env cfg row pm conn st2) as [[rb sb] eb] eqn:Hband.
  inversion Hrowrun'; subst rr sC eC; clear Hrowrun'.
  unfold bind in Hrows. rewrite Hrowrun in Hrows.
  destruct rb as [c2|e]; [|by inversion Hrows].
  destruct (sell_rows env cfg post c2 sb) as [[rp sp] ep] eqn:Hpost.
  inversion Hrows; subst rp sp evs; clear Hrows.
  (* the events of the other rows and of the probe *)
  destruct (sell_rows_frame env cfg _ _ _ _ _ _ Logic.I Hpre) as [_ Hq1].
  apply (sells_of_sells_within a) in Hq1; [|done].
  destruct (sell_rows_frame env cfg _ _ _ _ _ _ Logic.I Hpost) as [_ Hq3].
  apply (sells_of_sells_within a) in Hq3; [|done].
  destruct (price_probe_frame env cfg _ _ _ _ _ Logic.I Hprobe) as [_ Hq2].
  apply plain_no_trade, (sells_of_no_trade a) in Hq2.
  (* the rows of the other positions *)
  pose proof (sell_rows_other env cfg _ a _ _ _ _ _ Hnpre Hpre) as Hc1.
  pose proof (sell_rows_other env cfg _ a _ _ _ _ _ Hnpost Hpost) as Hc3.
  rewrite Hrow in Hc1.
  unfold persisted_holdings. rewrite Hc3, Hrow.
  rewrite !sells_of_app, Hq1, Hq2, Hq3, app_nil_r. cbn [app].
  destruct (sell_by_band_spec env cfg _ _ _ _ _ _ _ Hband)
    as (Hmax & Hmid & Hlow). fold a h in Hmax, Hmid, Hlow.
  split; [done|]. split; [done|]. repeat split.
  - by apply Hmax.
  - destruct (Hmax H) as [_ Hc]. rewrite (Hc c2 eq_refl).
    by rewrite row_of_update_holdings_where, Hc1.
  - by apply Hmid.
  - destruct (Hmid H0 H) as [_ Hc]. rewrite (Hc c2 eq_refl).
    by rewrite row_of_update_holdings_where, Hc1.
  - assert (Hlt : (pm < PROFIT_MULTIPLIER_MAX cfg)%Q)
      by (eapply Qlt_le_trans; eauto).
    by destruct (Hlow Hlt H) as [-> _].
  - assert (Hlt : (pm < PROFIT_MULTIPLIER_MAX cfg)%Q)
      by (eapply Qlt_le_trans; eauto).
    destruct (Hlow Hlt H) as [_ [= <-]]. by rewrite Hc1.
Qed.
End SellBanding.

(** C1, the defect: a sale made and confirmed is not recorded when a
    later position cannot be probed.  Position "A" (100 units, cost
    basis 1) is probed at three times its cost basis, which is the
    upper band in binary64 as well; all 100 units are sold and the
    sale is confirmed, and [UPDATE tokens SET holdings = 0] is executed
    on the connection.  Then the route request for position "B" times
    out: the phase is left before its only commit, and the table still
    shows 100 units of "A", where the claim has the quantity at 0
    after a successful sell. *)
Lemma confirmed_sale_lost_when_later_probe_raises :
  let st := holding [position_A; position_B] in
  let sol := SOL_ADDRESS default_settings in
  exists st' pm st2 conn st3,
    sell_phase env_B_times_out default_settings st
    = (Raise OtherError, st',
       [CallSwapRoute "A" sol 1000;
        CallSell "A" 100;
        CallSwapRoute "A" sol 100000000;
        CallSubmit "signed"; CallConfirm "hash";
        CallSwapRoute "B" sol 1000])
    /\ price_probe env_B_times_out default_settings position_A (next_tick st)
       = (Ok (Some pm), st2, [CallSwapRoute "A" sol 1000])
    /\ (pm == 3)%Q
    /\ (3 <=? profit_multiplier_binary64 3000000 1)%float = true
    /\ execute_sell env_B_times_out default_settings
         (state_of_row position_A) 100 st2
       = (Ok true, st3,
          [CallSell "A" 100; CallSwapRoute "A" sol 100000000;
           CallSubmit "signed"; CallConfirm "hash"])
    /\ sell_row env_B_times_out default_settings position_A
         (tokens_table st) (next_tick st)
       = (Ok conn, next_tick st3,
          [CallSwapRoute "A" sol 1000; CallSell "A" 100;
           CallSwapRoute "A" sol 100000000;
           CallSubmit "signed"; CallConfirm "hash"])
    /\ option_map r_holdings (row_of "A" conn) = Some 0%Q
    /\ persisted_holdings "A" st = Some 100%Q
    /\ persisted_holdings "A" st' = Some 100%Q.
Proof.
  cbn zeta. eexists _, _, _, _, _.
  do 8 (split; [vm_compute; reflexivity|]).
  vm_compute; reflexivity.
Qed.

(** C8, the defect: a probe whose output amount is the text ["0"].  The
    buy executor reads such an amount through [int()], as zero; the
    probe divides the text itself by [10**9], which raises [TypeError]
    before the test for zero is reached.  The position is not skipped:
    the exception leaves the sell phase at once, and position "B",
    which comes after it, is not even probed. *)
Lemma text_zero_probe_aborts_sell_phase :
  let st := holding [position_A; position_B] in
  exists st',
    int_out_amount route_data_text_zero = Ok 0%Z
    /\ get_swap_route env_probe_text_zero "A" (SOL_ADDRESS default_settings)
         1000 (next_tick st)
       = (Ok (Some route_data_text_zero), next_tick (next_tick st),
          [CallSwapRoute "A" (SOL_ADDRESS default_settings) 1000])
    /\ sell_row env_probe_text_zero default_settings position_A
         (tokens_table st) (next_tick st)
       = (Raise TypeError, next_tick (next_tick st),
          [CallSwapRoute "A" (SOL_ADDRESS default_settings) 1000])
    /\ sell_phase env_probe_text_zero default_settings st
       = (Raise TypeError, st',
          [CallSwapRoute "A" (SOL_ADDRESS default_settings) 1000])
    /\ tokens_table st' = tokens_table st.
Proof.
  cbn zeta. eexists.
  do 4 (split; [vm_compute; reflexivity|]).
  vm_compute; reflexivity.
Qed.

(** C2, the sell side: a position probed at three times its cost basis
    for which no sell route is offered.  [execute_sell] is entered, gets
    no route data and returns [false] without a transaction ever being
    submitted, yet the committed table shows the position sold out. *)
Lemma unconfirmed_sell_still_zeroes_holdings :
  let st := holding [position_A] in
  exists st' st1 ev1,
    sell_phase env_no_sell_route default_settings st
    = (Ok tt, st',
       [CallSwapRoute "A" (SOL_ADDRESS default_settings) 1000;
        CallSell "A" 100;
        CallSwapRoute "A" (SOL_ADDRESS default_settings) 100000000])
    /\ execute_sell env_no_sell_route default_settings
         (state_of_row position_A) 100 (next_tick (next_tick st))
       = (Ok false, st1, ev1)
    /\ persisted_holdings "A" st = Some 100%Q
    /\ persisted_holdings "A" st' = Some 0%Q.
Proof.
  cbn zeta. eexists _, _, _. repeat split; by vm_compute.
Qed.

(** ** The reputation credential *)

Section Credential.
Variable env : Env.
Variable cfg : Settings.

Lemma get_rugcheck_api_token_run st :
  exists tok,
    get_rugcheck_api_token env st = (Ok tok, next_tick st, [CallLogin]).
Proof.
  unfold get_rugcheck_api_token, bind, emit, ask.
  destruct (login_endpoint env (tick st)); cbn; eauto.
Qed.

(** One run of the check without a credential: the login comes first,
    its answer is stored, and an empty answer ends the check. *)
Lemma validate_once_without_key addr st r st' evs :
  truthy (API_KEY_RUGCHECK st) = false ->
  validate_token_rugcheck_once env addr st = (r, st', evs) ->
  exists tok evs',
    get_rugcheck_api_token env st = (Ok tok, next_tick st, [CallLogin])
    /\ evs = CallLogin :: evs'
    /\ Forall plain evs'
    /\ API_KEY_RUGCHECK st' = Some tok
    /\ (truthy (Some tok) = false -> r = Ok false /\ evs' = []).
Proof.
  intros Hkey. unfold validate_token_rugcheck_once.
  unfold bind at 1. unfold gets at 1. rewrite Hkey.
  destruct (get_rugcheck_api_token_run st) as [tok Htok].
  unfold bind at 1. rewrite (bind_ok _ _ _ _ _ _ Htok).
  unfold bind at 1. unfold modify at 1. unfold ret at 1. cbn [app].
  destruct (truthy (Some tok)) eqn:Etok.
  - match goal with
    | |- context [?m (set_api_key (Some tok) (next_tick st))] =>
        assert (Hf : frames any_state same_store plain m)
          by (repeat frame_step);
        destruct (m (set_api_key (Some tok) (next_tick st)))
          as [[r2 s2] e2] eqn:E
    end.
    destruct (Hf _ _ _ _ Logic.I E) as [[_ Hk] Hq].
    intros [= <- <- <-]. exists tok, e2. repeat split; try done;
      intros; congruence.
  - intros [= <- <- <-]. exists tok, []. repeat split; try done.
Qed.

Lemma retry_keeps_key n addr :
  frames has_key same_store plain
    (retry n (validate_token_rugcheck_once env addr)).
Proof.
  apply frames_retry; [exact _|]. apply validate_token_rugcheck_once_keeps_key.
Qed.

Lemma validate_without_key addr st r st' evs :
  truthy (API_KEY_RUGCHECK st) = false ->
  validate_token_rugcheck env addr st = (r, st', evs) ->
  exists tok evs',
    get_rugcheck_api_token env st = (Ok tok, next_tick st, [CallLogin])
    /\ evs = CallLogin :: evs'
    /\ logins_of evs' = 0%nat
    /\ API_KEY_RUGCHECK st' = Some tok
    /\ (truthy (Some tok) = false -> r = Ok false /\ evs' = []).
Proof.
  intros Hkey. unfold validate_token_rugcheck, with_retry. rewrite retry_S.
  destruct (validate_token_rugcheck_once env addr st) as [[r1 s1] e1] eqn:E1.
  destruct (validate_once_without_key _ _ _ _ _ Hkey E1)
    as (tok & ev' & Htok & -> & Hq & Hk & Hempty).
  assert (Hdone : (r1, s1, CallLogin :: ev') = (r, st', evs) ->
    exists tok0 evs',
      get_rugcheck_api_token env st = (Ok tok0, next_tick st, [CallLogin])
      /\ evs = CallLogin :: evs' /\ logins_of evs' = 0%nat
      /\ API_KEY_RUGCHECK st' = Some tok0
      /\ (truthy (Some tok0) = false -> r = Ok false /\ evs' = [])).
  { intros [= <- <- <-]. exists tok, ev'. repeat split; try done.
    - by apply logins_of_no_login, plain_no_login.
    - by apply Hempty.
    - by apply Hempty. }
  destruct r1 as [b|e]; [exact Hdone|].
  destruct e; try exact Hdone.
  destruct (truthy (Some tok)) eqn:Etok;
    [|destruct (Hempty eq_refl) as [Hc _]; discriminate Hc].
  destruct (retry 2 (validate_token_rugcheck_once env addr) s1)
    as [[r2 s2] e2] eqn:E2.
  assert (Hhas : has_key s1) by (unfold has_key; by rewrite Hk).
  destruct (retry_keeps_key 2 addr _ _ _ _ Hhas E2) as [[_ Hk2] Hq2].
  intros [= <- <- <-]. exists tok, (ev' ++ e2). repeat split; try done.
  - rewrite logins_of_app.
    rewrite (logins_of_no_login ev'), (logins_of_no_login e2);
      [done|by apply plain_no_login..].
  - congruence.
  - intros; congruence.
  - intros; congruence.
Qed.

Lemma execute_buy_keeps_key ts amount :
  frames has_key same_key no_login (execute_buy env cfg ts amount).
Proof.
  intros st r st' evs _ H.
  destruct (execute_buy_entry env cfg ts amount st)
    as (rb & sb & eb & Eb & Hq & Hk).
  rewrite Eb in H. inversion H; subst. split; [exact Hk|].
  constructor; [done|by apply plain_no_login].
Qed.

Lemma analyze_token_keeps_key addr nm :
  frames has_key same_key no_login (analyze_token env cfg addr nm).
Proof.
  unfold analyze_token. repeat frame_step.
  - frame_from (fetch_token_analytics_frame env cfg addr).
  - frame_from (get_token_decimals_frame env addr).
  - frame_from (validate_token_rugcheck_keeps_key env addr).
Qed.

Lemma consider_token_keeps_key trends token :
  frames has_key same_key no_login (consider_token env cfg trends token).
Proof.
  unfold consider_token. repeat frame_step;
    first [ apply analyze_token_keeps_key | apply execute_buy_keeps_key ].
Qed.

Lemma sell_phase_keeps_key :
  frames has_key same_key no_login (sell_phase env cfg).
Proof.
  unfold sell_phase, sql_execute. repeat frame_step.
  eapply frames_weaken; [| | |apply (sell_rows_frame env cfg)]; frame_side.
Qed.

(** Everything the loop body runs keeps a credential that is in place. *)
Lemma iteration_keeps_key :
  frames has_key same_key no_login (iteration env cfg).
Proof.
  unfold iteration. repeat frame_step.
  - frame_from (fetch_new_tokens_frame env).
  - frame_from (fetch_market_trends_frame env cfg).
  - apply consider_token_keeps_key.
  - apply sell_phase_keeps_key.
Qed.

(** The check before the loop: nothing happens when a credential is
    configured; otherwise one login is made and its answer stored. *)
Lemma obtain_credential_at_startup_run st :
  (truthy (API_KEY_RUGCHECK st) = true ->
     obtain_credential_at_startup env st = (Ok true, st, []))
  /\ (truthy (API_KEY_RUGCHECK st) = false ->
     exists tok,
       get_rugcheck_api_token env st = (Ok tok, next_tick st, [CallLogin])
       /\ obtain_credential_at_startup env st
          = (Ok (truthy (Some tok)),
             set_api_key (Some tok) (next_tick st), [CallLogin])).
Proof.
  unfold obtain_credential_at_startup. split; intros Hkey.
  - unfold bind, gets. by rewrite Hkey.
  - destruct (get_rugcheck_api_token_run st) as [tok Htok].
    exists tok. split; [done|].
    unfold bind at 1. unfold gets at 1. rewrite Hkey.
    by rewrite (bind_ok _ _ _ _ _ _ Htok).
Qed.

(** C7: the credential is obtained lazily and is never replaced or
    expired.  A reputation check made when no credential exists first
    fetches one (one login, before anything else), stores what it got,
    and gives up with [false] when that is empty.  A check made with a
    credential in place never fetches one and leaves it unchanged,
    whether its request succeeds or fails: a failed request is retried
    with the same credential.  Nor does anything else in an iteration
    of the loop touch a credential that is in place. *)
Theorem credential_lazy_and_never_replaced :
  (forall addr st r st' evs,
     validate_token_rugcheck env addr st = (r, st', evs) ->
     (truthy (API_KEY_RUGCHECK st) = false ->
        exists tok evs',
          get_rugcheck_api_token env st = (Ok tok, next_tick st, [CallLogin])
          /\ evs = CallLogin :: evs'
          /\ logins_of evs' = 0%nat
          /\ API_KEY_RUGCHECK st' = Some tok
          /\ (truthy (Some tok) = false -> r = Ok false /\ evs' = []))
     /\ (truthy (API_KEY_RUGCHECK st) = true ->
        API_KEY_RUGCHECK st' = API_KEY_RUGCHECK st
        /\ logins_of evs = 0%nat))
  /\ (forall st r st' evs,
        truthy (API_KEY_RUGCHECK st) = true ->
        iteration env cfg st = (r, st', evs) ->
        API_KEY_RUGCHECK st' = API_KEY_RUGCHECK st
        /\ logins_of evs = 0%nat).
Proof.
  split.
  - intros addr st r st' evs H. split; intros Hkey.
    + by apply (validate_without_key addr st r st' evs).
    + destruct (validate_token_rugcheck_keeps_key env addr _ _ _ _ Hkey H)
        as [[_ Hk] Hq].
      split; [done|]. by apply logins_of_no_login, plain_no_login.
  - intros st r st' evs Hkey H.
    destruct (iteration_keeps_key _ _ _ _ Hkey H) as [Hk Hq].
    split; [done|]. by apply logins_of_no_login.
Qed.
End Credential.

(** C7, as stated: with credential "key" in place and the reputation
    service rejecting every request, the check fails after its three
    attempts, all made with "key"; it fetches no new credential and
    leaves "key" where it was. *)
Lemma credential_policy_as_stated_fails : ~ credential_policy_as_stated.
Proof.
  intros H.
  destruct (validate_token_rugcheck env_rugcheck_rejects "A" (holding []))
    as [[r st'] evs] eqn:E.
  destruct (H _ _ _ _ _ _ E) as (_ & Hrefresh & _).
  vm_compute in E. inversion E; subst r st' evs.
  destruct Hrefresh as [Hlogin|Hkey]; [done|by eexists| |].
  - by apply Hlogin.
  - by vm_compute in Hkey.
Qed.

(** * The theorems at work on the scenarios *)

Lemma cache_round_trip_witness :
  let c := set_cached_data 0%Q "trends" 7%nat (∅ : gmap string (CacheEntry nat)) in
  get_cached_data default_settings 299%Q "trends" c = Some 7%nat
  /\ get_cached_data default_settings 300%Q "trends" c = None
  /\ c !! "trends" = Some (mkEntry 7%nat 0%Q).
Proof.
  cbn zeta.
  destruct (cache_round_trip default_settings "trends" 7%nat 0%Q 299%Q ∅)
    as (Hfresh & _ & _).
  destruct (cache_round_trip default_settings "trends" 7%nat 0%Q 300%Q ∅)
    as (_ & Hstale & _).
  split; [apply Hfresh; vm_compute; reflexivity|].
  apply Hstale. vm_compute. discriminate.
Defined.

Lemma buy_invoked_iff_all_gates_witness :
  buys_of (consider_token (env_good_token 2000000) default_settings trends_A
             candidate_A (holding [])).2 = ["A"].
Proof.
  destruct (consider_token (env_good_token 2000000) default_settings trends_A
              candidate_A (holding [])) as [[r st'] evs] eqn:Hc.
  destruct (analyze_token (env_good_token 2000000) default_settings
              (c_address candidate_A) (default "Unknown" (c_name candidate_A))
              (holding [])) as [[ra s1] e1] eqn:Ha.
  pose proof (f_equal (fun x => x.1.1) Ha) as Hra. cbn beta in Hra.
  vm_compute in Hra. subst ra.
  destruct (buy_invoked_iff_all_gates _ _ _ _ _ _ _ _ _ _ _ Ha Hc) as [[_ H] _].
  apply H. repeat split; vm_compute; try discriminate; reflexivity.
Defined.

Lemma absent_trend_never_buys_witness :
  buys_of (consider_token (env_good_token 2000000) default_settings ∅
             candidate_A (holding [])).2 = [].
Proof.
  destruct (consider_token (env_good_token 2000000) default_settings ∅
              candidate_A (holding [])) as [[r st'] evs] eqn:Hc.
  refine (proj2 (absent_trend_never_buys _ _ _ _ _ _ _ _ _ _ Hc)).
  - reflexivity.
  - vm_compute. reflexivity.
Defined.

Lemma buy_with_zero_output_fails_witness :
  (execute_buy (env_good_token 0) default_settings token_A 1 (holding [])).1
  = (Ok false, mkSt (Some "key") ∅ ∅ [] 3).
Proof.
  destruct (buy_with_zero_output_fails (env_good_token 0) default_settings
              token_A 1 (holding [])
              (mkRouteData (Some (RawTxObj (Some "tx"))) (Some (JInt 0)))
              (mkSt (Some "key") ∅ ∅ [] 3)) as (evs & -> & _).
  - exists (mkSt (Some "key") ∅ ∅ [] 1),
      [CallSwapRoute (SOL_ADDRESS default_settings) "A" 1000000000],
      (RawTxObj (Some "tx")), "signed",
      (mkSt (Some "key") ∅ ∅ [] 2), [CallSubmit "signed"], "hash",
      [CallConfirm "hash"].
    repeat split; vm_compute; reflexivity.
  - reflexivity.
  - reflexivity.
Defined.

Lemma buy_replaces_existing_row_witness :
  exists st' evs,
    execute_buy (env_good_token 2000000) default_settings token_A 1
      (holding [position_A]) = (Ok true, st', evs)
    /\ option_map r_holdings (row_of "A" (tokens_table st'))
       = Some (inject_Z 2000000 / pow10 6)%Q
    /\ persisted_holdings "A" (holding [position_A]) = Some 100%Q.
Proof.
  destruct (buy_replaces_existing_row (env_good_token 2000000) default_settings
              token_A 1 (holding [position_A])
              (mkRouteData (Some (RawTxObj (Some "tx"))) (Some (JInt 2000000)))
              (mkSt (Some "key") ∅ ∅ [position_A] 3) 2000000 position_A)
    as (st' & evs & Hrun & _ & Hrow & _).
  - exists (mkSt (Some "key") ∅ ∅ [position_A] 1),
      [CallSwapRoute (SOL_ADDRESS default_settings) "A" 1000000000],
      (RawTxObj (Some "tx")), "signed",
      (mkSt (Some "key") ∅ ∅ [position_A] 2), [CallSubmit "signed"], "hash",
      [CallConfirm "hash"].
    repeat split; vm_compute; reflexivity.
  - reflexivity.
  - discriminate.
  - reflexivity.
  - reflexivity.
  - exists st', evs. split; [exact Hrun|]. split; [|reflexivity].
    cbn in Hrow. rewrite Hrow. reflexivity.
Defined.

Lemma zero_probe_skips_position_witness :
  sell_row (env_good_token 0) default_settings position_A [position_A]
    (holding [position_A])
  = (Ok [position_A], mkSt (Some "key") ∅ ∅ [position_A] 1,
     [CallSwapRoute "A" (SOL_ADDRESS default_settings) 1000]).
Proof.
  refine (proj1 (zero_probe_skips_position (env_good_token 0) default_settings
            position_A [position_A] (holding [position_A])
            (mkRouteData (Some (RawTxObj (Some "tx"))) (Some (JInt 0)))
            _ _ (inject_Z 0 / inject_Z (10 ^ 9))%Q _ _ _)).
  - vm_compute. reflexivity.
  - reflexivity.
  - vm_compute. reflexivity.
Defined.

(** C10, as stated: with the database write failing, the buy of token
    "A" is confirmed and reported successful, and the row of "A" still
    holds the earlier position, 100 units at cost basis 1, not the 2
    units at 0.5 of this trade. *)
Lemma buy_replaces_row_as_stated_fails : ~ buy_replaces_row_as_stated.
Proof.
  intros H.
  pose (st := holding [position_A]).
  destruct (execute_buy (env_database_down 2000000) default_settings token_A 1
              st) as [[r st'] evs] eqn:Hbuy.
  assert (Hr : r = Ok true /\ tokens_table st' = [position_A]).
  { vm_compute in Hbuy. by inversion Hbuy. }
  destruct Hr as [-> Htable].
  destruct (H (env_database_down 2000000) default_settings token_A 1%Q st
              (route_data_paying 2000000)
              (mkSt (Some "key") ∅ ∅ [position_A] 3) 2000000%Z position_A
              st' evs) as (row & Hrow & _ & Hqty).
  - exists (mkSt (Some "key") ∅ ∅ [position_A] 1),
      [CallSwapRoute (SOL_ADDRESS default_settings) "A" 1000000000],
      (RawTxObj (Some "tx")), "signed",
      (mkSt (Some "key") ∅ ∅ [position_A] 2), [CallSubmit "signed"], "hash",
      [CallConfirm "hash"].
    repeat split; vm_compute; reflexivity.
  - reflexivity.
  - discriminate.
  - reflexivity.
  - exact Hbuy.
  - rewrite Htable in Hrow. vm_compute in Hrow. injection Hrow as <-.
    vm_compute in Hqty. discriminate.
Qed.

Lemma sell_banding_when_phase_commits_witness :
  exists st' evs,
    sell_phase env_B_times_out default_settings (holding [position_A])
    = (Ok tt, st', evs)
    /\ sells_of "A" evs = [100%Q]
    /\ persisted_holdings "A" st' = Some 0%Q.
Proof.
  pose (st := holding [position_A]).
  pose (st' := mkSt (Some "key") ∅ ∅ [set_r_holdings 0 position_A] 7).
  pose (evs := [CallSwapRoute "A" (SOL_ADDRESS default_settings) 1000;
                CallSell "A" 100;
                CallSwapRoute "A" (SOL_ADDRESS default_settings) 100000000;
                CallSubmit "signed"; CallConfirm "hash"]).
  assert (Hphase : sell_phase env_B_times_out default_settings st
                   = (Ok tt, st', evs)) by (vm_compute; reflexivity).
  exists st', evs. split; [exact Hphase|].
  refine (proj1 (proj2 (proj2
    (sell_banding_when_phase_commits env_B_times_out default_settings st
       position_A (tokens_table st) (next_tick st)
       (3000000000 # 1000000000)
       (mkSt (Some "key") ∅ ∅ [position_A] 2)
       [CallSwapRoute "A" (SOL_ADDRESS default_settings) 1000]
       st' evs _ _ _ _ Hphase))) _).
  - vm_compute. discriminate.
  - vm_compute. repeat constructor. intros Hin; cbn in Hin; tauto.
  - exists [], [], []. split; vm_compute; reflexivity.
  - vm_compute. reflexivity.
  - vm_compute. discriminate.
Defined.

Lemma credential_lazy_and_never_replaced_witness :
  (let '(r, st', evs) :=
     validate_token_rugcheck env_rugcheck_rejects "A" (holding []) in
   API_KEY_RUGCHECK st' = Some "key" /\ logins_of evs = 0%nat)
  /\ (let '(r, st', evs) :=
        iteration (env_good_token 2000000) default_settings (holding []) in
      API_KEY_RUGCHECK st' = Some "key" /\ logins_of evs = 0%nat).
Proof.
  split.
  - destruct (validate_token_rugcheck env_rugcheck_rejects "A" (holding []))
      as [[r st'] evs] eqn:E.
    destruct (credential_lazy_and_never_replaced env_rugcheck_rejects
                default_settings) as [H _].
    apply (H _ _ _ _ _ E). reflexivity.
  - destruct (iteration (env_good_token 2000000) default_settings (holding []))
      as [[r st'] evs] eqn:E.
    destruct (credential_lazy_and_never_replaced (env_good_token 2000000)
                default_settings) as [_ H].
    apply (H (holding []) _ _ _ eq_refl E).
Defined.

(** * The scenarios of the specification *)

(** No factor triggers: risk 0, all gates pass. *)
Example scenario_no_risk_factor :
  scam_risk (scored analytics_A 0.8) = 0%Q
  /\ buy_gates default_settings (scored analytics_A 0.8) = true.
Proof. split; vm_compute; reflexivity. Qed.

(** Sniper activity 60: risk 0.3, below the maximum 0.5, gates pass. *)
Example scenario_sniper_activity_60 :
  (scam_risk (scored (analytics_with 60 0) 0.8) == 0.3)%Q
  /\ buy_gates default_settings (scored (analytics_with 60 0) 0.8) = true.
Proof. split; vm_compute; reflexivity. Qed.

(** Sniper activity 60 and 11 insider trades: risk 0.5, exactly the
    maximum, and the token is excluded. *)
Example scenario_risk_at_maximum :
  (scam_risk (scored (analytics_with 60 11) 0.8) == SCAM_RISK_MAX default_settings)%Q
  /\ buy_gates default_settings (scored (analytics_with 60 11) 0.8) = false.
Proof. split; vm_compute; reflexivity. Qed.

(** Sniper activity exactly 50 does not trigger its penalty. *)
Example scenario_sniper_activity_50 :
  scam_risk (scored (analytics_with 50 10) 0.8) = 0%Q.
Proof. vm_compute; reflexivity. Qed.

(** Cost basis 1.0, probe price 2.0: the multiplier equals the lower
    band, half of the 100 units is sold and 50 stay on record. *)
Example scenario_multiplier_at_lower_band :
  let '(r, st', evs) :=
    sell_phase (env_good_token 2000000) default_settings (holding [position_A]) in
  r = Ok tt
  /\ sells_of "A" evs = [(100 * 0.5)%Q]
  /\ persisted_holdings "A" st' = Some (100 - 100 * 0.5)%Q.
Proof. vm_compute. repeat split. Qed.

(** Probe price 3.0: the multiplier equals the upper band, everything
    is sold and the quantity on record is 0. *)
Example scenario_multiplier_at_upper_band :
  let '(r, st', evs) :=
    sell_phase (env_good_token 3000000) default_settings (holding [position_A]) in
  r = Ok tt
  /\ sells_of "A" evs = [100%Q]
  /\ persisted_holdings "A" st' = Some 0%Q.
Proof. vm_compute. repeat split. Qed.

(** Probe price 1.999: below the lower band, nothing happens. *)
Example scenario_multiplier_below_lower_band :
  let '(r, st', evs) :=
    sell_phase (env_good_token 1999000) default_settings (holding [position_A]) in
  r = Ok tt
  /\ sells_of "A" evs = []
  /\ tokens_table st' = [position_A].
Proof. vm_compute. repeat split. Qed.

(** One whole iteration from a fresh start: the credential is fetched,
    token "A" passes the gates and is bought (2 units for 1 SOL), and
    the sell phase, probing it at four times its cost basis, sells it. *)
Example scenario_whole_iteration :
  let '(r, st', evs) :=
    iteration (env_good_token 2000000) default_settings (starting []) in
  r = Ok tt
  /\ evs =
       [CallLogin; CallRugcheck "A" "fresh"; CallBuy "A" 1;
        CallSwapRoute (SOL_ADDRESS default_settings) "A" 1000000000;
        CallSubmit "signed"; CallConfirm "hash";
        CallSwapRoute "A" (SOL_ADDRESS default_settings) 1000;
        CallSell "A" (inject_Z 2000000 / pow10 6);
        CallSwapRoute "A" (SOL_ADDRESS default_settings) 2000000;
        CallSubmit "signed"; CallConfirm "hash"]
  /\ API_KEY_RUGCHECK st' = Some "fresh"
  /\ persisted_holdings "A" st' = Some 0%Q.
Proof. vm_compute. repeat split. Qed.

(** A confirmed sale that never reaches the table: position "A" is sold
    in full and the sale is confirmed, then the probe of position "B"
    times out.  The iteration ends normally, the error being logged, and
    the table is exactly what it was. *)
Example scenario_later_probe_times_out :
  let st := holding [position_A; position_B] in
  let '(r, st', evs) := iteration env_B_times_out default_settings st in
  r = Ok tt
  /\ evs =
       [CallSwapRoute "A" (SOL_ADDRESS default_settings) 1000;
        CallSell "A" 100;
        CallSwapRoute "A" (SOL_ADDRESS default_settings) 100000000;
        CallSubmit "signed"; CallConfirm "hash";
        CallSwapRoute "B" (SOL_ADDRESS default_settings) 1000]
  /\ tokens_table st' = tokens_table st.
Proof. vm_compute. repeat split. Qed.

(** * Further properties of the code *)

(** ** The retry decorator *)

Lemma retry_never_client_error {A} n (m : M A) st :
  (retry n m st).1.1 <> Raise ClientError.
Proof.
  revert st. induction n as [|n IH]; intros st; [done|].
  rewrite retry_S.
  destruct (m st) as [[[a|e] s1] e1]; [done|].
  destruct e; try done.
  specialize (IH s1). by destruct (retry n m s1) as [[r2 s2] e2].
Qed.

(** None of the decorated API functions lets an [aiohttp.ClientError]
    out: it is retried, and what the caller sees after the last attempt
    is tenacity's [RetryError]. *)
Theorem api_functions_never_raise_client_error (env : Env) (cfg : Settings)
    (st : St) (addr tin tout signed_tx : string) (amount : Z) :
  (fetch_new_tokens env st).1.1 <> Raise ClientError
  /\ (fetch_token_analytics env cfg addr st).1.1 <> Raise ClientError
  /\ (fetch_market_trends env cfg st).1.1 <> Raise ClientError
  /\ (validate_token_rugcheck env addr st).1.1 <> Raise ClientError
  /\ (get_swap_route env tin tout amount st).1.1 <> Raise ClientError
  /\ (submit_transaction env signed_tx st).1.1 <> Raise ClientError.
Proof. repeat split; apply retry_never_client_error. Qed.

(** A swap-route request is made at least once and at most three times,
    each time with the same arguments; it is given up with [RetryError]
    only after the third attempt, and each attempt is one interaction. *)
Theorem get_swap_route_attempts (env : Env) (tin tout : string) (amount : Z)
    (st : St) (r : Res Route) (st' : St) (evs : list Event) :
  get_swap_route env tin tout amount st = (r, st', evs) ->
  exists n : nat,
    (1 <= n <= 3)%nat
    /\ evs = replicate n (CallSwapRoute tin tout amount)
    /\ tick st' = (tick st + n)%nat
    /\ (r = Raise RetryError -> n = 3%nat)
    /\ (forall route, r = Ok route ->
          swap_route_endpoint env (tick st + n - 1) tin tout amount
          = Response route).
Proof.
  unfold get_swap_route, with_retry.
  set (body := (emit (CallSwapRoute tin tout amount) ;;;
                resp <- ask (fun t => swap_route_endpoint env t tin tout amount) ;;
                http resp)).
  assert (Hbody : forall s,
    body s = (match swap_route_endpoint env (tick s) tin tout amount with
              | Response b => Ok b
              | HttpClientError => Raise ClientError
              | HttpOtherError => Raise OtherError
              end, next_tick s, [CallSwapRoute tin tout amount])).
  { intros s. unfold body, bind, emit, ask, http.
    by destruct (swap_route_endpoint env (tick s) tin tout amount). }
  rewrite retry_S, Hbody.
  destruct (swap_route_endpoint env (tick st) tin tout amount) eqn:E1.
  - intros [= <- <- <-]. exists 1%nat. cbn.
    repeat split; try lia; try done.
    intros route [= <-]. by replace (tick st + 1 - 1)%nat with (tick st) by lia.
  - rewrite retry_S, Hbody. cbn [tick next_tick].
    destruct (swap_route_endpoint env (S (tick st)) tin tout amount) eqn:E2.
    + intros [= <- <- <-]. exists 2%nat. cbn.
      repeat split; try lia; try done.
      intros route [= <-].
      by replace (tick st + 2 - 1)%nat with (S (tick st)) by lia.
    + rewrite retry_S, Hbody. cbn [tick next_tick].
      destruct (swap_route_endpoint env (S (S (tick st))) tin tout amount) eqn:E3.
      * intros [= <- <- <-]. exists 3%nat. cbn.
        repeat split; try lia; try done.
        intros route [= <-].
        by replace (tick st + 3 - 1)%nat with (S (S (tick st))) by lia.
      * cbn. intros [= <- <- <-]. exists 3%nat. cbn.
        repeat split; try lia; done.
      * intros [= <- <- <-]. exists 3%nat. cbn.
        repeat split; try lia; done.
    + intros [= <- <- <-]. exists 2%nat. cbn.
      repeat split; try lia; done.
  - intros [= <- <- <-]. exists 1%nat. cbn.
    repeat split; try lia; done.
Qed.

(** ** The trade executors *)

Lemma pow10_pos d : (0 < pow10 d)%Q.
Proof.
  unfold pow10. destruct (0 <=? d)%Z eqn:E.
  - apply Z.leb_le in E. change 0%Q with (inject_Z 0). rewrite <- Zlt_Qlt.
    by apply Z.pow_pos_nonneg.
  - apply Z.leb_gt in E. apply Qinv_lt_0_compat.
    change 0%Q with (inject_Z 0). rewrite <- Zlt_Qlt.
    apply Z.pow_pos_nonneg; lia.
Qed.

Section Executors.
Variable env : Env.
Variable cfg : Settings.

(** [execute_buy] never raises, and it returns [True] exactly when the
    route was quoted with a raw transaction, the transaction was
    signed, submitted with a hash and found confirmed, and the route's
    output amount is a non-zero integer. *)
Theorem execute_buy_true_iff_confirmed (ts : TokenState) (amount_in_sol : Q)
    (st : St) (r : Res bool) (st' : St) (evs : list Event) :
  execute_buy env cfg ts amount_in_sol st = (r, st', evs) ->
  (exists b, r = Ok b)
  /\ (r = Ok true <->
      exists d st3 out,
        buy_reaches_confirmed env cfg ts amount_in_sol st d st3
        /\ int_out_amount d = Ok out /\ out <> 0%Z).
Proof.
  intros H. split.
  { destruct (execute_buy_never_raises env cfg ts amount_in_sol st) as [b Hb].
    rewrite H in Hb. eauto. }
  split.
  - intros ->. revert H.
    unfold execute_buy, try_except, bind, emit, lift.
    destruct (get_swap_route env _ _ _ st) as [[[route|e1] st1] ev1] eqn:E1;
      [|intros [=]].
    destruct route as [d|]; [|intros [=]].
    destruct (raw_tx d) as [rt|] eqn:Hraw; [|intros [=]].
    destruct (sign_swap env rt) as [signed|e2] eqn:Hsign; [|intros [=]].
    destruct (submit_transaction env signed st1) as [[[res|e3] st2] ev2] eqn:E2;
      [|intros [=]].
    destruct res as [h|]; [|intros [=]].
    destruct (confirm_transaction env h st2) as [[[ok|e4] st3] ev3] eqn:E3;
      [|intros [=]].
    destruct ok; [|intros [=]].
    destruct (int_out_amount d) as [out|e5] eqn:Hout; [|intros [=]].
    destruct (out =? 0)%Z eqn:Hz; [intros [=]|].
    apply Z.eqb_neq in Hz. intros _.
    exists d, st3, out. repeat split; try done.
    by exists st1, ev1, rt, signed, st2, ev2, h, ev3.
  - intros (d & st3 & out & Hc & Hout & Hnz).
    destruct Hc as (st1 & ev1 & rt & signed & st2 & ev2 & h & ev3
                    & E1 & Hraw & Hsign & E2 & E3).
    apply Z.eqb_neq in Hnz. revert H.
    unfold execute_buy, try_except, bind, emit, lift.
    rewrite E1, Hraw, Hsign, E2, E3, Hout. cbn. rewrite Hnz.
    unfold save_token_to_db, bind, ask, modify.
    destruct (sqlite_ok env (tick st3)); cbn; by intros [= <- <- <-].
Qed.

(** [execute_sell] never raises and touches neither the table nor the
    credential.  It returns [True] exactly when the route was quoted
    with a raw transaction, the transaction was signed, submitted with
    a hash and found confirmed, and the proceeds could be computed
    from the route's output amount (a number, or absent); a confirmed
    sale whose output amount is not a number is reported as failed. *)
Theorem execute_sell_true_iff_confirmed (ts : TokenState) (amount_to_sell : Q)
    (st : St) (r : Res bool) (st' : St) (evs : list Event) :
  execute_sell env cfg ts amount_to_sell st = (r, st', evs) ->
  (exists b, r = Ok b)
  /\ tokens_table st' = tokens_table st
  /\ API_KEY_RUGCHECK st' = API_KEY_RUGCHECK st
  /\ (r = Ok true <->
      exists d proceeds,
        sell_reaches_confirmed env cfg ts amount_to_sell st d st'
        /\ out_amount_in_sol d = Ok proceeds).
Proof.
  intros H. split.
  { destruct (execute_sell_never_raises env cfg ts amount_to_sell st) as [b Hb].
    rewrite H in Hb. eauto. }
  destruct (execute_sell_frame env cfg ts amount_to_sell _ _ _ _ Logic.I H)
    as [[Ht Hk] _].
  split; [done|]. split; [done|]. split.
  - intros ->. revert H.
    unfold execute_sell, try_except, bind, emit, lift.
    destruct (get_swap_route env _ _ _ st) as [[[route|e1] st1] ev1] eqn:E1;
      [|intros [=]].
    destruct route as [d|]; [|intros [=]].
    destruct (raw_tx d) as [rt|] eqn:Hraw; [|intros [=]].
    destruct (sign_swap env rt) as [signed|e2] eqn:Hsign; [|intros [=]].
    destruct (submit_transaction env signed st1) as [[[res|e3] st2] ev2] eqn:E2;
      [|intros [=]].
    destruct res as [h|]; [|intros [=]].
    destruct (confirm_transaction env h st2) as [[[ok|e4] st3] ev3] eqn:E3;
      [|intros [=]].
    destruct ok; [|intros [=]].
    destruct (out_amount_in_sol d) as [q|e5] eqn:Hout; [|intros [=]].
    intros [= <- <-].
    exists d, q. split; [|done].
    by exists st1, ev1, rt, signed, st2, ev2, h, ev3.
  - intros (d & q & Hc & Hout).
    destruct Hc as (st1 & ev1 & rt & signed & st2 & ev2 & h & ev3
                    & E1 & Hraw & Hsign & E2 & E3).
    revert H. unfold execute_sell, try_except, bind, emit, lift.
    rewrite E1, Hraw, Hsign, E2, E3, Hout. cbn.
    by intros [= <- <-].
Qed.

(** When the database write of a confirmed buy fails, the error is
    swallowed: [execute_buy] still returns [True], and the table holds
    no trace of the purchase. *)
Theorem buy_not_recorded_when_database_fails (ts : TokenState)
    (amount_in_sol : Q) (st : St) (d : RouteData) (st3 : St) (out : Z) :
  buy_reaches_confirmed env cfg ts amount_in_sol st d st3 ->
  int_out_amount d = Ok out ->
  out <> 0%Z ->
  sqlite_ok env (tick st3) = false ->
  exists evs,
    execute_buy env cfg ts amount_in_sol st = (Ok true, next_tick st3, evs)
    /\ tokens_table (next_tick st3) = tokens_table st.
Proof.
  intros Hc Hout Hnz Hdb.
  pose proof (buy_reaches_confirmed_table _ _ _ _ _ _ _ Hc) as Ht.
  destruct Hc as (st1 & ev1 & rt & signed & st2 & ev2 & h & ev3
                  & E1 & Hraw & Hsign & E2 & E3).
  apply Z.eqb_neq in Hnz.
  eexists. split; [|exact Ht].
  unfold execute_buy, try_except, bind, emit, lift.
  rewrite E1, Hraw, Hsign, E2, E3, Hout. cbn. rewrite Hnz.
  unfold save_token_to_db, bind, ask, modify. rewrite Hdb. cbn.
  reflexivity.
Qed.
End Executors.

(** ** The table under the sell phase *)

Lemma without_holdings_update h a conn :
  without_holdings (update_holdings_where h a conn) = without_holdings conn.
Proof.
  unfold without_holdings, update_holdings_where.
  induction conn as [|r conn IH]; [done|]. cbn. rewrite IH.
  by destruct (String.eqb (r_token_address r) a).
Qed.

Lemma keys_without_holdings table : keys (without_holdings table) = keys table.
Proof.
  unfold keys, without_holdings. rewrite List.map_map. done.
Qed.

Lemma without_holdings_keys t1 t2 :
  without_holdings t1 = without_holdings t2 -> keys t1 = keys t2.
Proof.
  intros H. by rewrite <- (keys_without_holdings t1), H, keys_without_holdings.
Qed.

Lemma buys_of_sells_within addrs evs :
  Forall (sells_within addrs) evs -> buys_of evs = [].
Proof. induction 1 as [|e evs He _ IH]; [done|]. by destruct e. Qed.

Lemma held_key_has_positive_row table a :
  In a (keys (select_held table)) ->
  exists row, In row table /\ r_token_address row = a /\ (0 < r_holdings row)%Q.
Proof.
  unfold keys. rewrite List.in_map_iff. intros (row & <- & Hin).
  apply List.filter_In in Hin as [Hin Hpos].
  exists row. repeat split; [done|by apply Qltb_lt].
Qed.

Section SellPhaseInvariants.
Variable env : Env.
Variable cfg : Settings.

Lemma sell_rows_without_holdings rows conn st conn' st' evs :
  sell_rows env cfg rows conn st = (Ok conn', st', evs) ->
  without_holdings conn' = without_holdings conn.
Proof.
  revert conn st evs. induction rows as [|row rows IH]; intros conn st evs H.
  - by inversion H.
  - cbn in H.
    apply bind_inv in H as [(e & _ & [=])|(c1 & s1 & e1 & e2 & H1 & H2 & _)].
    apply IH in H2. rewrite H2.
    apply sell_row_conn in H1 as [->|[h ->]]; [done|].
    apply without_holdings_update.
Qed.

(** Every way a sell phase can end: the [SELECT] fails; a row's turn
    raises; the commit fails; or the rows' table is committed. *)
Lemma sell_phase_inv st r st' evs :
  sell_phase env cfg st = (r, st', evs) ->
  (r = Raise DatabaseError /\ evs = []
   /\ tokens_table st' = tokens_table st)
  \/ exists rr s2,
       sell_rows env cfg (select_held (tokens_table st)) (tokens_table st)
         (next_tick st) = (rr, s2, evs)
       /\ ((exists e, rr = Raise e /\ r = Raise e
                      /\ tokens_table st' = tokens_table st)
           \/ (exists conn, rr = Ok conn
                 /\ ((r = Ok tt /\ tokens_table st' = conn)
                     \/ (r = Raise DatabaseError
                         /\ tokens_table st' = tokens_table st)))).
Proof.
  unfold sell_phase, sql_execute, bind, gets, ask, modify.
  destruct (sqlite_ok env (tick st)); cbn; [|intros [= <- <- <-]; by left].
  destruct (sell_rows env cfg (select_held (tokens_table st))
              (tokens_table st) (next_tick st)) as [[rr s2] e2] eqn:E.
  destruct (sell_rows_frame env cfg _ _ _ _ _ _ Logic.I E) as [[Ht _] _].
  cbn in Ht.
  destruct rr as [conn|e].
  - destruct (sqlite_ok env (tick s2)); cbn; intros [= <- <- <-];
      right; exists (Ok conn), s2; rewrite ?app_nil_r;
      (split; [done|]); right; exists conn; (split; [done|]);
      [left|right]; done.
  - intros [= <- <- <-]. right. exists (Raise e), s2.
    split; [done|]. left. by exists e.
Qed.

Lemma sell_phase_same_key :
  frames any_state same_key no_login (sell_phase env cfg).
Proof.
  unfold sell_phase, sql_execute. repeat frame_step.
  eapply frames_weaken; [| | |apply (sell_rows_frame env cfg)]; frame_side.
Qed.

Lemma sell_row_quiet_about row a conn :
  r_token_address row <> a ->
  frames any_state same_store (fun e => ~ swaps_from a e)
    (sell_row env cfg row conn).
Proof.
  intros Hne.
  unfold sell_row, price_probe, sell_by_band, sql_execute, execute_sell,
    get_swap_route, submit_transaction, confirm_transaction.
  repeat frame_step; cbn; tauto.
Qed.

Lemma sell_rows_quiet_about rows a conn :
  ~ In a (keys rows) ->
  frames any_state same_store (fun e => ~ swaps_from a e)
    (sell_rows env cfg rows conn).
Proof.
  revert conn. induction rows as [|row rows IH]; intros conn Hnot; cbn.
  - repeat frame_step.
  - cbn in Hnot. apply frames_bind; [exact _| |intros conn'].
    + apply sell_row_quiet_about. tauto.
    + apply IH. tauto.
Qed.

(** However it ends, the sell phase deletes no row, adds none and
    changes no column but [holdings]; it enters the buy executor for no
    token and the sell executor only for tokens selected as held; the
    credential is as before. *)
Theorem sell_phase_changes_only_holdings (st : St) (r : Res unit) (st' : St)
    (evs : list Event) :
  sell_phase env cfg st = (r, st', evs) ->
  without_holdings (tokens_table st') = without_holdings (tokens_table st)
  /\ keys (tokens_table st') = keys (tokens_table st)
  /\ buys_of evs = []
  /\ (forall a, sells_of a evs <> [] ->
        In a (keys (select_held (tokens_table st))))
  /\ API_KEY_RUGCHECK st' = API_KEY_RUGCHECK st.
Proof.
  intros H.
  destruct (sell_phase_same_key _ _ _ _ Logic.I H) as [Hkey _].
  assert (Hrows : forall rr s2,
    sell_rows env cfg (select_held (tokens_table st)) (tokens_table st)
      (next_tick st) = (rr, s2, evs) ->
    buys_of evs = []
    /\ (forall a, sells_of a evs <> [] ->
          In a (keys (select_held (tokens_table st))))).
  { intros rr s2 E.
    destruct (sell_rows_frame env cfg _ _ _ _ _ _ Logic.I E) as [_ Hq].
    split; [by eapply buys_of_sells_within|].
    intros a Hne.
    destruct (List.in_dec string_dec a (keys (select_held (tokens_table st))))
      as [Hin|Hnot]; [done|].
    exfalso. apply Hne. by eapply sells_of_sells_within. }
  apply sell_phase_inv in H
    as [(_ & -> & Ht)|(rr & s2 & E & [(e & -> & _ & Ht)|(conn & -> & Hend)])].
  - rewrite Ht. repeat split; try done.
  - destruct (Hrows _ _ E) as [Hb Hs]. rewrite Ht. repeat split; done.
  - destruct (Hrows _ _ E) as [Hb Hs].
    apply sell_rows_without_holdings in E.
    destruct Hend as [[_ Ht]|[_ Ht]]; rewrite Ht; repeat split; try done.
    by apply without_holdings_keys.
Qed.

(** A token that is not selected as held (it has no row, or its row
    shows no positive holdings) is left alone by the sell phase: no
    swap-route request is made for it, the sell executor is not entered
    for it, and its row, if any, is unchanged. *)
Lemma sell_phase_ignores_not_held (st : St) (a : string)
    (r : Res unit) (st' : St) (evs : list Event) :
  ~ In a (keys (select_held (tokens_table st))) ->
  sell_phase env cfg st = (r, st', evs) ->
  Forall (fun e => ~ swaps_from a e) evs
  /\ row_of a (tokens_table st') = row_of a (tokens_table st).
Proof.
  intros Hnot H.
  apply sell_phase_inv in H
    as [(_ & -> & Ht)|(rr & s2 & E & [(e & -> & _ & Ht)|(conn & -> & Hend)])].
  - rewrite Ht. split; [constructor|done].
  - rewrite Ht. split; [|done].
    by destruct (sell_rows_quiet_about _ a _ Hnot _ _ _ _ Logic.I E).
  - split; [by destruct (sell_rows_quiet_about _ a _ Hnot _ _ _ _ Logic.I E)|].
    destruct Hend as [[_ Ht]|[_ Ht]]; rewrite Ht; [|done].
    by eapply sell_rows_other.
Qed.

(** A sold-out position stays on record and is left alone: with one
    row per key, a row whose holdings are not positive is not probed by
    the sell phase (no swap-route request for its token), the sell
    executor is not entered for it, and the row is in the table
    afterwards exactly as before, however the phase ends. *)
Theorem sold_out_position_is_kept_and_not_probed (st : St) (row : Row)
    (r : Res unit) (st' : St) (evs : list Event) :
  List.NoDup (keys (tokens_table st)) ->
  row_of (r_token_address row) (tokens_table st) = Some row ->
  (r_holdings row <= 0)%Q ->
  sell_phase env cfg st = (r, st', evs) ->
  Forall (fun e => ~ swaps_from (r_token_address row) e) evs
  /\ row_of (r_token_address row) (tokens_table st') = Some row.
Proof.
  intros Hnd Hrow Hzero H.
  assert (Hnot : ~ In (r_token_address row)
                     (keys (select_held (tokens_table st)))).
  { intros Hin.
    apply held_key_has_positive_row in Hin as (row' & Hin & Ha & Hpos).
    pose proof (row_of_unique _ _ Hnd Hin) as Hrow'.
    rewrite Ha, Hrow in Hrow'. inversion Hrow'; subst row'.
    exact (Qlt_not_le _ _ Hpos Hzero). }
  destruct (sell_phase_ignores_not_held _ _ _ _ _ Hnot H) as [Hq Ht].
  split; [done|]. by rewrite Ht.
Qed.
End SellPhaseInvariants.

(** ** A zero cost basis *)

Section ZeroCostBasis.
Variable env : Env.
Variable cfg : Settings.

(** A held position with a zero cost basis whose probe reports a
    non-zero output makes the division for the profit multiplier raise
    [ZeroDivisionError]: the sell phase is left there, the positions
    after it are not processed, and since the commit is not reached
    the table is as it was before the phase. *)
Theorem zero_cost_basis_aborts_sell_phase (st : St) (row : Row)
    (conn : list Row) (st1 : St) (d : RouteData) (st2 : St)
    (ev2 : list Event) (sol_received : Q) :
  sqlite_ok env (tick st) = true ->
  sell_phase_reaches env cfg st row conn st1 ->
  get_swap_route env (r_token_address row) (SOL_ADDRESS cfg)
    (py_int (0.001 * pow10 (r_decimals row))) st1 = (Ok (Some d), st2, ev2) ->
  out_amount_in_sol d = Ok sol_received ->
  ~ (sol_received == 0)%Q ->
  (r_buy_price row == 0)%Q ->
  exists evs,
    sell_phase env cfg st = (Raise ZeroDivisionError, st2, evs)
    /\ tokens_table st2 = tokens_table st.
Proof.
  intros Hdb (pre & post & ev1 & Hsel & Hpre) Hroute Hout Hnz Hzero.
  assert (Hrow : sell_row env cfg row conn st1
                 = (Raise ZeroDivisionError, st2, ev2)).
  { unfold sell_row, price_probe, bind, lift. rewrite Hroute, Hout.
    assert (Qeqb sol_received 0 = false) as ->.
    { destruct (Qeqb sol_received 0) eqn:E; [|done].
      exfalso. apply Hnz. by apply Qeq_bool_iff. }
    assert (Qeqb (r_buy_price row) 0 = true) as -> by by apply Qeq_bool_iff.
    cbn. by rewrite !app_nil_r. }
  assert (Hrows : sell_rows env cfg (select_held (tokens_table st))
                    (tokens_table st) (next_tick st)
                  = (Raise ZeroDivisionError, st2, ev1 ++ ev2)).
  { rewrite Hsel, sell_rows_app. rewrite (bind_ok _ _ _ _ _ _ Hpre).
    cbn [sell_rows]. by rewrite (bind_raise _ _ _ _ _ _ Hrow). }
  assert (Hphase : sell_phase env cfg st
                   = (Raise ZeroDivisionError, st2, ev1 ++ ev2)).
  { unfold sell_phase, sql_execute.
    unfold bind at 1. unfold gets at 1.
    unfold bind at 1. unfold bind at 1. unfold ask at 1. rewrite Hdb.
    unfold ret at 1. cbn [app].
    by rewrite (bind_raise _ _ _ _ _ _ Hrows). }
  exists (ev1 ++ ev2). split; [done|].
  by apply (sell_phase_raises env cfg _ _ _ _ Hphase).
Qed.
End ZeroCostBasis.

(** ** What a whole run keeps *)

Lemma NoDup_keys_insert_or_replace r table :
  List.NoDup (keys table) -> List.NoDup (keys (insert_or_replace r table)).
Proof.
  intros Hnd. unfold insert_or_replace, keys. rewrite List.map_app. cbn.
  apply List.NoDup_app; [| repeat constructor; by intros [] |].
  - by apply (NoDup_keys_filter _ table).
  - intros a Hin [<-|[]].
    apply List.in_map_iff in Hin as (r' & Ha & Hin).
    apply List.filter_In in Hin as [_ Hne].
    rewrite Ha, String.eqb_refl in Hne. done.
Qed.

#[export] Instance frame_keeps_keys_unique : Frame any_state keeps_keys_unique.
Proof. split; unfold keeps_keys_unique, any_state; intros; cbn; auto. Qed.

#[export] Instance frame_keeps_cache_keys : Frame any_state keeps_cache_keys.
Proof.
  split; unfold keeps_cache_keys, any_state; intros; cbn; try done.
  destruct H as [H1 H2], H0 as [H3 H4]. split; set_solver.
Qed.

Ltac shape_side :=
  unfold keeps_keys_unique, keeps_cache_keys, set_cached_data; cbn; intros;
  repeat split; try done; try set_solver.

(** [frame_step] for the relations of this section, whose event
    predicate is trivial. *)
Ltac shape_step :=
  lazymatch goal with
  | |- frames _ _ _ (modify _) => apply frames_modify; shape_side
  | |- frames _ _ _ (emit _) => apply frames_emit; [exact _|exact Logic.I]
  | _ => frame_step
  end.

Section RunInvariants.
Variable env : Env.
Variable cfg : Settings.

(** *** The cache only grows *)

Lemma sell_rows_keeps_cache_keys rows conn :
  frames any_state keeps_cache_keys (fun _ => True)
    (sell_rows env cfg rows conn).
Proof.
  revert conn. induction rows as [|row rows IH]; intros conn; cbn.
  - repeat shape_step.
  - apply frames_bind; [exact _| |intros conn'; apply IH].
    unfold sell_row, price_probe, sell_by_band, sql_execute, execute_sell,
      get_swap_route, submit_transaction, confirm_transaction.
    repeat shape_step.
Qed.

Lemma iteration_keeps_cache_keys :
  frames any_state keeps_cache_keys (fun _ => True) (iteration env cfg).
Proof.
  unfold iteration, fetch_new_tokens, fetch_market_trends,
    get_cached_trends, set_cached_trends, consider_token, analyze_token,
    fetch_token_analytics, get_cached_analytics, set_cached_analytics,
    get_token_decimals, validate_token_rugcheck,
    validate_token_rugcheck_once, get_rugcheck_api_token, execute_buy,
    save_token_to_db, get_swap_route, submit_transaction,
    confirm_transaction, sell_phase, sql_execute.
  repeat shape_step. apply sell_rows_keeps_cache_keys.
Qed.

(** *** One row per key *)

Lemma sell_phase_keeps_keys_unique :
  frames any_state keeps_keys_unique (fun _ => True) (sell_phase env cfg).
Proof.
  intros st r st' evs _ H. split; [|by apply Forall_true].
  unfold keeps_keys_unique.
  apply sell_phase_inv in H
    as [(_ & _ & Ht)|(rr & s2 & E & [(e & _ & _ & Ht)|(conn & -> & Hend)])];
    try by rewrite Ht.
  apply sell_rows_without_holdings, without_holdings_keys in E.
  destruct Hend as [[_ Ht]|[_ Ht]]; rewrite Ht; [by rewrite E|done].
Qed.

Lemma iteration_keeps_keys_unique :
  frames any_state keeps_keys_unique (fun _ => True) (iteration env cfg).
Proof.
  unfold iteration, fetch_new_tokens, fetch_market_trends,
    get_cached_trends, set_cached_trends, consider_token, analyze_token,
    fetch_token_analytics, get_cached_analytics, set_cached_analytics,
    get_token_decimals, validate_token_rugcheck,
    validate_token_rugcheck_once, get_rugcheck_api_token, execute_buy,
    save_token_to_db, get_swap_route, submit_transaction,
    confirm_transaction.
  repeat shape_step.
  - by apply NoDup_keys_insert_or_replace.
  - apply sell_phase_keeps_keys_unique.
Qed.
End RunInvariants.

(** ** The main loop *)

Section MainLoopFacts.
Variable env : Env.
Variable cfg : Settings.

Lemma iteration_returns st :
  exists st' evs, iteration env cfg st = (Ok tt, st', evs).
Proof.
  unfold iteration, try_except.
  match goal with |- context [match ?m st with _ => _ end] =>
    destruct (m st) as [[[[]|e] s1] e1] end; cbn; eauto.
Qed.

Lemma trading_loop_returns shutdown rounds st :
  exists b st' evs, trading_loop env cfg shutdown rounds st = (Ok b, st', evs).
Proof.
  revert st. induction rounds as [|n IH]; intros st; cbn [trading_loop].
  - by exists false, st, [].
  - unfold bind at 1. unfold ask at 1.
    destruct (shutdown (tick st)); [by eexists _, _, _|].
    destruct (iteration_returns (next_tick st)) as (s1 & e1 & E1).
    unfold bind. rewrite E1.
    destruct (IH s1) as (b & s2 & e2 & ->). by eexists _, _, _.
Qed.

Lemma trading_loop_frame (R : St -> St -> Prop) (Q : Event -> Prop)
    (I : St -> Prop) `{!Frame I R} shutdown rounds :
  frames I R Q (iteration env cfg) ->
  frames I R Q (trading_loop env cfg shutdown rounds).
Proof.
  intros Hit. induction rounds as [|n IH]; cbn; repeat frame_step; done.
Qed.

Lemma setup_database_run st :
  setup_database env st
  = (if sqlite_ok env (tick st) then Ok tt else Raise DatabaseError,
     next_tick st, []).
Proof.
  unfold setup_database, bind, ask. by destruct (sqlite_ok env (tick st)).
Qed.

(** Every way [monitor_and_trade] can go up to the loop. *)
Lemma monitor_and_trade_inv shutdown rounds st r st' evs :
  monitor_and_trade env cfg shutdown rounds st = (r, st', evs) ->
  (sqlite_ok env (tick st) = false
   /\ r = Raise DatabaseError /\ st' = next_tick st /\ evs = [])
  \/ (sqlite_ok env (tick st) = true
      /\ exists ready s1 e1,
           obtain_credential_at_startup env (next_tick st)
           = (Ok ready, s1, e1)
           /\ ((ready = false /\ r = Ok None /\ st' = s1 /\ evs = e1)
               \/ (ready = true
                   /\ exists b e2,
                        trading_loop env cfg shutdown rounds s1
                        = (Ok b, st', e2)
                        /\ r = Ok (Some b) /\ evs = e1 ++ e2))).
Proof.
  unfold monitor_and_trade. unfold bind at 1. rewrite setup_database_run.
  destruct (sqlite_ok env (tick st)) eqn:Hdb;
    [|intros [= <- <- <-]; by left].
  intros H. right. split; [done|]. cbn [app] in H.
  destruct (obtain_credential_at_startup env (next_tick st))
    as [[ro s1] e1] eqn:E1.
  assert (exists ready, ro = Ok ready) as [ready ->].
  { destruct (obtain_credential_at_startup_run env (next_tick st))
      as [Hyes Hno].
    destruct (truthy (API_KEY_RUGCHECK (next_tick st))) eqn:Hk.
    - rewrite (Hyes eq_refl) in E1. inversion E1. eauto.
    - destruct (Hno eq_refl) as (tok & _ & Hrun).
      rewrite Hrun in E1. inversion E1. eauto. }
  exists ready, s1, e1. split; [done|].
  unfold bind in H. rewrite E1 in H.
  destruct ready.
  - right. split; [done|].
    destruct (trading_loop_returns shutdown rounds s1) as (b & s2 & e2 & E2).
    rewrite E2 in H. cbn in H. inversion H; subst.
    exists b, e2. by rewrite app_nil_r.
  - left. cbn in H. inversion H; subst. by rewrite app_nil_r.
Qed.

(** Once the table statement of [setup_database] has gone through,
    nothing makes [monitor_and_trade] raise: every exception of an
    iteration is caught in the loop.  When that statement fails, the
    error leaves the function before anything else is done. *)
Theorem monitor_and_trade_raises_only_from_setup (shutdown : nat -> bool)
    (rounds : nat) (st : St) (r : Res (option bool)) (st' : St)
    (evs : list Event) :
  monitor_and_trade env cfg shutdown rounds st = (r, st', evs) ->
  (sqlite_ok env (tick st) = true -> exists o, r = Ok o)
  /\ (sqlite_ok env (tick st) = false ->
      r = Raise DatabaseError /\ evs = []
      /\ tokens_table st' = tokens_table st
      /\ API_KEY_RUGCHECK st' = API_KEY_RUGCHECK st).
Proof.
  intros H.
  apply monitor_and_trade_inv in H
    as [(Hdb & -> & -> & ->)|(Hdb & ready & s1 & e1 & _ & Hrest)];
    rewrite Hdb; split; try done.
  intros _.
  destruct Hrest as [(_ & -> & _)|(_ & b & e2 & _ & -> & _)]; eauto.
Qed.

(** When no credential is configured and the login yields none,
    [monitor_and_trade] returns without entering the loop, however
    many rounds could follow: the login is the only call made, the
    table is untouched. *)
Theorem no_credential_no_trading (shutdown : nat -> bool) (rounds : nat)
    (st : St) (tok : string) (s1 : St) (e1 : list Event) :
  sqlite_ok env (tick st) = true ->
  truthy (API_KEY_RUGCHECK st) = false ->
  get_rugcheck_api_token env (next_tick st) = (Ok tok, s1, e1) ->
  truthy (Some tok) = false ->
  exists st',
    monitor_and_trade env cfg shutdown rounds st = (Ok None, st', [CallLogin])
    /\ tokens_table st' = tokens_table st
    /\ truthy (API_KEY_RUGCHECK st') = false.
Proof.
  intros Hdb Hkey Htok Hempty.
  destruct (obtain_credential_at_startup_run env (next_tick st))
    as [_ Hno].
  destruct (Hno Hkey) as (tok' & Htok' & Hrun).
  rewrite Htok in Htok'. inversion Htok'; subst tok' s1 e1.
  rewrite Hempty in Hrun.
  exists (set_api_key (Some tok) (next_tick (next_tick st))).
  split; [|by split].
  unfold monitor_and_trade. unfold bind at 1. rewrite setup_database_run, Hdb.
  by rewrite (bind_ok _ _ _ _ _ _ Hrun).
Qed.

(** Over a whole run at most one login is made, and none when a
    credential is configured at the start, in which case the credential
    is the same at the end. *)
Theorem run_logs_in_at_most_once (shutdown : nat -> bool) (rounds : nat)
    (st : St) (r : Res (option bool)) (st' : St) (evs : list Event) :
  monitor_and_trade env cfg shutdown rounds st = (r, st', evs) ->
  (logins_of evs <= 1)%nat
  /\ (truthy (API_KEY_RUGCHECK st) = true ->
      logins_of evs = 0%nat
      /\ API_KEY_RUGCHECK st' = API_KEY_RUGCHECK st).
Proof.
  intros H.
  apply monitor_and_trade_inv in H
    as [(Hdb & -> & -> & ->)|(Hdb & ready & s1 & e1 & Hstart & Hrest)];
    [by split; [cbn; lia|]|].
  destruct (obtain_credential_at_startup_run env (next_tick st))
    as [Hyes Hno].
  assert (Hloop : forall b s2 e2,
    truthy (API_KEY_RUGCHECK s1) = true ->
    trading_loop env cfg shutdown rounds s1 = (Ok b, s2, e2) ->
    logins_of e2 = 0%nat /\ API_KEY_RUGCHECK s2 = API_KEY_RUGCHECK s1).
  { intros b s2 e2 Hk E2.
    destruct (trading_loop_frame same_key no_login has_key shutdown rounds
                (iteration_keeps_key env cfg) _ _ _ _ Hk E2) as [Hs Hq].
    split; [by apply logins_of_no_login|done]. }
  destruct (truthy (API_KEY_RUGCHECK st)) eqn:Hkey.
  - rewrite (Hyes Hkey) in Hstart. inversion Hstart; subst ready s1 e1.
    destruct Hrest as [([=] & _)|(_ & b & e2 & E2 & -> & ->)].
    destruct (Hloop _ _ _ Hkey E2) as [Hl Hk].
    cbn [app]. rewrite Hl. repeat split; try lia. done.
  - destruct (Hno Hkey) as (tok & _ & Hrun).
    rewrite Hrun in Hstart. inversion Hstart; subst ready s1 e1.
    split; [|done].
    destruct Hrest as [(_ & _ & _ & ->)|(Htok & b & e2 & E2 & -> & ->)];
      [cbn; lia|].
    destruct (Hloop _ _ _ Htok E2) as [Hl _].
    cbn. rewrite Hl. lia.
Qed.

(** Whatever a run goes through, the table keeps one row per token
    address: a buy replaces the row of its token, a sell changes a
    quantity, nothing else writes. *)
Theorem run_keeps_one_row_per_token (shutdown : nat -> bool) (rounds : nat)
    (st : St) (r : Res (option bool)) (st' : St) (evs : list Event) :
  List.NoDup (keys (tokens_table st)) ->
  monitor_and_trade env cfg shutdown rounds st = (r, st', evs) ->
  List.NoDup (keys (tokens_table st')).
Proof.
  intros Hnd H.
  assert (Hf : frames any_state keeps_keys_unique (fun _ => True)
                 (monitor_and_trade env cfg shutdown rounds)).
  { unfold monitor_and_trade, setup_database, obtain_credential_at_startup,
      get_rugcheck_api_token.
    repeat shape_step.
    apply trading_loop_frame; [exact _|].
    apply iteration_keeps_keys_unique. }
  destruct (Hf _ _ _ _ Logic.I H) as [Hk _]. by apply Hk.
Qed.

(** No cache entry is ever removed in a run: the keys present at the
    start are present at the end (stale entries stay until they are
    overwritten). *)
Theorem run_never_drops_a_cache_entry (shutdown : nat -> bool) (rounds : nat)
    (st : St) (r : Res (option bool)) (st' : St) (evs : list Event) :
  monitor_and_trade env cfg shutdown rounds st = (r, st', evs) ->
  dom (cache_analytics st) ⊆ dom (cache_analytics st')
  /\ dom (cache_trends st) ⊆ dom (cache_trends st').
Proof.
  intros H.
  assert (Hf : frames any_state keeps_cache_keys (fun _ => True)
                 (monitor_and_trade env cfg shutdown rounds)).
  { unfold monitor_and_trade, setup_database, obtain_credential_at_startup,
      get_rugcheck_api_token.
    repeat shape_step.
    apply trading_loop_frame; [exact _|].
    apply iteration_keeps_cache_keys. }
  by destruct (Hf _ _ _ _ Logic.I H) as [Hk _].
Qed.
End MainLoopFacts.

(** ** The buy phase *)

Lemma bind_assoc {A B C} (m : M A) (f : A -> M B) (g : B -> M C) st :
  bind (bind m f) g st = bind m (fun x => bind (f x) g) st.
Proof.
  unfold bind. destruct (m st) as [[[a|e] s1] e1]; [|done].
  destruct (f a s1) as [[[b|e] s2] e2]; [|done].
  destruct (g b s2) as [[r s3] e3]. by rewrite app_assoc.
Qed.

Lemma bind_ext {A B} (m : M A) (f g : A -> M B) st :
  (forall a s, f a s = g a s) -> bind m f st = bind m g st.
Proof.
  intros H. unfold bind. destruct (m st) as [[[a|e] s1] e1]; [|done].
  by rewrite H.
Qed.

Lemma sells_of_no_sell a evs : Forall no_sell evs -> sells_of a evs = [].
Proof. induction 1 as [|e evs He _ IH]; [done|]. by destruct e. Qed.

#[export] Instance frame_unrelated : Frame any_state unrelated.
Proof. by split. Qed.

Section BuyPhase.
Variable env : Env.
Variable cfg : Settings.

Lemma execute_buy_no_sell ts amount :
  frames any_state unrelated no_sell (execute_buy env cfg ts amount).
Proof.
  intros st r st' evs _ H.
  destruct (execute_buy_entry env cfg ts amount st)
    as (rb & sb & eb & Eb & Hq & _).
  rewrite Eb in H. inversion H; subst. split; [done|].
  constructor; [done|].
  eapply Forall_impl; [exact Hq|]. by intros [] [? ?].
Qed.

Lemma consider_token_no_sell trends token :
  frames any_state unrelated no_sell (consider_token env cfg trends token).
Proof.
  unfold consider_token. repeat frame_step.
  - eapply frames_weaken; [| | |apply (analyze_token_frame env cfg)];
      try done.
    by intros [].
  - apply execute_buy_no_sell.
Qed.

Lemma buy_phase_no_sell :
  frames any_state unrelated no_sell (buy_phase env cfg).
Proof.
  unfold buy_phase. repeat frame_step.
  - eapply frames_weaken; [| | |apply (fetch_new_tokens_frame env)];
      try done.
    by intros [] [? ?].
  - eapply frames_weaken; [| | |apply (fetch_market_trends_frame env cfg)];
      try done.
    by intros [] [? ?].
  - apply consider_token_no_sell.
Qed.

(** The buy executor is entered only for discovered candidates, in the
    order of discovery and at most once per occurrence in the list;
    the loop over the candidates never enters the sell executor.  This
    holds as well when the loop is cut short by an exception. *)
Theorem candidates_loop_buys_only_candidates (trends : gmap string Q)
    (tokens : list Candidate) (st : St) (r : Res unit) (st' : St)
    (evs : list Event) :
  for_each (consider_token env cfg trends) tokens st = (r, st', evs) ->
  sublist (buys_of evs) (List.map c_address tokens)
  /\ forall a, sells_of a evs = [].
Proof.
  intros H. split.
  - revert st r st' evs H.
    induction tokens as [|token tokens IH]; intros st r st' evs H.
    + by inversion H.
    + cbn [for_each List.map] in *.
      assert (Hone : forall r1 s1 e1,
        consider_token env cfg trends token st = (r1, s1, e1) ->
        buys_of e1 = [] \/ buys_of e1 = [c_address token]).
      { intros r1 s1 e1 E. apply consider_token_buys in E. rewrite E.
        destruct (analyze_token _ _ _ _ _).1.1 as [[ts|]|]; auto.
        destruct (buy_gates cfg _); auto. }
      apply bind_inv in H
        as [(e & E & _)|(u & s1 & e1 & e2 & E1 & E2 & ->)].
      * destruct (Hone _ _ _ E) as [->| ->].
        -- apply sublist_nil_l.
        -- apply sublist_skip, sublist_nil_l.
      * rewrite buys_of_app. apply IH in E2.
        destruct (Hone _ _ _ E1) as [->| ->]; cbn.
        -- by apply sublist_cons.
        -- by apply sublist_skip.
  - intros a. apply sells_of_no_sell.
    assert (Hf : frames any_state unrelated no_sell
                   (for_each (consider_token env cfg trends) tokens)).
    { apply frames_for_each; [exact _|]. intros x.
      apply consider_token_no_sell. }
    by destruct (Hf _ _ _ _ Logic.I H).
Qed.

(** An iteration is the buy phase followed by the sell phase, and it
    always ends normally.  When the buy phase raises (discovery or
    trends cannot be fetched, or the analysis of a candidate raises),
    the sell phase is skipped: no position is probed or sold in that
    iteration.  When it returns, the sell phase runs from the state it
    left, and an exception there ends the iteration just the same. *)
Theorem iteration_is_buy_phase_then_sell_phase (st : St) (rb : Res unit)
    (s1 : St) (e1 : list Event) :
  buy_phase env cfg st = (rb, s1, e1) ->
  (forall a, sells_of a e1 = [])
  /\ ((exists e, rb = Raise e) ->
      iteration env cfg st = (Ok tt, s1, e1))
  /\ (rb = Ok tt ->
      forall rs s2 e2,
        sell_phase env cfg s1 = (rs, s2, e2) ->
        iteration env cfg st = (Ok tt, s2, e1 ++ e2)).
Proof.
  intros Hb.
  assert (Hit : forall s,
    iteration env cfg s
    = try_except (buy_phase env cfg ;;; sell_phase env cfg)
        (fun _ => ret tt) s).
  { intros s. unfold iteration, try_except, buy_phase.
    rewrite bind_assoc.
    erewrite bind_ext; [reflexivity|].
    intros tokens s0. cbn beta. by rewrite bind_assoc. }
  split; [|split].
  - intros a. apply sells_of_no_sell.
    by destruct (buy_phase_no_sell _ _ _ _ Logic.I Hb).
  - intros [e ->]. rewrite Hit. unfold try_except.
    rewrite (bind_raise _ _ _ _ _ _ Hb). cbn. by rewrite app_nil_r.
  - intros -> rs s2 e2 Hs. rewrite Hit. unfold try_except.
    rewrite (bind_ok _ _ _ _ _ _ Hb), Hs.
    destruct rs as [[]|e]; cbn; [done|by rewrite app_nil_r].
Qed.
End BuyPhase.

(** ** Retried calls and the cache *)

#[export] Instance frame_same_analytics_cache :
  Frame any_state same_analytics_cache.
Proof.
  split; unfold same_analytics_cache, any_state; intros; cbn; congruence || done.
Qed.

(** What a retried call comes to: its last attempt, reached through
    attempts that failed with [ClientError]; or [RetryError] after such
    attempts only. *)
Lemma retry_last_attempt {A} (R : St -> St -> Prop) `{!Frame any_state R}
    n (m : M A) st r st' evs :
  (forall s s' e, m s = (Raise ClientError, s', e) -> R s s') ->
  retry n m st = (r, st', evs) ->
  (exists s0 pre e0,
     R st s0 /\ m s0 = (r, st', e0) /\ evs = pre ++ e0
     /\ r <> Raise ClientError)
  \/ (r = Raise RetryError /\ R st st').
Proof.
  intros Hfail. revert st evs.
  induction n as [|n IH]; intros st evs.
  - intros [= <- <- <-]. right. split; [done|apply frame_refl].
  - rewrite retry_S.
    destruct (m st) as [[r1 s1] e1] eqn:E1.
    assert (Hdone : r1 <> Raise ClientError ->
      (r1, s1, e1) = (r, st', evs) ->
      (exists s0 pre e0,
         R st s0 /\ m s0 = (r, st', e0) /\ evs = pre ++ e0
         /\ r <> Raise ClientError)
      \/ (r = Raise RetryError /\ R st st')).
    { intros Hne [= <- <- <-]. left. exists st, [], e1.
      repeat split; [apply frame_refl|done..]. }
    destruct r1 as [a|e]; [by apply Hdone|].
    destruct e; try by apply Hdone.
    destruct (retry n m s1) as [[r2 s2] e2] eqn:E2. intros [= <- <- <-].
    pose proof (Hfail _ _ _ E1) as HR1.
    destruct (IH _ _ E2) as [(s0 & pre & e0 & HR & Hm & -> & Hne)|[-> HR]].
    + left. exists s0, (e1 ++ pre), e0.
      repeat split; [by eapply frame_trans|done|by rewrite app_assoc|done].
    + right. split; [done|by eapply frame_trans].
Qed.

Section AnalyticsCache.
Variable env : Env.
Variable cfg : Settings.

(** One run of the body of [fetch_token_analytics]. *)
Lemma fetch_token_analytics_once addr s r s' e :
  (cached <- get_cached_analytics env cfg ("analytics_" ++ addr)%string ;;
   match cached with
   | Some a => ret (Some a)
   | None =>
       resp <- ask (fun t => analytics_endpoint env t addr) ;;
       data <- http resp ;;
       match data with
       | Some validated =>
           set_cached_analytics env ("analytics_" ++ addr)%string validated ;;;
           ret (Some validated)
       | None => ret None
       end
   end) s = (r, s', e) ->
  e = []
  /\ match r with
     | Ok (Some a) =>
         exists en, cache_analytics s' !! ("analytics_" ++ addr)%string = Some en
                    /\ data en = a
     | _ => cache_analytics s' = cache_analytics s
     end.
Proof.
  unfold get_cached_analytics, set_cached_analytics, get_cached_data,
    set_cached_data, bind, gets, ask, modify, http, ret, raise.
  destruct (cache_analytics s !! ("analytics_" ++ addr)%string) as [en|] eqn:Hc; cbn.
  - destruct (Qltb _ _); cbn.
    + intros [= <- <- <-]. split; [done|]. by exists en.
    + destruct (analytics_endpoint env (S (tick s)) addr) as [[v|]| |]; cbn;
        intros [= <- <- <-]; (split; [done|]); try done.
      cbn. eexists. by rewrite lookup_insert_eq.
  - destruct (analytics_endpoint env (tick s) addr) as [[v|]| |]; cbn;
      intros [= <- <- <-]; (split; [done|]); try done.
    cbn. eexists. by rewrite lookup_insert_eq.
Qed.

Lemma fetch_token_analytics_emits_nothing addr st r st' evs :
  fetch_token_analytics env cfg addr st = (r, st', evs) -> evs = [].
Proof.
  intros H.
  assert (Hf : frames any_state unrelated (fun _ => False)
                 (fetch_token_analytics env cfg addr)).
  { unfold fetch_token_analytics, get_cached_analytics, set_cached_analytics.
    repeat shape_step. }
  destruct (Hf _ _ _ _ Logic.I H) as [_ Hq].
  destruct evs as [|e evs]; [done|]. by inversion Hq.
Qed.

(** Analytics that were fetched are in the cache, and they are served
    from there: after a successful [fetch_token_analytics] the entry of
    the token holds the returned analytics, and as long as that entry
    is in place and younger than the expiry, another call returns the
    same analytics after reading the clock, whatever the analytics
    service would answer. *)
Theorem fetched_analytics_are_served_from_cache (addr : string) (st : St)
    (a : TokenAnalytics) (st1 : St) (evs : list Event) :
  fetch_token_analytics env cfg addr st = (Ok (Some a), st1, evs) ->
  exists en,
    cache_analytics st1 !! ("analytics_" ++ addr)%string = Some en
    /\ data en = a
    /\ forall s,
         cache_analytics s !! ("analytics_" ++ addr)%string = Some en ->
         (time_time env (tick s) - timestamp en
          < inject_Z (CACHE_EXPIRY cfg))%Q ->
         fetch_token_analytics env cfg addr s
         = (Ok (Some a), next_tick s, []).
Proof.
  unfold fetch_token_analytics, with_retry. intros H.
  apply (retry_last_attempt unrelated) in H
    as [(s0 & pre & e0 & _ & Hm & _ & _)|[[=] _]]; [|done].
  apply fetch_token_analytics_once in Hm as [_ (en & Hen & Ha)].
  exists en. repeat split; [done..|].
  intros s Hs Hfresh. rewrite retry_S.
  unfold get_cached_analytics, get_cached_data, bind, gets, ask, ret.
  rewrite Hs. cbn. rewrite ?Hs. cbn.
  apply Qltb_lt in Hfresh. rewrite Hfresh. cbn. by rewrite Ha.
Qed.

(** A payload that fails validation is not cached, and the token is
    dropped at once: [analyze_token] returns [None] without fetching
    decimals, without a reputation request and without a login. *)
Theorem unvalidated_analytics_drop_the_token (addr nm : string) (st : St)
    (st1 : St) (evs : list Event) :
  fetch_token_analytics env cfg addr st = (Ok None, st1, evs) ->
  cache_analytics st1 = cache_analytics st
  /\ analyze_token env cfg addr nm st = (Ok None, st1, [])
  /\ API_KEY_RUGCHECK st1 = API_KEY_RUGCHECK st.
Proof.
  intros H.
  pose proof (fetch_token_analytics_emits_nothing _ _ _ _ _ H) as ->.
  destruct (fetch_token_analytics_frame env cfg addr _ _ _ _ Logic.I H)
    as [[_ Hk] _].
  split; [|split; [|done]].
  - revert H. unfold fetch_token_analytics, with_retry. intros H.
    apply (retry_last_attempt same_analytics_cache) in H
      as [(s0 & pre & e0 & HR & Hm & _ & _)|[[=] _]].
    + apply fetch_token_analytics_once in Hm as [_ Hc].
      unfold same_analytics_cache in HR. congruence.
    + intros s s' e Hm. by apply fetch_token_analytics_once in Hm as [_ Hc].
  - unfold analyze_token. by rewrite (bind_ok _ _ _ _ _ _ H).
Qed.
End AnalyticsCache.

(** ** Trend scores *)

Lemma trend_scores_app l1 l2 acc :
  trend_scores (l1 ++ l2) acc
  = match trend_scores l1 acc with
    | Ok m1 => trend_scores l2 m1
    | Raise e => Raise e
    end.
Proof.
  revert acc. induction l1 as [|it l1 IH]; intros acc; [done|].
  cbn. destruct (tr_address it); [|done].
  destruct (item_score it); [apply IH|done].
Qed.

Lemma trend_scores_absent items acc m (a : string) :
  trend_scores items acc = Ok m ->
  (forall it, In it items -> tr_address it <> Some a) ->
  m !! a = acc !! a.
Proof.
  revert acc. induction items as [|it items IH]; intros acc H Hno.
  - by inversion H.
  - cbn in H. destruct (tr_address it) as [b|] eqn:Hb; [|done].
    destruct (item_score it) as [q|e]; [|done].
    rewrite (IH _ H); [|intros it' Hin; apply Hno; by right].
    apply lookup_insert_ne. intros ->. by apply (Hno it); [left|].
Qed.

Lemma item_score_raises it e :
  item_score it = Raise e ->
  e = TypeError \/ e = ValueError \/ e = OtherError.
Proof.
  unfold item_score.
  destruct (default (JNumber 0) (tr_trend_score it)); cbn; intros [= <-];
    auto.
Qed.

Lemma trend_scores_ok_iff items acc :
  Forall (fun it => tr_address it <> None /\ exists q, item_score it = Ok q)
    items
  <-> exists m, trend_scores items acc = Ok m.
Proof.
  revert acc. induction items as [|it items IH]; intros acc.
  - split; [by eexists|constructor].
  - cbn. destruct (tr_address it) as [b|] eqn:Hb.
    + destruct (item_score it) as [q|e] eqn:Hq.
      * rewrite <- IH. split.
        -- by inversion 1.
        -- intros H. constructor; [|done]. split; [by rewrite Hb|by exists q].
      * split; [|by intros [m [=]]].
        inversion 1 as [|? ? [_ [q Hq']] _]. congruence.
    + split; [|by intros [m [=]]].
      inversion 1 as [|? ? [Hne _] _]. congruence.
Qed.

Lemma trend_scores_raise items acc e :
  trend_scores items acc = Raise e ->
  exists l1 it l2,
    items = l1 ++ it :: l2
    /\ Forall (fun it' => tr_address it' <> None
                          /\ exists q, item_score it' = Ok q) l1
    /\ (tr_address it = None /\ e = KeyError
        \/ tr_address it <> None /\ item_score it = Raise e).
Proof.
  revert acc. induction items as [|it items IH]; intros acc; [done|].
  cbn. destruct (tr_address it) as [b|] eqn:Hb.
  - destruct (item_score it) as [q|e'] eqn:Hq.
    + intros H. destruct (IH _ H) as (l1 & it1 & l2 & -> & Hl1 & Hit).
      exists (it :: l1), it1, l2. split; [done|]. split; [|done].
      constructor; [|done]. split; [by rewrite Hb|by exists q].
    + intros [= <-]. exists [], it, items. split; [done|].
      split; [constructor|]. right. by rewrite Hb.
  - intros [= <-]. exists [], it, items. split; [done|].
    split; [constructor|]. by left.
Qed.

(** The dictionary built from [trending_tokens].  It is built exactly
    when every item has an address and a score that [float()] accepts
    (a missing score counts as 0).  Otherwise the comprehension raises
    at the first item that fails: [KeyError] when that item has no
    address, and else what [float()] raises on its score, [TypeError],
    [ValueError] or [OverflowError].  In the dictionary an address that
    occurs has the score of its last occurrence, and an address that
    does not occur is not a key. *)
Theorem trend_scores_dictionary (items : list TrendItem) :
  (Forall (fun it => tr_address it <> None
                     /\ exists q, item_score it = Ok q) items
   <-> exists m, trend_scores items ∅ = Ok m)
  /\ (forall e, trend_scores items ∅ = Raise e ->
      (e = KeyError \/ e = TypeError \/ e = ValueError \/ e = OtherError)
      /\ exists l1 it l2,
           items = l1 ++ it :: l2
           /\ Forall (fun it' => tr_address it' <> None
                                 /\ exists q, item_score it' = Ok q) l1
           /\ (tr_address it = None /\ e = KeyError
               \/ tr_address it <> None /\ item_score it = Raise e))
  /\ (forall m, trend_scores items ∅ = Ok m ->
      (forall a : string,
         (forall it, In it items -> tr_address it <> Some a) ->
         m !! a = None)
      /\ (forall l1 it l2 (a : string),
            items = l1 ++ it :: l2 ->
            tr_address it = Some a ->
            (forall it', In it' l2 -> tr_address it' <> Some a) ->
            exists q, item_score it = Ok q /\ m !! a = Some q)).
Proof.
  split; [apply trend_scores_ok_iff|]. split.
  - intros e H.
    destruct (trend_scores_raise _ _ _ H)
      as (l1 & it & l2 & Hitems & Hl1 & Hit).
    split; [|by exists l1, it, l2].
    destruct Hit as [[_ ->]|[_ Hs]]; [by left|].
    right. by apply (item_score_raises it).
  - intros m H. split.
    + intros a Hno. by rewrite (trend_scores_absent _ _ _ _ H Hno).
    + intros l1 it l2 a -> Ha Hlast.
      rewrite trend_scores_app in H.
      destruct (trend_scores l1 ∅) as [m1|e]; [|done].
      cbn in H. rewrite Ha in H.
      destruct (item_score it) as [q|e]; [|done].
      exists q. split; [done|].
      rewrite (trend_scores_absent _ _ _ _ H Hlast).
      apply lookup_insert_eq.
Qed.

Section Trends.
Variable env : Env.
Variable cfg : Settings.

(** The trends entry of the cache is served only when it is a
    non-empty dictionary: a fresh non-empty entry is returned after
    reading the clock, with no request; a fresh empty one is falsy and
    the trends are requested again and stored. *)
Theorem trends_cache_serves_only_nonempty (st : St)
    (en : CacheEntry (gmap string Q)) :
  cache_trends st !! "trends" = Some en ->
  (time_time env (tick st) - timestamp en < inject_Z (CACHE_EXPIRY cfg))%Q ->
  (data en <> ∅ ->
     fetch_market_trends env cfg st = (Ok (data en), next_tick st, []))
  /\ (data en = ∅ ->
      forall items m,
        trends_endpoint env (S (tick st)) = Response (Some items) ->
        trend_scores items ∅ = Ok m ->
        exists st',
          fetch_market_trends env cfg st = (Ok m, st', [])
          /\ cache_trends st' !! "trends"
             = Some (mkEntry m (time_time env (S (S (tick st)))))).
Proof.
  intros Hc Hfresh. apply Qltb_lt in Hfresh.
  unfold fetch_market_trends, with_retry. rewrite retry_S.
  unfold get_cached_trends, set_cached_trends, get_cached_data,
    set_cached_data, nonempty_dict, bind, gets, ask, modify, http, lift, ret.
  rewrite Hc. cbn. rewrite ?Hc. cbn. rewrite Hfresh. cbn.
  split.
  - intros Hne. by rewrite bool_decide_eq_false_2.
  - intros Hempty items m Hresp Hscores.
    rewrite bool_decide_eq_true_2 by done. cbn.
    rewrite Hresp. cbn. rewrite Hscores. cbn.
    eexists. split; [reflexivity|]. cbn. by rewrite lookup_insert_eq.
Qed.

(** With a positive trend-score minimum, the loop over the candidates
    buys only tokens that the trend mapping lists with a score of at
    least the minimum.  In particular nothing is bought when the
    mapping is empty, as it is after a trends payload that failed
    validation. *)
Theorem only_trending_tokens_are_bought (trends : gmap string Q)
    (tokens : list Candidate) (st : St) (r : Res unit) (st' : St)
    (evs : list Event) :
  (0 < TREND_SCORE_MIN cfg)%Q ->
  for_each (consider_token env cfg trends) tokens st = (r, st', evs) ->
  (forall a, In a (buys_of evs) ->
     exists q, trends !! a = Some q /\ (TREND_SCORE_MIN cfg <= q)%Q)
  /\ (trends = ∅ -> buys_of evs = []).
Proof.
  intros Hmin H.
  assert (Hall : forall a, In a (buys_of evs) ->
     exists q, trends !! a = Some q /\ (TREND_SCORE_MIN cfg <= q)%Q).
  { revert st r st' evs H.
    induction tokens as [|token tokens IH]; intros st r st' evs H a Hin.
    - by inversion H; subst.
    - cbn [for_each] in H.
      assert (Hone : forall r1 s1 e1,
        consider_token env cfg trends token st = (r1, s1, e1) ->
        In a (buys_of e1) ->
        exists q, trends !! a = Some q /\ (TREND_SCORE_MIN cfg <= q)%Q).
      { intros r1 s1 e1 E Hin1. apply consider_token_buys in E.
        rewrite E in Hin1.
        destruct (analyze_token _ _ _ _ _).1.1 as [[ts|]|]; try done.
        destruct (buy_gates cfg _) eqn:Hg; [|done].
        destruct Hin1 as [<-|[]].
        apply buy_gates_spec in Hg as (_ & _ & _ & Hg & _). cbn in Hg.
        destruct (trends !! c_address token) as [q|]; [by exists q|].
        cbn in Hg. exfalso. exact (Qlt_not_le _ _ Hmin Hg). }
      apply bind_inv in H
        as [(e & E & _)|(u & s1 & e1 & e2 & E1 & E2 & ->)].
      + by eapply Hone.
      + rewrite buys_of_app in Hin. apply List.in_app_or in Hin as [Hin|Hin].
        * by eapply Hone.
        * by eapply IH. }
  split; [exact Hall|].
  intros ->. destruct (buys_of evs) as [|a l] eqn:Hb; [done|].
  destruct (Hall a) as (q & Hq & _); [by left|].
  by rewrite lookup_empty in Hq.
Qed.
End Trends.

(** ** The analyzer *)

Section Analyzer.
Variable env : Env.
Variable cfg : Settings.

Lemma validate_once_true addr s s' e :
  validate_token_rugcheck_once env addr s = (Ok true, s', e) ->
  truthy (API_KEY_RUGCHECK s') = true
  /\ In (CallRugcheck addr (default "" (API_KEY_RUGCHECK s'))) e.
Proof.
  unfold validate_token_rugcheck_once, get_rugcheck_api_token,
    bind, gets, emit, ask, modify, http, ret, raise.
  destruct (truthy (API_KEY_RUGCHECK s)) eqn:Hk; cbn.
  - destruct (rugcheck_endpoint env (tick s) addr _) as [d| |]; cbn;
      intros [= _ <- <-]; cbn; split; [done|by left].
  - destruct (login_endpoint env (tick s)) as [tok| |]; cbn.
    + destruct (negb (String.eqb (default "" tok) "")) eqn:Ht; cbn;
        [|by intros [=]].
      destruct (rugcheck_endpoint env (S (tick s)) addr _) as [d| |]; cbn;
        intros [= _ <- <-]; cbn; split; [done|right; by left].
    + by intros [=].
    + by intros [=].
Qed.

(** A token survives the analysis only with validated analytics and
    after a reputation request made with a credential, which is in
    place afterwards.  The state returned is a fresh one: the address
    and name given, the decimals that [get_token_decimals] returned
    (the mint's, or 6 when the lookup fails), the analytics that
    [fetch_token_analytics] returned copied in, the risk scored from
    them, and trend score, cost basis and holdings all 0, whatever
    the table holds for the token. *)
Theorem analyzed_token_is_fresh_and_checked (addr nm : string) (st : St)
    (ts : TokenState) (st1 : St) (evs : list Event) :
  analyze_token env cfg addr nm st = (Ok (Some ts), st1, evs) ->
  (exists a s1 e1 dec s2 e2 e3,
     fetch_token_analytics env cfg addr st = (Ok (Some a), s1, e1)
     /\ get_token_decimals env addr s1 = (Ok dec, s2, e2)
     /\ dec = default 6%Z (get_mint_info env (tick s1) addr)
     /\ validate_token_rugcheck env addr s2 = (Ok true, st1, e3)
     /\ evs = e1 ++ e2 ++ e3
     /\ ts = update_scam_risk cfg
               (update_analytics a (TokenState_init addr nm dec))
     /\ volume ts = a_volume_24h a
     /\ liquidity ts = a_liquidity a
     /\ tx_count ts = a_tx_count_24h a
     /\ decimals ts = dec)
  /\ token_address ts = addr /\ name ts = nm
  /\ holdings ts = 0%Q /\ buy_price ts = 0%Q /\ trend_score ts = 0%Q
  /\ truthy (API_KEY_RUGCHECK st1) = true
  /\ In (CallRugcheck addr (default "" (API_KEY_RUGCHECK st1))) evs.
Proof.
  unfold analyze_token. intros H.
  apply bind_inv in H as [(e & _ & [=])|(a & s1 & e1 & e2 & Hf & H & ->)].
  destruct a as [a|]; [|by inversion H].
  apply bind_inv in H as [(e & _ & [=])|(dec & s2 & e3 & e4 & Hd & H & ->)].
  apply bind_inv in H as [(e & _ & [=])|(good & s3 & e5 & e6 & Hv & H & ->)].
  destruct good; inversion H; subst; clear H.
  assert (Hdec : dec = default 6%Z (get_mint_info env (tick s1) addr)).
  { unfold get_token_decimals, bind, ask, ret in Hd. cbn in Hd.
    by inversion Hd. }
  assert (Hv' := Hv).
  unfold validate_token_rugcheck, with_retry in Hv'.
  apply (retry_last_attempt unrelated) in Hv'
    as [(s0 & pre & e0 & _ & Hm & -> & _)|[[=] _]]; [|done].
  apply validate_once_true in Hm as [Hk Hin].
  split.
  - exists a, s1, e1, dec, s2, e3, (pre ++ e0).
    rewrite app_nil_r. by repeat split.
  - repeat split; try done.
    rewrite app_nil_r. apply List.in_or_app. right.
    apply List.in_or_app. right. apply List.in_or_app. by right.
Qed.
End Analyzer.

(** ** Risk score and gates together *)

Lemma Qhalf_le (x : Q) : (0 <= x -> x / 2 <= x)%Q.
Proof.
  intros H. apply Qle_shift_div_r; [reflexivity|].
  destruct x as [n d]. unfold Qle in *. cbn in *. nia.
Qed.

(** With non-negative liquidity and tx-count thresholds, the liquidity
    and tx-count penalties never bear on a purchase: a state that passes
    the gates has liquidity and tx count at or above the thresholds, so
    neither lies below half its threshold, and its risk score is made
    of the sniper and insider penalties alone. *)
Theorem gates_leave_only_sniper_and_insider_penalties (cfg : Settings)
    (ts : TokenState) (trend : Q) :
  (0 <= LIQUIDITY_THRESHOLD cfg)%Q ->
  (0 <= TX_COUNT_THRESHOLD cfg)%Z ->
  buy_gates cfg (set_trend_score trend (update_scam_risk cfg ts)) = true ->
  (scam_risk (update_scam_risk cfg ts)
   == penalty (Qltb 50 (sniper_activity ts)) 0.3
      + penalty (Qltb 10 (inject_Z (insider_trades ts))) 0.2)%Q.
Proof.
  intros Hliq Htx Hg.
  apply buy_gates_spec in Hg as (_ & Hl & Ht & _ & _). cbn in Hl, Ht.
  assert (Hl' : Qltb (liquidity ts) (LIQUIDITY_THRESHOLD cfg / 2) = false).
  { apply Qltb_ge. eapply Qle_trans; [by apply Qhalf_le|done]. }
  assert (Ht' : Qltb (inject_Z (tx_count ts))
                     (inject_Z (TX_COUNT_THRESHOLD cfg) / 2) = false).
  { apply Qltb_ge.
    assert (inject_Z (TX_COUNT_THRESHOLD cfg) <= inject_Z (tx_count ts))%Q
      by by rewrite <- Zle_Qle.
    assert (inject_Z 0 <= inject_Z (TX_COUNT_THRESHOLD cfg))%Q
      by by rewrite <- Zle_Qle.
    eapply Qle_trans; [by apply Qhalf_le|done]. }
  unfold update_scam_risk, risk_factors. cbn. rewrite Hl', Ht'.
  destruct (Qltb 50 (sniper_activity ts)),
           (Qltb 10 (inject_Z (insider_trades ts))); cbn; reflexivity.
Qed.

(** In binary64, with the weights of the source and the default maximum
    0.5, the risk gate decides every pattern of triggered factors as the
    exact sums do: rounding never moves a score across the maximum. *)
Theorem binary64_risk_gate_agrees_with_exact_sums (sniper insider liq tx : bool) :
  (scam_risk_binary64 [sniper; insider; liq; tx] <? 0.5)%float
  = Qltb (penalty sniper 0.3 + penalty insider 0.2
          + penalty liq 0.4 + penalty tx 0.1)
         (SCAM_RISK_MAX default_settings).
Proof. destruct sniper, insider, liq, tx; vm_compute; reflexivity. Qed.

(** * The further properties on the scenarios *)

Lemma get_swap_route_attempts_witness :
  let '(r, st', evs) :=
    get_swap_route (env_good_token 5) "A" "B" 7 (holding []) in
  exists n : nat,
    (1 <= n <= 3)%nat /\ evs = replicate n (CallSwapRoute "A" "B" 7).
Proof.
  destruct (get_swap_route (env_good_token 5) "A" "B" 7 (holding []))
    as [[r st'] evs] eqn:E.
  destruct (get_swap_route_attempts _ _ _ _ _ _ _ _ E) as (n & Hn & He & _).
  by exists n.
Defined.

Lemma execute_buy_true_iff_confirmed_witness :
  let '(r, st', evs) :=
    execute_buy (env_good_token 2000000) default_settings token_A 1
      (holding []) in
  exists b, r = Ok b.
Proof.
  destruct (execute_buy (env_good_token 2000000) default_settings token_A 1
              (holding [])) as [[r st'] evs] eqn:E.
  exact (proj1 (execute_buy_true_iff_confirmed _ _ _ _ _ _ _ _ E)).
Defined.

Lemma execute_sell_true_iff_confirmed_witness :
  let st := holding [position_A] in
  let '(r, st', evs) :=
    execute_sell (env_good_token 2000000) default_settings
      (state_of_row position_A) 100 st in
  (exists b, r = Ok b) /\ tokens_table st' = tokens_table st.
Proof.
  cbn zeta.
  destruct (execute_sell (env_good_token 2000000) default_settings
              (state_of_row position_A) 100 (holding [position_A]))
    as [[r st'] evs] eqn:E.
  destruct (execute_sell_true_iff_confirmed _ _ _ _ _ _ _ _ E)
    as (H1 & H2 & _).
  by split.
Defined.

Lemma buy_not_recorded_when_database_fails_witness :
  exists evs,
    execute_buy (env_database_down 2000000) default_settings token_A 1
      (holding [])
    = (Ok true, mkSt (Some "key") ∅ ∅ [] 4, evs).
Proof.
  destruct (buy_not_recorded_when_database_fails (env_database_down 2000000)
              default_settings token_A 1 (holding [])
              (route_data_paying 2000000) (mkSt (Some "key") ∅ ∅ [] 3) 2000000)
    as (evs & Hrun & _).
  - exists (mkSt (Some "key") ∅ ∅ [] 1),
      [CallSwapRoute (SOL_ADDRESS default_settings) "A" 1000000000],
      (RawTxObj (Some "tx")), "signed",
      (mkSt (Some "key") ∅ ∅ [] 2), [CallSubmit "signed"], "hash",
      [CallConfirm "hash"].
    repeat split; vm_compute; reflexivity.
  - reflexivity.
  - discriminate.
  - reflexivity.
  - by exists evs.
Defined.

Lemma sell_phase_changes_only_holdings_witness :
  let st := holding [position_A; position_B] in
  let '(r, st', evs) :=
    sell_phase (env_good_token 3000000) default_settings st in
  keys (tokens_table st') = ["A"; "B"] /\ buys_of evs = [].
Proof.
  cbn zeta.
  destruct (sell_phase (env_good_token 3000000) default_settings
              (holding [position_A; position_B])) as [[r st'] evs] eqn:E.
  destruct (sell_phase_changes_only_holdings _ _ _ _ _ _ E)
    as (_ & Hk & Hb & _).
  by split.
Defined.

Lemma sold_out_position_is_kept_and_not_probed_witness :
  let st := holding [position "A" 1 0; position_B] in
  let '(r, st', evs) :=
    sell_phase (env_good_token 3000000) default_settings st in
  row_of "A" (tokens_table st') = Some (position "A" 1 0).
Proof.
  cbn zeta.
  destruct (sell_phase (env_good_token 3000000) default_settings
              (holding [position "A" 1 0; position_B]))
    as [[r st'] evs] eqn:E.
  refine (proj2 (sold_out_position_is_kept_and_not_probed _ _ _
                   (position "A" 1 0) _ _ _ _ _ _ E)).
  - vm_compute. repeat constructor; intros Hin; cbn in Hin;
      intuition discriminate.
  - reflexivity.
  - vm_compute. discriminate.
Defined.

Lemma zero_cost_basis_aborts_sell_phase_witness :
  exists evs,
    sell_phase (env_good_token 2000000) default_settings
      (holding [position_Z; position_A])
    = (Raise ZeroDivisionError,
       mkSt (Some "key") ∅ ∅ [position_Z; position_A] 2, evs).
Proof.
  destruct (zero_cost_basis_aborts_sell_phase (env_good_token 2000000)
              default_settings (holding [position_Z; position_A]) position_Z
              [position_Z; position_A]
              (mkSt (Some "key") ∅ ∅ [position_Z; position_A] 1)
              (route_data_paying 2000000)
              (mkSt (Some "key") ∅ ∅ [position_Z; position_A] 2)
              [CallSwapRoute "Z" (SOL_ADDRESS default_settings) 1000]
              (inject_Z 2000000 / inject_Z (10 ^ 9))%Q)
    as (evs & Hrun & _).
  - reflexivity.
  - exists [], [position_A], []. split; vm_compute; reflexivity.
  - vm_compute. reflexivity.
  - reflexivity.
  - vm_compute. discriminate.
  - vm_compute. reflexivity.
  - by exists evs.
Defined.

Lemma monitor_and_trade_raises_only_from_setup_witness :
  let '(r, st', evs) :=
    monitor_and_trade (env_good_token 2000000) default_settings
      never_shutdown 2 (starting []) in
  exists o, r = Ok o.
Proof.
  destruct (monitor_and_trade (env_good_token 2000000) default_settings
              never_shutdown 2 (starting [])) as [[r st'] evs] eqn:E.
  apply (proj1 (monitor_and_trade_raises_only_from_setup _ _ _ _ _ _ _ _ E)).
  reflexivity.
Defined.

Lemma no_credential_no_trading_witness :
  exists st',
    monitor_and_trade env_no_credential default_settings never_shutdown 5
      (starting [position_A])
    = (Ok None, st', [CallLogin])
    /\ tokens_table st' = [position_A].
Proof.
  destruct (no_credential_no_trading env_no_credential default_settings
              never_shutdown 5 (starting [position_A]) ""
              (mkSt None ∅ ∅ [position_A] 2) [CallLogin])
    as (st' & Hrun & Ht & _).
  - reflexivity.
  - reflexivity.
  - vm_compute. reflexivity.
  - reflexivity.
  - by exists st'.
Defined.

Lemma run_logs_in_at_most_once_witness :
  let '(r, st', evs) :=
    monitor_and_trade (env_good_token 2000000) default_settings
      never_shutdown 3 (starting []) in
  (logins_of evs <= 1)%nat.
Proof.
  destruct (monitor_and_trade (env_good_token 2000000) default_settings
              never_shutdown 3 (starting [])) as [[r st'] evs] eqn:E.
  exact (proj1 (run_logs_in_at_most_once _ _ _ _ _ _ _ _ E)).
Defined.

Lemma run_keeps_one_row_per_token_witness :
  let '(r, st', evs) :=
    monitor_and_trade (env_good_token 2000000) default_settings
      never_shutdown 3 (starting [position_A; position_B]) in
  List.NoDup (keys (tokens_table st')).
Proof.
  destruct (monitor_and_trade (env_good_token 2000000) default_settings
              never_shutdown 3 (starting [position_A; position_B]))
    as [[r st'] evs] eqn:E.
  refine (run_keeps_one_row_per_token _ _ _ _ _ _ _ _ _ E).
  vm_compute. repeat constructor; intros Hin; cbn in Hin;
    intuition discriminate.
Defined.

Lemma run_never_drops_a_cache_entry_witness :
  let st := with_cached_trends trends_A in
  let '(r, st', evs) :=
    monitor_and_trade (env_good_token 2000000) default_settings
      never_shutdown 2 st in
  dom (cache_trends st) ⊆ dom (cache_trends st').
Proof.
  cbn zeta.
  destruct (monitor_and_trade (env_good_token 2000000) default_settings
              never_shutdown 2 (with_cached_trends trends_A))
    as [[r st'] evs] eqn:E.
  exact (proj2 (run_never_drops_a_cache_entry _ _ _ _ _ _ _ _ E)).
Defined.

Lemma candidates_loop_buys_only_candidates_witness :
  let '(r, st', evs) :=
    for_each (consider_token (env_good_token 2000000) default_settings trends_A)
      [candidate_A] (holding []) in
  sublist (buys_of evs) ["A"].
Proof.
  destruct (for_each (consider_token (env_good_token 2000000) default_settings
                        trends_A) [candidate_A] (holding []))
    as [[r st'] evs] eqn:E.
  exact (proj1 (candidates_loop_buys_only_candidates _ _ _ _ _ _ _ _ E)).
Defined.

Lemma iteration_is_buy_phase_then_sell_phase_witness :
  let '(rb, s1, e1) :=
    buy_phase env_rugcheck_rejects default_settings (holding [position_A]) in
  forall a, sells_of a e1 = [].
Proof.
  destruct (buy_phase env_rugcheck_rejects default_settings
              (holding [position_A])) as [[rb s1] e1] eqn:E.
  exact (proj1 (iteration_is_buy_phase_then_sell_phase _ _ _ _ _ _ E)).
Defined.

Lemma fetched_analytics_are_served_from_cache_witness :
  let '(r, st1, evs) :=
    fetch_token_analytics (env_good_token 2000000) default_settings "A"
      (holding []) in
  exists en,
    cache_analytics st1 !! "analytics_A" = Some en /\ data en = analytics_A.
Proof.
  destruct (fetch_token_analytics (env_good_token 2000000) default_settings
              "A" (holding [])) as [[r st1] evs] eqn:E.
  pose proof (f_equal (fun x => x.1.1) E) as Hr. cbn beta in Hr.
  vm_compute in Hr. subst r.
  destruct (fetched_analytics_are_served_from_cache _ _ _ _ _ _ _ E)
    as (en & Hen & Hdata & _).
  by exists en.
Defined.

Lemma unvalidated_analytics_drop_the_token_witness :
  let '(r, st1, evs) :=
    analyze_token env_B_times_out default_settings "A" "Token A" (holding []) in
  r = Ok None /\ evs = [].
Proof.
  destruct (fetch_token_analytics env_B_times_out default_settings "A"
              (holding [])) as [[r st1] evs] eqn:E.
  pose proof (f_equal (fun x => x.1.1) E) as Hr. cbn beta in Hr.
  vm_compute in Hr. subst r.
  destruct (unvalidated_analytics_drop_the_token env_B_times_out
              default_settings "A" "Token A" _ _ _ E) as (_ & -> & _).
  by split.
Defined.

Lemma trend_scores_dictionary_witness :
  (exists m : gmap string Q,
     trend_scores trending_items ∅ = Ok m
     /\ m !! "A" = Some 0.8%Q /\ m !! "B" = Some 0%Q /\ m !! "C" = None)
  /\ ~ (exists m, trend_scores trending_items_null_score ∅ = Ok m).
Proof.
  split.
  - destruct (trend_scores_dictionary trending_items) as (Hall & _ & Hm).
    destruct (proj1 Hall) as [m Hok].
    { repeat constructor; try discriminate; by eexists. }
    destruct (Hm m Hok) as [Habsent Hlast].
    exists m. split; [exact Hok|]. split; [|split].
    + destruct (Hlast [mkTrendItem (Some "A") (Some (JNumber 0.1));
                       mkTrendItem (Some "B") None]
                  (mkTrendItem (Some "A") (Some (JNumber 0.8))) [] "A")
        as (q & [= <-] & Hq); [reflexivity|reflexivity|by intros ? []|].
      exact Hq.
    + destruct (Hlast [mkTrendItem (Some "A") (Some (JNumber 0.1))]
                  (mkTrendItem (Some "B") None)
                  [mkTrendItem (Some "A") (Some (JNumber 0.8))] "B")
        as (q & [= <-] & Hq); [reflexivity|reflexivity| |exact Hq].
      intros it' [<-|[]]. discriminate.
    + apply Habsent. intros it Hin. cbn in Hin.
      destruct Hin as [<-|[<-|[<-|[]]]]; discriminate.
  - intros Hm.
    apply (proj2 (proj1 (trend_scores_dictionary trending_items_null_score)))
      in Hm.
    inversion Hm as [|? ? _ Hrest]. inversion Hrest as [|? ? [_ [q Hq]] _].
    discriminate Hq.
Defined.

Lemma trends_cache_serves_only_nonempty_witness :
  fetch_market_trends (env_good_token 2000000) default_settings
    (with_cached_trends trends_A)
  = (Ok trends_A, next_tick (with_cached_trends trends_A), []).
Proof.
  refine (proj1 (trends_cache_serves_only_nonempty (env_good_token 2000000)
                   default_settings (with_cached_trends trends_A)
                   (mkEntry trends_A 0%Q) _ _) _).
  - reflexivity.
  - vm_compute. reflexivity.
  - intros H. apply (f_equal (fun m : gmap string Q => m !! "A")) in H.
    vm_compute in H. discriminate.
Defined.

Lemma only_trending_tokens_are_bought_witness :
  let '(r, st', evs) :=
    for_each (consider_token (env_good_token 2000000) default_settings ∅)
      [candidate_A] (holding []) in
  buys_of evs = [].
Proof.
  destruct (for_each (consider_token (env_good_token 2000000) default_settings
                        ∅) [candidate_A] (holding []))
    as [[r st'] evs] eqn:E.
  refine (proj2 (only_trending_tokens_are_bought _ _ _ _ _ _ _ _ _ E) eq_refl).
  vm_compute. reflexivity.
Defined.

Lemma analyzed_token_is_fresh_and_checked_witness :
  let '(r, st1, evs) :=
    analyze_token (env_good_token 2000000) default_settings "A" "Token A"
      (starting [position_A]) in
  exists ts,
    r = Ok (Some ts)
    /\ volume ts = a_volume_24h analytics_A /\ decimals ts = 6%Z
    /\ holdings ts = 0%Q
    /\ truthy (API_KEY_RUGCHECK st1) = true.
Proof.
  destruct (analyze_token (env_good_token 2000000) default_settings "A"
              "Token A" (starting [position_A])) as [[r st1] evs] eqn:E.
  pose proof (f_equal (fun x => x.1.1) E) as Hr. cbn beta in Hr.
  vm_compute in Hr. subst r.
  destruct (analyzed_token_is_fresh_and_checked _ _ _ _ _ _ _ _ E)
    as ((a & s1 & e1 & dec & s2 & e2 & e3 & Hf & _ & Hdec & _ & _ & _
         & Hvol & _ & _ & Hd)
        & _ & _ & Hh & _ & _ & Hk & _).
  eexists. split; [reflexivity|].
  pose proof (f_equal (fun x => x.1.1) Hf) as Ha. cbn beta in Ha.
  vm_compute in Ha. injection Ha as Ha.
  pose proof (f_equal (fun x => x.1.2) Hf) as Hs. cbn beta in Hs.
  vm_compute in Hs. subst s1.
  split; [by rewrite Hvol, <- Ha|]. split; [|by split].
  rewrite Hd, Hdec. reflexivity.
Defined.

Lemma gates_leave_only_sniper_and_insider_penalties_witness :
  (scam_risk (update_scam_risk default_settings
                (update_analytics (analytics_with 60 0) token_A))
   == penalty true 0.3 + penalty false 0.2)%Q.
Proof.
  refine (gates_leave_only_sniper_and_insider_penalties default_settings
            (update_analytics (analytics_with 60 0) token_A) 0.8 _ _ _).
  - vm_compute. discriminate.
  - vm_compute. discriminate.
  - vm_compute. reflexivity.
Defined.
